(** * prompt-router: fingerprint cache and batch engine

    A shallow embedding of [cache/prompt_cache.py] and
    [chains/batch_processor.py].  Python objects become Rocq values, the
    SQLite table [cache_entries] a list of rows in rowid order, the cache
    directory a finite map from file names to file contents, and every
    method a computation in a state-and-exception monad over the [World]
    it reads and mutates. *)

From Stdlib Require Import ZArith QArith Qround Permutation Ascii.
From stdpp Require Import gmap strings list fin_maps sorting pretty.

Local Open Scope Z_scope.
Local Set Warnings "-register-all".

(** ** hashlib.sha256 (FIPS 180-4), on 32-bit words held in [Z] *)

Module Sha256.

Definition w32 (x : Z) : Z := x mod 2 ^ 32.
Definition add32 (x y : Z) : Z := w32 (x + y).
Definition rotr (n x : Z) : Z :=
  w32 (Z.lor (Z.shiftr x n) (Z.shiftl x (32 - n))).
Definition shr (n x : Z) : Z := Z.shiftr x n.
Definition not32 (x : Z) : Z := Z.lxor x (2 ^ 32 - 1).

Definition Ch (x y z : Z) : Z := Z.lxor (Z.land x y) (Z.land (not32 x) z).
Definition Maj (x y z : Z) : Z :=
  Z.lxor (Z.lxor (Z.land x y) (Z.land x z)) (Z.land y z).
Definition bsig0 (x : Z) : Z := Z.lxor (Z.lxor (rotr 2 x) (rotr 13 x)) (rotr 22 x).
Definition bsig1 (x : Z) : Z := Z.lxor (Z.lxor (rotr 6 x) (rotr 11 x)) (rotr 25 x).
Definition ssig0 (x : Z) : Z := Z.lxor (Z.lxor (rotr 7 x) (rotr 18 x)) (shr 3 x).
Definition ssig1 (x : Z) : Z := Z.lxor (Z.lxor (rotr 17 x) (rotr 19 x)) (shr 10 x).

(** The constants are derived as the standard prescribes: from the
    first 64 primes, the first 32 bits of the fractional parts of their
    cube roots (the round constants) and, for the first 8, of their
    square roots (the initial hash value). *)
Definition is_prime (n : Z) : bool :=
  (1 <? n) && forallb (λ d, negb (n mod d =? 0)) (seqZ 2 (n - 2)).

Definition primes : list Z := filter (λ n, is_prime n = true) (seqZ 2 310).

(** The integer cube root, by bisection between [lo] and [hi]. *)
Fixpoint cube_root (fuel : nat) (lo hi n : Z) : Z :=
  match fuel with
  | O => lo
  | S fuel' =>
      if hi - lo <=? 1 then lo
      else let mid := (lo + hi) / 2 in
           if mid ^ 3 <=? n then cube_root fuel' mid hi n else cube_root fuel' lo mid n
  end.

Definition frac_cube_root (p : Z) : Z := w32 (cube_root 40 0 (2 ^ 35) (p * 2 ^ 96)).
Definition frac_square_root (p : Z) : Z := w32 (Z.sqrt (p * 2 ^ 64)).

Definition K : list Z := Eval vm_compute in map frac_cube_root primes.

(** The eight working variables a..h, also the chaining value. *)
Record state := State { sa : Z; sb : Z; sc : Z; sd : Z; se : Z; sf : Z; sg : Z; sh : Z }.

Definition H0 : state :=
  Eval vm_compute in
    match map frac_square_root (take 8 primes) with
    | [a; b; c; d; e; f; g; h] => State a b c d e f g h
    | _ => State 0 0 0 0 0 0 0 0
    end.

Definition be_bytes (n : nat) (x : Z) : list Z :=
  map (fun i => (x / 2 ^ (8 * Z.of_nat i)) mod 256) (rev (seq 0 n)).

Definition pad (msg : list Z) : list Z :=
  let len := Z.of_nat (length msg) in
  msg ++ [0x80] ++ replicate (Z.to_nat ((55 - len) mod 64)) 0 ++ be_bytes 8 (8 * len).

Fixpoint words_of_bytes (bs : list Z) : list Z :=
  match bs with
  | b0 :: b1 :: b2 :: b3 :: rest =>
      (b0 * 2 ^ 24 + b1 * 2 ^ 16 + b2 * 2 ^ 8 + b3) :: words_of_bytes rest
  | _ => []
  end.

Fixpoint blocks (n : nat) (ws : list Z) : list (list Z) :=
  match n with
  | O => []
  | S n' => take 16 ws :: blocks n' (drop 16 ws)
  end.

Definition wd (w : list Z) (back : nat) : Z := nth (length w - back) w 0.

Fixpoint extend (n : nat) (w : list Z) : list Z :=
  match n with
  | O => w
  | S n' =>
      extend n' (w ++ [w32 (ssig1 (wd w 2) + wd w 7 + ssig0 (wd w 15) + wd w 16)])
  end.

Definition schedule (block : list Z) : list Z := extend 48 block.

Definition round (s : state) (kw : Z * Z) : state :=
  let t1 := w32 (sh s + bsig1 (se s) + Ch (se s) (sf s) (sg s) + kw.1 + kw.2) in
  let t2 := w32 (bsig0 (sa s) + Maj (sa s) (sb s) (sc s)) in
  State (add32 t1 t2) (sa s) (sb s) (sc s) (add32 (sd s) t1) (se s) (sf s) (sg s).

Definition compress (h : state) (block : list Z) : state :=
  let s := fold_left round (combine K (schedule block)) h in
  State (add32 (sa h) (sa s)) (add32 (sb h) (sb s)) (add32 (sc h) (sc s))
        (add32 (sd h) (sd s)) (add32 (se h) (se s)) (add32 (sf h) (sf s))
        (add32 (sg h) (sg s)) (add32 (sh h) (sh s)).

Definition digest (msg : list Z) : state :=
  let ws := words_of_bytes (pad msg) in
  fold_left compress (blocks (length ws / 16) ws) H0.

Definition hex_alphabet : list ascii :=
  ["0"; "1"; "2"; "3"; "4"; "5"; "6"; "7"; "8"; "9"; "a"; "b"; "c"; "d"; "e"; "f"]%char.

Definition hexdigit (x : Z) : ascii := nth (Z.to_nat (x mod 16)) hex_alphabet "0"%char.

Definition hex32 (x : Z) (tail : string) : string :=
  String (hexdigit (x / 2 ^ 28)) (String (hexdigit (x / 2 ^ 24))
  (String (hexdigit (x / 2 ^ 20)) (String (hexdigit (x / 2 ^ 16))
  (String (hexdigit (x / 2 ^ 12)) (String (hexdigit (x / 2 ^ 8))
  (String (hexdigit (x / 2 ^ 4)) (String (hexdigit x) tail))))))).

Definition hexdigest (msg : list Z) : string :=
  let s := digest msg in
  hex32 (sa s) (hex32 (sb s) (hex32 (sc s) (hex32 (sd s)
  (hex32 (se s) (hex32 (sf s) (hex32 (sg s) (hex32 (sh s) ""))))))).

End Sha256.

(** [str.encode('utf-8')]: a Rocq [string] is the byte sequence already. *)
Fixpoint encode_utf8 (s : string) : list Z :=
  match s with
  | EmptyString => []
  | String c s' => Z.of_N (Ascii.N_of_ascii c) :: encode_utf8 s'
  end.

Definition sha256_hexdigest (s : string) : string := Sha256.hexdigest (encode_utf8 s).

(** ** Python values, exceptions and the world the methods run in *)

(** What [pickle] stores and the collaborators exchange: [Dict[str, Any]]
    with the values the pipeline puts there. *)
Inductive pyval :=
| PyNone
| PyBool (b : bool)
| PyInt (z : Z)
| PyStr (s : string)
| PyList (l : list pyval)
| PyDict (items : list (string * pyval)).

(** A dict, as its items in insertion order. *)
Abbreviation pydict := (list (string * pyval)).

Fixpoint dict_lookup (d : pydict) (k : string) : option pyval :=
  match d with
  | [] => None
  | (k', v) :: d' => if bool_decide (k' = k) then Some v else dict_lookup d' k
  end.

(** [d.get(k, default)] *)
Definition dict_get (d : pydict) (k : string) (default : pyval) : pyval :=
  match dict_lookup d k with
  | Some v => v
  | None => default
  end.

(** An [Exception] instance: its class and [str(e)]. *)
Record exn := Exn { exn_class : string; exn_text : string }.

Inductive outcome (A : Type) :=
| Ok (a : A)
| Raise (e : exn).
Arguments Ok {A} a.
Arguments Raise {A} e.

(** [d[k]] *)
Definition dict_getitem (d : pydict) (k : string) : outcome pyval :=
  match dict_lookup d k with
  | Some v => Ok v
  | None => Raise (Exn "KeyError" ("'" +:+ k +:+ "'"))
  end.

(** Truthiness of what [PromptCache.get] returns: [None] or a dict. *)
Definition truthy (r : option pydict) : bool :=
  match r with
  | Some (_ :: _) => true
  | _ => false
  end.

(** One row of [cache_entries].  Datetimes are microseconds since the
    epoch; the ISO text the table holds is their image.  The column
    [file_path] is [_get_file_path key] and is never read back. *)
Record Row := mkRow {
  key : string;
  created_at : Z;
  expires_at : option Z;
  access_count : Z;
  last_accessed : option Z;
  size_bytes : Z;
  tags : list string
}.

(** A cache file: a complete pickle of a payload, or bytes that
    [pickle.load] rejects (a dump cut short). *)
Inductive FileContent :=
| Pickled (d : pydict)
| Truncated.

Record PromptCache := mkCache {
  max_size_bytes : Z;
  default_ttl : Z;
  entries : list Row;
  files : gmap string FileContent
}.

(** Where a [set] call meets an I/O failure, if anywhere. *)
Inductive set_fault :=
| NoFault
| DumpFails    (* pickle.dump raises after open() truncated the file *)
| StatFails    (* file_path.stat() raises *)
| InsertFails. (* INSERT OR REPLACE raises and is rolled back *)

(** Collaborator calls, as observed from outside. *)
Inductive Call :=
| CallOptimize (prompt target : string)
| CallRoute (prompt target : string)
| CallAnalyze (prompt target : string)
| CallSaveAnalysis.

(** The environment: the readings the wall clock will return, the size
    of the pickle of each payload, the failures the next [set] calls will
    meet, and the mutable state: clock position, cache, call log. *)
Record World := mkWorld {
  clock : nat → Z;
  pickled_size : pydict → Z;
  pending_faults : list set_fault;
  tick : nat;
  cache : PromptCache;
  calls : list Call
}.

Definition with_cache (f : PromptCache → PromptCache) (w : World) : World :=
  mkWorld (clock w) (pickled_size w) (pending_faults w) (tick w) (f (cache w)) (calls w).
Definition with_entries (f : list Row → list Row) (c : PromptCache) : PromptCache :=
  mkCache (max_size_bytes c) (default_ttl c) (f (entries c)) (files c).
Definition with_files (f : gmap string FileContent → gmap string FileContent)
    (c : PromptCache) : PromptCache :=
  mkCache (max_size_bytes c) (default_ttl c) (entries c) (f (files c)).

(** ** State and exceptions *)

Definition E (A : Type) : Type := World → outcome A * World.

#[global] Instance E_ret : MRet E := λ A a w, (Ok a, w).
#[global] Instance E_bind : MBind E := λ A B f m w,
  match m w with
  | (Ok a, w') => f a w'
  | (Raise e, w') => (Raise e, w')
  end.

Definition raise {A} (e : exn) : E A := λ w, (Raise e, w).

(** [try: body / except Exception as e: handler e] *)
Definition try_except {A} (body : E A) (handler : exn → E A) : E A := λ w,
  match body w with
  | (Ok a, w') => (Ok a, w')
  | (Raise e, w') => handler e w'
  end.

Definition lift_outcome {A} (o : outcome A) : E A := λ w, (o, w).

(** [datetime.now()] and [time.time()]: the next reading of the clock. *)
Definition datetime_now : E Z := λ w,
  (Ok (clock w (tick w)),
   mkWorld (clock w) (pickled_size w) (pending_faults w) (S (tick w)) (cache w) (calls w)).

Definition read_cache : E PromptCache := λ w, (Ok (cache w), w).
Definition modify_cache (f : PromptCache → PromptCache) : E unit := λ w,
  (Ok (), with_cache f w).
Definition sizeof (d : pydict) : E Z := λ w, (Ok (pickled_size w d), w).
Definition next_fault : E set_fault := λ w,
  (Ok (hd NoFault (pending_faults w)),
   mkWorld (clock w) (pickled_size w) (tl (pending_faults w)) (tick w) (cache w) (calls w)).
Definition record (c : Call) : E unit := λ w,
  (Ok (),
   mkWorld (clock w) (pickled_size w) (pending_faults w) (tick w) (cache w) (calls w ++ [c])).

(** The primitives compute once they are given the world. *)
Arguments raise {A} e w /.
Arguments try_except {A} body handler w /.
Arguments lift_outcome {A} o w /.
Arguments datetime_now w /.
Arguments read_cache w /.
Arguments modify_cache f w /.
Arguments sizeof d w /.
Arguments next_fault w /.
Arguments record c w /.

(** ** cache/prompt_cache.py *)

(** SQL on [cache_entries] *)
Definition select_by_key (k : string) (rows : list Row) : option Row :=
  List.find (λ r, bool_decide (key r = k)) rows.
Definition delete_by_key (k : string) (rows : list Row) : list Row :=
  filter (λ r, key r ≠ k) rows.
Definition insert_or_replace (r : Row) (rows : list Row) : list Row :=
  delete_by_key (key r) rows ++ [r].
Definition touch (k : string) (t : Z) (rows : list Row) : list Row :=
  map (λ r, if bool_decide (key r = k)
            then mkRow (key r) (created_at r) (expires_at r) (access_count r + 1)
                       (Some t) (size_bytes r) (tags r)
            else r) rows.
Fixpoint sum_size_bytes (rows : list Row) : Z :=
  match rows with
  | [] => 0
  | r :: rest => size_bytes r + sum_size_bytes rest
  end.

(** [ORDER BY ...] on the rows of the table: the rows are put in the
    order [leb], and rows that tie stay in rowid order, which is the order
    of the list. *)
Fixpoint insert_by (leb : Row → Row → bool) (r : Row) (sorted : list Row) : list Row :=
  match sorted with
  | [] => [r]
  | x :: rest => if leb r x then r :: sorted else x :: insert_by leb r rest
  end.
Definition order_by (leb : Row → Row → bool) (rows : list Row) : list Row :=
  foldr (insert_by leb) [] rows.

(** [ORDER BY access_count ASC, last_accessed ASC]; NULL sorts first. *)
Definition null_first_leb (a b : option Z) : bool :=
  match a, b with
  | None, _ => true
  | Some _, None => false
  | Some x, Some y => bool_decide (x ≤ y)
  end.
Definition lru_leb (r1 r2 : Row) : bool :=
  bool_decide (access_count r1 < access_count r2)
  || (bool_decide (access_count r1 = access_count r2)
      && null_first_leb (last_accessed r1) (last_accessed r2)).
Definition lru_le (r1 r2 : Row) : Prop := lru_leb r1 r2 = true.
#[global] Instance lru_le_dec : RelDecision lru_le := λ r1 r2, decide (lru_leb r1 r2 = true).
Definition lru_order (rows : list Row) : list Row := order_by lru_leb rows.

Definition _generate_key (prompt target_llm optimization_type : string) : string :=
  let cache_input := prompt +:+ "|" +:+ target_llm +:+ "|" +:+ optimization_type in
  sha256_hexdigest cache_input.

Definition _get_file_path (k : string) : string := k +:+ ".cache".

Definition _remove_entry (k : string) : E bool :=
  modify_cache (with_entries (delete_by_key k));;
  modify_cache (with_files (delete (_get_file_path k)));;
  mret true.

Definition _get_total_size : E Z :=
  c ← read_cache; mret (sum_size_bytes (entries c)).

Arguments _remove_entry k w /.
Arguments _get_total_size w /.

(** The loop of [_cleanup_by_size] over the rows fetched beforehand. *)
Fixpoint evict_loop (rows : list Row) (needed_bytes freed_bytes removed_count : Z)
    : E (Z * Z) :=
  match rows with
  | [] => mret (removed_count, freed_bytes)
  | row :: rest =>
      if bool_decide (needed_bytes ≤ freed_bytes) then mret (removed_count, freed_bytes)
      else
        ok ← _remove_entry (key row);
        if ok : bool
        then evict_loop rest needed_bytes (freed_bytes + size_bytes row) (removed_count + 1)
        else evict_loop rest needed_bytes freed_bytes removed_count
  end.

Definition _cleanup_by_size (needed_bytes : Z) : E Z :=
  c ← read_cache;
  '(removed_count, _) ← evict_loop (lru_order (entries c)) needed_bytes 0 0;
  mret removed_count.

Definition hours (h : Z) : Z := h * 3600000000.

Definition get (prompt target_llm optimization_type : string) : E (option pydict) :=
  let k := _generate_key prompt target_llm optimization_type in
  c ← read_cache;
  match select_by_key k (entries c) with
  | None => mret None
  | Some row =>
      expired ← match expires_at row with
                | Some e => t ← datetime_now; mret (bool_decide (e < t))
                | None => mret false
                end;
      if expired : bool then _remove_entry k;; mret None
      else
        t ← datetime_now;
        modify_cache (with_entries (touch k t));;
        c' ← read_cache;
        match files c' !! _get_file_path k with
        | None => _remove_entry k;; mret None
        | Some Truncated => _remove_entry k;; mret None
        | Some (Pickled cached_data) => mret (Some cached_data)
        end
  end.

(** [set].  The expiry, [datetime.now() + timedelta(hours=ttl_hours)] or
    [datetime.now() + self.default_ttl], is computed before the [try].  The
    definition is of the calls for which this datetime exists
    ([expiry_representable] below); Python raises [OverflowError] for the
    others. *)
Definition set (prompt target_llm : string) (data : pydict)
    (optimization_type : string) (ttl_hours : option Z) (tags : list string) : E bool :=
  let k := _generate_key prompt target_llm optimization_type in
  let file_path := _get_file_path k in
  t ← datetime_now;
  c ← read_cache;
  let expires := match ttl_hours with
                 | Some h => t + hours h
                 | None => t + default_ttl c
                 end in
  fault ← next_fault;
  try_except
    ((match fault with
      | DumpFails =>
          modify_cache (with_files (<[file_path := Truncated]>));;
          raise (Exn "PicklingError" "cannot pickle object")
      | _ => modify_cache (with_files (<[file_path := Pickled data]>))
      end);;
     size ← match fault with
            | StatFails => raise (Exn "OSError" "stat failed")
            | _ => sizeof data
            end;
     total ← _get_total_size;
     (if bool_decide (max_size_bytes c < total + size)
      then _cleanup_by_size size else mret 0);;
     (match fault with
      | InsertFails => raise (Exn "OperationalError" "database or disk is full")
      | _ => modify_cache (with_entries
               (insert_or_replace (mkRow k t (Some expires) 0 None size tags)))
      end);;
     mret true)
    (λ e,
       c' ← read_cache;
       (if bool_decide (is_Some (files c' !! file_path))
        then modify_cache (with_files (delete file_path)) else mret ());;
       mret false).

(** ** chains/batch_processor.py *)

Module BatchItem.
Record t := mk {
  id : string;
  prompt : string;
  target_llm : string;
  optimization_type : string;
  metadata : pydict
}.
End BatchItem.

(** [time.time() - start_time], in seconds; the clock counts microseconds. *)
Definition seconds_between (t0 t1 : Z) : Q := (inject_Z (t1 - t0) / 1000000)%Q.

Module BatchResult.
Record t := mk {
  item_id : string;
  original_prompt : string;
  optimized_prompt : pyval;
  formatted_prompt : pyval;
  target_llm : string;
  processing_time_seconds : Q;
  success : bool;
  error_message : option string;
  analysis : pyval;
  routing_metadata : pyval
}.
End BatchResult.

Module BatchReport.
Record t := mk {
  batch_id : string;
  started_at : Z;
  completed_at : option Z;
  total_items : Z;
  processed_items : Z;
  successful_items : Z;
  failed_items : Z;
  total_time_seconds : Q;
  average_time_per_item : Q;
  results : list BatchResult.t;
  errors : list string
}.
End BatchReport.

(** [a / b] on numbers *)
Definition truediv (a b : Q) : outcome Q :=
  if Qeq_bool b 0 then Raise (Exn "ZeroDivisionError" "division by zero")
  else Ok (a / b)%Q.

(** [round(x, ndigits)]: to the nearest multiple of 10^-ndigits, halves
    to the even one; exact on rationals, where Python rounds the float. *)
Definition round (x : Q) (ndigits : Z) : Q :=
  let scaled := (x * inject_Z (10 ^ ndigits))%Q in
  let lo := Qfloor scaled in
  let frac := (scaled - inject_Z lo)%Q in
  let n := if Qeq_bool frac (1 # 2)%Q then (if Z.even lo then lo else lo + 1)
           else if Qle_bool frac (1 # 2)%Q then lo else lo + 1 in
  (inject_Z n / inject_Z (10 ^ ndigits))%Q.

Module Progress.
Record t := mk {
  total_items : Z;
  completed_items : Z;
  progress_percent : Q;
  elapsed_time_seconds : Q;
  eta_seconds : Q;
  avg_time_per_item : Q
}.
End Progress.

Module ProgressTracker.
Record t := mk {
  total_items : Z;
  completed_items : Z;
  start_time : Z
}.

(** [ProgressTracker(total_items)] *)
Definition init (total_items : Z) : E t :=
  start ← datetime_now; mret (mk total_items 0 start).

Definition update (self : t) (completed : Z) : t :=
  mk (total_items self) (completed_items self + completed) (start_time self).

Definition get_progress (self : t) : E Progress.t :=
  t1 ← datetime_now;
  let elapsed_time := seconds_between (start_time self) t1 in
  ratio ← lift_outcome (truediv (inject_Z (completed_items self)) (inject_Z (total_items self)));
  let progress_percent := (ratio * 100)%Q in
  '(avg_time_per_item, eta_seconds) ←
    (if bool_decide (0 < completed_items self)
     then avg ← lift_outcome (truediv elapsed_time (inject_Z (completed_items self)));
          mret (avg, (avg * inject_Z (total_items self - completed_items self))%Q)
     else mret (0%Q, 0%Q));
  mret (Progress.mk (total_items self) (completed_items self)
          (round progress_percent 2) (round elapsed_time 2)
          (round eta_seconds 2) (round avg_time_per_item 3)).
End ProgressTracker.

(** [m] run inside a [try]: what it returned or raised, as a value. *)
Definition attempt {A} (m : E A) : E (outcome A) := λ w,
  let '(o, w') := m w in (Ok o, w').
Arguments attempt {A} m w /.

(** What a [BatchProcessor] holds: the collaborators, which are the
    optimizer, the router, the analyzer (with [to_dict] applied to its
    result) and the analytics storage, and [max_workers].  A collaborator
    returns, or raises an [Exception]. *)
Record Collaborators := mkCollaborators {
  optimize : string → string → outcome string;
  route_prompt : string → string → outcome pydict;
  analyze : string → string → outcome pydict;
  save_analysis : pydict → outcome unit;
  max_workers : Z
}.

Section BatchProcessor.

Variable self : Collaborators.
(** [datetime.strftime('%Y%m%d_%H%M%S')] *)
Variable strftime : Z → string.

Definition _process_single_item (item : BatchItem.t)
    (enable_analysis enable_cache : bool) : E BatchResult.t :=
  start_time ← datetime_now;
  try_except
    (cached_result ←
       (if enable_cache
        then get (BatchItem.prompt item) (BatchItem.target_llm item)
                 (BatchItem.optimization_type item)
        else mret None);
     if truthy cached_result then
       let d := default [] cached_result in
       t1 ← datetime_now;
       mret (BatchResult.mk (BatchItem.id item) (BatchItem.prompt item)
               (dict_get d "optimized_prompt" (PyStr (BatchItem.prompt item)))
               (dict_get d "formatted_prompt" (PyStr (BatchItem.prompt item)))
               (BatchItem.target_llm item) (seconds_between start_time t1) true None
               (dict_get d "analysis" PyNone) (dict_get d "routing_metadata" PyNone))
     else
       record (CallOptimize (BatchItem.prompt item) (BatchItem.target_llm item));;
       optimized_prompt ←
         lift_outcome (optimize self (BatchItem.prompt item) (BatchItem.target_llm item));
       record (CallRoute optimized_prompt (BatchItem.target_llm item));;
       routing_result ←
         lift_outcome (route_prompt self optimized_prompt (BatchItem.target_llm item));
       analysis_result ←
         (if enable_analysis
          then record (CallAnalyze (BatchItem.prompt item) (BatchItem.target_llm item));;
               analysis ←
                 lift_outcome (analyze self (BatchItem.prompt item) (BatchItem.target_llm item));
               record CallSaveAnalysis;;
               lift_outcome (save_analysis self analysis);;
               mret (PyDict analysis)
          else mret PyNone);
       formatted ← lift_outcome (dict_getitem routing_result "formatted_prompt");
       routing_metadata ← lift_outcome (dict_getitem routing_result "metadata");
       let result_data :=
         [("optimized_prompt", PyStr optimized_prompt); ("formatted_prompt", formatted);
          ("analysis", analysis_result); ("routing_metadata", routing_metadata)] in
       (if enable_cache
        then set (BatchItem.prompt item) (BatchItem.target_llm item) result_data
                 (BatchItem.optimization_type item) None
                 ["batch"; BatchItem.target_llm item];;
             mret ()
        else mret ());;
       t1 ← datetime_now;
       mret (BatchResult.mk (BatchItem.id item) (BatchItem.prompt item)
               (PyStr optimized_prompt) formatted
               (BatchItem.target_llm item) (seconds_between start_time t1) true None
               analysis_result routing_metadata))
    (λ e,
       t1 ← datetime_now;
       mret (BatchResult.mk (BatchItem.id item) (BatchItem.prompt item)
               (PyStr "") (PyStr "")
               (BatchItem.target_llm item) (seconds_between start_time t1) false
               (Some (exn_text e)) PyNone PyNone)).

(** The [except] branch of the collection loop. *)
Definition critical_error (report : BatchReport.t) (item : BatchItem.t) (e : exn)
    : BatchReport.t :=
  let error_msg := "Erro crítico no item " +:+ BatchItem.id item +:+ ": " +:+ exn_text e in
  BatchReport.mk (BatchReport.batch_id report) (BatchReport.started_at report)
    (BatchReport.completed_at report) (BatchReport.total_items report)
    (BatchReport.processed_items report) (BatchReport.successful_items report)
    (BatchReport.failed_items report + 1)
    (BatchReport.total_time_seconds report) (BatchReport.average_time_per_item report)
    (BatchReport.results report) (BatchReport.errors report ++ [error_msg]).

(** The bookkeeping between [future.result()] and the progress update. *)
Definition add_result (report : BatchReport.t) (item : BatchItem.t)
    (result : BatchResult.t) : BatchReport.t :=
  let ok := BatchResult.success result in
  BatchReport.mk (BatchReport.batch_id report) (BatchReport.started_at report)
    (BatchReport.completed_at report) (BatchReport.total_items report)
    (BatchReport.processed_items report + 1)
    (if ok then BatchReport.successful_items report + 1
     else BatchReport.successful_items report)
    (if ok then BatchReport.failed_items report
     else BatchReport.failed_items report + 1)
    (BatchReport.total_time_seconds report) (BatchReport.average_time_per_item report)
    (BatchReport.results report ++ [result])
    (if ok then BatchReport.errors report
     else match BatchResult.error_message result with
          | Some (String _ _ as msg) =>
              BatchReport.errors report
              ++ ["Item " +:+ BatchItem.id item +:+ ": " +:+ msg]
          | _ => BatchReport.errors report
          end).

(** One turn of [for future in as_completed(...)].  The report and the
    tracker are mutated in place, so what the [try] body did before an
    exception stays done. *)
Definition collect_one (enable_analysis enable_cache : bool)
    (progress_callback : option (Progress.t → outcome unit))
    (state : BatchReport.t * ProgressTracker.t) (item : BatchItem.t)
    : E (BatchReport.t * ProgressTracker.t) :=
  let '(report, progress) := state in
  future_result ← attempt (_process_single_item item enable_analysis enable_cache);
  match future_result with
  | Raise e => mret (critical_error report item e, progress)
  | Ok result =>
      let report := add_result report item result in
      let progress := ProgressTracker.update progress 1 in
      match progress_callback with
      | None => mret (report, progress)
      | Some callback =>
          called ← attempt (p ← ProgressTracker.get_progress progress;
                            lift_outcome (callback p));
          match called with
          | Ok _ => mret (report, progress)
          | Raise e => mret (critical_error report item e, progress)
          end
      end
  end.

Fixpoint collect (enable_analysis enable_cache : bool)
    (progress_callback : option (Progress.t → outcome unit))
    (completed : list BatchItem.t) (state : BatchReport.t * ProgressTracker.t)
    : E (BatchReport.t * ProgressTracker.t) :=
  match completed with
  | [] => mret state
  | item :: rest =>
      state' ← collect_one enable_analysis enable_cache progress_callback state item;
      collect enable_analysis enable_cache progress_callback rest state'
  end.

(** [ThreadPoolExecutor(max_workers=self.max_workers)] *)
Definition ThreadPoolExecutor : E unit :=
  if bool_decide (max_workers self ≤ 0)
  then raise (Exn "ValueError" "max_workers must be greater than 0")
  else mret ().

(** [process_batch], on the schedules of the worker pool in which the
    jobs run to completion one at a time: in the order
    [completion_order], a rearrangement of [batch_items], in which
    [as_completed] yields them too.  Schedules in which two workers are
    inside the cache at once are not among them.  [_save_batch_report]
    swallows its own errors and leaves the report as it is; the file it
    writes is not part of the model. *)
Definition process_batch (batch_items completion_order : list BatchItem.t)
    (batch_id : option string) (enable_analysis enable_cache : bool)
    (progress_callback : option (Progress.t → outcome unit)) : E BatchReport.t :=
  batch_id ← match batch_id with
             | Some (String _ _ as given) => mret given
             | _ => t ← datetime_now; mret ("batch_" +:+ strftime t)
             end;
  started_at ← datetime_now;
  let total := Z.of_nat (length batch_items) in
  let report := BatchReport.mk batch_id started_at None total 0 0 0 0%Q 0%Q [] [] in
  progress ← ProgressTracker.init total;
  ThreadPoolExecutor;;
  '(report, _) ← collect enable_analysis enable_cache progress_callback
                   completion_order (report, progress);
  completed_at ← datetime_now;
  let total_time := seconds_between started_at completed_at in
  average ← (if bool_decide (0 < BatchReport.processed_items report)
             then lift_outcome
                    (truediv total_time (inject_Z (BatchReport.processed_items report)))
             else mret (BatchReport.average_time_per_item report));
  mret (BatchReport.mk (BatchReport.batch_id report) (BatchReport.started_at report)
          (Some completed_at) (BatchReport.total_items report)
          (BatchReport.processed_items report) (BatchReport.successful_items report)
          (BatchReport.failed_items report) total_time average
          (BatchReport.results report) (BatchReport.errors report)).

End BatchProcessor.

(** ** Auxiliary definitions for the statements *)

(** Every character of [s] is a lower-case hexadecimal digit. *)
Definition hex_string (s : string) : Prop :=
  Forall (λ c, In c Sha256.hex_alphabet) (String.list_ascii_of_string s).

(** The rows [_cleanup_by_size] deletes, given the fetched rows: it stops
    as soon as the bytes freed so far reach [needed_bytes]. *)
Fixpoint victims (rows : list Row) (needed_bytes freed_bytes : Z) : list Row :=
  match rows with
  | [] => []
  | row :: rest =>
      if bool_decide (needed_bytes ≤ freed_bytes) then []
      else row :: victims rest needed_bytes (freed_bytes + size_bytes row)
  end.

(** The cache after [_remove_entry] on each of [rows] in turn. *)
Definition remove_all (rows : list Row) (c : PromptCache) : PromptCache :=
  foldl (λ c r, with_files (delete (_get_file_path (key r)))
                  (with_entries (delete_by_key (key r)) c)) c rows.

Arguments remove_all : simpl never.

(** The cache a [set] call without I/O failure leaves behind. *)
Definition cache_after_set (c : PromptCache) (k : string) (data : pydict)
    (t expires size : Z) (tags : list string) : PromptCache :=
  let c1 := with_files (<[_get_file_path k := Pickled data]>) c in
  let c2 := if bool_decide (max_size_bytes c < sum_size_bytes (entries c) + size)
            then remove_all (victims (lru_order (entries c)) size 0) c1
            else c1 in
  with_entries (insert_or_replace (mkRow k t (Some expires) 0 None size tags)) c2.

Definition expiry (c : PromptCache) (t : Z) (ttl_hours : option Z) : Z :=
  match ttl_hours with
  | Some h => t + hours h
  | None => t + default_ttl c
  end.

(** The values Python's [datetime] and [timedelta] can hold, in
    microseconds, datetimes counted from 1970-01-01T00:00:00 as the rows
    and the clock have them: a datetime lies between 0001-01-01T00:00:00
    and 9999-12-31T23:59:59.999999, a timedelta between -999999999 days
    and one microsecond short of 1000000000 days.  Building a value
    outside raises [OverflowError]. *)
Definition datetime_min : Z := -62135596800000000.
Definition datetime_max : Z := 253402300799999999.
Definition is_datetime (t : Z) : Prop := datetime_min ≤ t ≤ datetime_max.
Definition is_timedelta (us : Z) : Prop :=
  -999999999 * 86400000000 ≤ us < 1000000000 * 86400000000.

(** [now + timedelta(hours=ttl_hours)], or [now + self.default_ttl],
    exists: the timedelta does, and so does the sum. *)
Definition expiry_representable (c : PromptCache) (t : Z) (ttl_hours : option Z) : Prop :=
  is_timedelta (match ttl_hours with Some h => hours h | None => default_ttl c end)
  ∧ is_datetime (expiry c t ttl_hours).

(** ** Sample worlds for the examples *)

Definition sample_key (prompt : string) : string := _generate_key prompt "claude" "default".

Definition sample_row (prompt : string) (expires : Z) (accesses : Z)
    (last : option Z) (size : Z) : Row :=
  mkRow (sample_key prompt) 0 (Some expires) accesses last size [].

Definition sample_blob (prompt : string) (d : pydict) : string * FileContent :=
  (_get_file_path (sample_key prompt), Pickled d).

Definition old_payload : pydict := [("optimized_prompt", PyStr "old")].
Definition new_payload : pydict := [("optimized_prompt", PyStr "new")].

(** The clock starts at 1000 and advances one microsecond per reading;
    every pickle takes [size] bytes. *)
Definition sample_world (budget : Z) (rows : list Row)
    (blobs : list (string * FileContent)) (size : Z) (faults : list set_fault) : World :=
  mkWorld (λ n, 1000 + Z.of_nat n) (λ _, size) faults 0
    (mkCache budget (hours 24) rows (list_to_map blobs)) [].

(** One 800-byte entry in a 1200-byte cache. *)
Definition world_one_large : World :=
  sample_world 1200 [sample_row "p1" (hours 24) 0 None 800]
    [sample_blob "p1" old_payload] 800 [].

(** Five 200-byte entries in a 1200-byte cache; the next pickle takes 400. *)
Definition world_five_small : World :=
  sample_world 1200
    [sample_row "p1" (hours 24) 1 (Some 10) 200; sample_row "p2" (hours 24) 2 (Some 20) 200;
     sample_row "p3" (hours 24) 3 (Some 30) 200; sample_row "p4" (hours 24) 4 (Some 40) 200;
     sample_row "p5" (hours 24) 5 (Some 50) 200]
    [sample_blob "p1" old_payload; sample_blob "p2" old_payload; sample_blob "p3" old_payload;
     sample_blob "p4" old_payload; sample_blob "p5" old_payload] 400 [].

(** Three 400-byte entries in a 1200-byte cache, one hour to live each. *)
Definition world_three_full : World :=
  sample_world 1200
    [sample_row "p1" (hours 1) 2 (Some 30) 400; sample_row "p2" (hours 1) 0 None 400;
     sample_row "p3" (hours 1) 1 (Some 20) 400]
    [sample_blob "p1" old_payload; sample_blob "p2" old_payload; sample_blob "p3" old_payload]
    400 [].

(** Three 400-byte entries that were never read. *)
Definition world_three_unread : World :=
  sample_world 1200
    [sample_row "p1" (hours 1) 0 None 400; sample_row "p2" (hours 1) 0 None 400;
     sample_row "p3" (hours 1) 0 None 400]
    [sample_blob "p1" old_payload; sample_blob "p2" old_payload; sample_blob "p3" old_payload]
    400 [].

(** One live entry; the next [set] fails while dumping the pickle. *)
Definition world_dump_fails : World :=
  sample_world 1200 [sample_row "p1" (hours 24) 0 None 400]
    [sample_blob "p1" old_payload] 400 [DumpFails].

(** One entry that expired at 500, before the clock's first reading. *)
Definition world_expired : World :=
  sample_world 1200 [sample_row "p1" 500 0 None 400] [sample_blob "p1" old_payload] 400 [].

(** [w'] is a later state of the run that was in [w]: same clock and
    pickle sizes, the clock read further, the call log extended. *)
Definition extends (w w' : World) : Prop :=
  clock w' = clock w
  ∧ pickled_size w' = pickled_size w
  ∧ (tick w ≤ tick w')%nat
  ∧ ∃ rest, calls w' = calls w ++ rest.

(** [m] only moves the world forward; [m] calls no collaborator; [m]
    never raises. *)
Definition framed {A} (m : E A) : Prop := ∀ w, extends w (m w).2.
Definition silent {A} (m : E A) : Prop := ∀ w, calls (m w).2 = calls w.
Definition total {A} (m : E A) : Prop := ∀ w, ∃ a, (m w).1 = Ok a.

(** [Q] holds of whatever [m] returns, and of the world it returns in. *)
Definition ensures {A} (m : E A) (Q : A → World → Prop) : Prop :=
  ∀ w, match m w with
       | (Ok a, w') => Q a w'
       | (Raise _, _) => True
       end.

(** The entry under [k] holds payload [d] and has not expired at time [t]. *)
Definition live_at (t : Z) (c : PromptCache) (k : string) (d : pydict) : Prop :=
  ∃ row, select_by_key k (entries c) = Some row
         ∧ (∀ e, expires_at row = Some e → t ≤ e)
         ∧ files c !! _get_file_path k = Some (Pickled d).

(** The cache key of a batch item. *)
Definition item_key (item : BatchItem.t) : string :=
  _generate_key (BatchItem.prompt item) (BatchItem.target_llm item)
    (BatchItem.optimization_type item).

(** The cache lookup that opens [_process_single_item]. *)
Definition cached_lookup (item : BatchItem.t) (enable_cache : bool) : E (option pydict) :=
  if enable_cache
  then get (BatchItem.prompt item) (BatchItem.target_llm item)
           (BatchItem.optimization_type item)
  else mret None.

(** The exception the first failing collaborator call raises when the
    item is computed, if any does. *)
Definition collaborator_failure (co : Collaborators) (item : BatchItem.t)
    (enable_analysis : bool) : option exn :=
  match optimize co (BatchItem.prompt item) (BatchItem.target_llm item) with
  | Raise e => Some e
  | Ok optimized =>
      match route_prompt co optimized (BatchItem.target_llm item) with
      | Raise e => Some e
      | Ok _ =>
          if enable_analysis then
            match analyze co (BatchItem.prompt item) (BatchItem.target_llm item) with
            | Raise e => Some e
            | Ok analysis =>
                match save_analysis co analysis with
                | Raise e => Some e
                | Ok _ => None
                end
            end
          else None
      end
  end.

(** The parts of [_process_single_item], named: the result of the
    [except] branch, and the computation on a cache miss. *)
Definition failed_result (item : BatchItem.t) (start_time t1 : Z) (e : exn) : BatchResult.t :=
  BatchResult.mk (BatchItem.id item) (BatchItem.prompt item) (PyStr "") (PyStr "")
    (BatchItem.target_llm item) (seconds_between start_time t1) false
    (Some (exn_text e)) PyNone PyNone.

Definition hit_result (item : BatchItem.t) (start_time t1 : Z) (d : pydict) : BatchResult.t :=
  BatchResult.mk (BatchItem.id item) (BatchItem.prompt item)
    (dict_get d "optimized_prompt" (PyStr (BatchItem.prompt item)))
    (dict_get d "formatted_prompt" (PyStr (BatchItem.prompt item)))
    (BatchItem.target_llm item) (seconds_between start_time t1) true None
    (dict_get d "analysis" PyNone) (dict_get d "routing_metadata" PyNone).

(** What follows the two routing calls on a miss. *)
Definition finish_item (co : Collaborators) (item : BatchItem.t)
    (enable_analysis enable_cache : bool) (start_time : Z)
    (optimized_prompt : string) (routing_result : pydict) : E BatchResult.t :=
  analysis_result ←
    (if enable_analysis
     then record (CallAnalyze (BatchItem.prompt item) (BatchItem.target_llm item));;
          analysis ←
            lift_outcome (analyze co (BatchItem.prompt item) (BatchItem.target_llm item));
          record CallSaveAnalysis;;
          lift_outcome (save_analysis co analysis);;
          mret (PyDict analysis)
     else mret PyNone);
  formatted ← lift_outcome (dict_getitem routing_result "formatted_prompt");
  routing_metadata ← lift_outcome (dict_getitem routing_result "metadata");
  let result_data :=
    [("optimized_prompt", PyStr optimized_prompt); ("formatted_prompt", formatted);
     ("analysis", analysis_result); ("routing_metadata", routing_metadata)] in
  (if enable_cache
   then set (BatchItem.prompt item) (BatchItem.target_llm item) result_data
            (BatchItem.optimization_type item) None
            ["batch"; BatchItem.target_llm item];;
        mret ()
   else mret ());;
  t1 ← datetime_now;
  mret (BatchResult.mk (BatchItem.id item) (BatchItem.prompt item)
          (PyStr optimized_prompt) formatted
          (BatchItem.target_llm item) (seconds_between start_time t1) true None
          analysis_result routing_metadata).

Definition compute_item (co : Collaborators) (item : BatchItem.t)
    (enable_analysis enable_cache : bool) (start_time : Z) : E BatchResult.t :=
  record (CallOptimize (BatchItem.prompt item) (BatchItem.target_llm item));;
  optimized_prompt ←
    lift_outcome (optimize co (BatchItem.prompt item) (BatchItem.target_llm item));
  record (CallRoute optimized_prompt (BatchItem.target_llm item));;
  routing_result ←
    lift_outcome (route_prompt co optimized_prompt (BatchItem.target_llm item));
  finish_item co item enable_analysis enable_cache start_time optimized_prompt routing_result.

(** [m] reads the clock at least once before it returns. *)
Definition advances {A} (m : E A) : Prop :=
  ∀ w, match m w with
       | (Ok _, w') => (tick w < tick w')%nat
       | (Raise _, _) => True
       end.

(** Sample collaborators: an optimizer that appends a full stop, a router
    that wraps the prompt in tags, an analyzer that returns a word count. *)
Definition sample_routing (prompt : string) : pydict :=
  [("formatted_prompt", PyStr ("<instructions>" +:+ prompt +:+ "</instructions>"));
   ("metadata", PyDict [("confidence", PyInt 1)])].

Definition working : Collaborators :=
  mkCollaborators (λ prompt _, Ok (prompt +:+ "."))
    (λ prompt _, Ok (sample_routing prompt))
    (λ _ _, Ok [("word_count", PyInt 1)])
    (λ _, Ok ()) 4.

(** The router fails on the prompt of item 3. *)
Definition router_down : Collaborators :=
  mkCollaborators (λ prompt _, Ok (prompt +:+ "."))
    (λ prompt _, if bool_decide (prompt = "third.")
                 then Raise (Exn "ConnectionError" "router down")
                 else Ok (sample_routing prompt))
    (λ _ _, Ok [("word_count", PyInt 1)])
    (λ _, Ok ()) 4.

(** The optimizer times out; [TimeoutError()] has an empty [str]. *)
Definition optimizer_times_out : Collaborators :=
  mkCollaborators (λ _ _, Raise (Exn "TimeoutError" ""))
    (λ prompt _, Ok (sample_routing prompt))
    (λ _ _, Ok [("word_count", PyInt 1)])
    (λ _, Ok ()) 4.

Definition sample_item (id prompt : string) : BatchItem.t :=
  BatchItem.mk id prompt "claude" "default" [].

Definition empty_world : World := sample_world 1200 [] [] 400 [].

(** A live entry whose payload is the empty dict. *)
Definition world_empty_payload : World :=
  sample_world 1200 [sample_row "p1" (hours 24) 0 None 400] [sample_blob "p1" []] 400 [].

(** A progress callback that never raises, or none at all. *)
Definition callback_safe (progress_callback : option (Progress.t → outcome unit)) : Prop :=
  ∀ callback, progress_callback = Some callback → ∀ p, callback p = Ok ().

(** A callback that fails on a closed standard output. *)
Definition broken_pipe : Progress.t → outcome unit :=
  λ _, Raise (Exn "BrokenPipeError" "Broken pipe").

Definition sample_strftime : Z → string := λ _, "20240101_000000".

(** ** cache/prompt_cache.py: sweep, tags, clearing, statistics *)

(** [expires_at IS NOT NULL AND expires_at < now]: the ISO texts the table
    holds order as their datetimes do. *)
Definition expired_at (t : Z) (r : Row) : bool :=
  match expires_at r with
  | Some e => bool_decide (e < t)
  | None => false
  end.

(** [for key in keys: if self._remove_entry(key): removed_count += 1] *)
Fixpoint remove_each (keys : list string) (removed_count : Z) : E Z :=
  match keys with
  | [] => mret removed_count
  | k :: rest =>
      ok ← _remove_entry k;
      remove_each rest (if ok : bool then removed_count + 1 else removed_count)
  end.

Definition _cleanup_expired : E Z :=
  t ← datetime_now;
  c ← read_cache;
  remove_each (map key (filter (λ r, expired_at t r = true) (entries c))) 0.

(** [PromptCache(settings, max_size_mb, default_ttl_hours)].  The table
    and the directory are what earlier runs left there: [CREATE TABLE IF
    NOT EXISTS] and [mkdir(exist_ok=True)] keep them.  The definition is
    of the calls for which [timedelta(hours=default_ttl_hours)] exists
    ([is_timedelta]); Python raises [OverflowError] for the others. *)
Definition PromptCache_init (max_size_mb default_ttl_hours : Z) : E unit :=
  modify_cache (λ c, mkCache (max_size_mb * 1024 * 1024) (hours default_ttl_hours)
                       (entries c) (files c));;
  _cleanup_expired;;
  mret ().

(** [any(tag in entry_tags for tag in tags)]; the guard [if row['tags']]
    before it holds of every row [set] writes, whose column is the JSON
    text of a list. *)
Definition shares_tag (wanted : list string) (r : Row) : bool :=
  existsb (λ tag, bool_decide (tag ∈ tags r)) wanted.

Definition find_by_tags (wanted : list string) : E (list string) :=
  c ← read_cache;
  mret (map key (filter (λ r, shares_tag wanted r = true) (entries c))).

Definition invalidate_by_tags (wanted : list string) : E Z :=
  matching_keys ← find_by_tags wanted;
  remove_each matching_keys 0.

(** [name] matches the glob [*.cache]. *)
Definition is_cache_file (name : string) : bool :=
  let n := String.length name in
  (6 <=? n)%nat && bool_decide (String.substring (n - 6) 6 name = ".cache").

Definition clear_all : E bool :=
  modify_cache (with_files (filter (λ entry, is_cache_file entry.1 = false)));;
  modify_cache (with_entries (λ _, []));;
  mret true.

(** The invariant of the store: one row per key, and every cache file
    belongs to a row. *)
Definition cache_consistent (c : PromptCache) : Prop :=
  NoDup (map key (entries c))
  ∧ ∀ k, is_Some (files c !! _get_file_path k) → is_Some (select_by_key k (entries c)).

(** Sizes are byte counts and add up to at most the budget. *)
Definition within_budget (c : PromptCache) : Prop :=
  Forall (λ r, 0 ≤ size_bytes r) (entries c)
  ∧ sum_size_bytes (entries c) ≤ max_size_bytes c.

(** [cache_consistent], but for the blob of [k], which is being written. *)
Definition consistent_but (k : string) (c : PromptCache) : Prop :=
  NoDup (map key (entries c))
  ∧ ∀ k', k' ≠ k → is_Some (files c !! _get_file_path k') →
          is_Some (select_by_key k' (entries c)).

(** Three tagged 400-byte entries; the first expired at 500. *)
Definition tagged_row (prompt : string) (expires : Z) (tags : list string) : Row :=
  mkRow (sample_key prompt) 0 (Some expires) 0 None 400 tags.

Definition world_tagged : World :=
  sample_world 1200
    [tagged_row "p1" 500 ["news"]; tagged_row "p2" (hours 24) ["news"; "sport"];
     tagged_row "p3" (hours 24) ["sport"]]
    [sample_blob "p1" old_payload; sample_blob "p2" old_payload; sample_blob "p3" old_payload]
    400 [].

(** A live entry whose cache file was cut short. *)
Definition world_truncated : World :=
  sample_world 1200 [sample_row "p1" (hours 24) 0 None 400]
    [(_get_file_path (sample_key "p1"), Truncated)] 400 [].


(** [m] leaves the cache, and the I/O failures still to come, as they are. *)
Definition keeps_cache {A} (m : E A) : Prop :=
  ∀ w, cache (m w).2 = cache w ∧ pending_faults (m w).2 = pending_faults w.

(** ** The file loaders of [BatchProcessor]

    [process_from_csv] and [process_from_json] build the list
    [batch_items] from the rows [csv.DictReader] yields, or from the value
    [json.load] returns, and hand it to [process_batch].  The definitions
    below are the loops that build the list. *)

(** A [BatchItem] as the loaders construct it: the fields hold whatever
    the file held.  [__post_init__] replaces a [None] metadata by [{}]. *)
Module RawItem.
Record t := mk {
  id : pyval;
  prompt : pyval;
  target_llm : pyval;
  optimization_type : pyval;
  metadata : pyval
}.

Definition init (id prompt target_llm optimization_type metadata : pyval) : t :=
  mk id prompt target_llm optimization_type
     (match metadata with PyNone => PyDict [] | _ => metadata end).
End RawItem.

Definition type_name (v : pyval) : string :=
  match v with
  | PyNone => "NoneType"
  | PyBool _ => "bool"
  | PyInt _ => "int"
  | PyStr _ => "str"
  | PyList _ => "list"
  | PyDict _ => "dict"
  end.

Section Loaders.

(** [str.strip()] and [str(x)] *)
Variable strip : string → string.
Variable str : pyval → string.

(** [v.strip()]: only a [str] has the method. *)
Definition call_strip (v : pyval) : outcome string :=
  match v with
  | PyStr s => Ok (strip s)
  | _ => Raise (Exn "AttributeError"
                  ("'" +:+ type_name v +:+ "' object has no attribute 'strip'"))
  end.

(** The body of the loop over [enumerate(reader)]: the item the row
    gives, or [None] when the row is skipped.  A row is a dict from field
    names to strings, or to [None] for the fields a short line lacks. *)
Definition csv_row_item (prompt_column target_llm_column : string)
    (id_column : option string) (i : nat) (row : pydict) : E (option RawItem.t) :=
  let default_id := PyStr ("csv_row_" +:+ pretty i) in
  let item_id := match id_column with
                 | Some (String _ _ as column) => dict_get row column default_id
                 | _ => default_id
                 end in
  prompt ← lift_outcome (call_strip (dict_get row prompt_column (PyStr "")));
  target_llm ← lift_outcome (call_strip (dict_get row target_llm_column (PyStr "universal")));
  match prompt with
  | "" => mret None
  | _ =>
      let excluded := [prompt_column; target_llm_column]
                      ++ match id_column with Some column => [column] | None => [] end in
      let metadata := filter (λ kv, kv.1 ∉ excluded) row in
      mret (Some (RawItem.init item_id (PyStr prompt) (PyStr target_llm) (PyStr "default")
                    (PyDict metadata)))
  end.

Fixpoint csv_rows (prompt_column target_llm_column : string) (id_column : option string)
    (i : nat) (reader : list pydict) (batch_items : list RawItem.t)
    : E (list RawItem.t) :=
  match reader with
  | [] => mret batch_items
  | row :: rest =>
      item ← csv_row_item prompt_column target_llm_column id_column i row;
      csv_rows prompt_column target_llm_column id_column (S i) rest
        (match item with Some it => batch_items ++ [it] | None => batch_items end)
  end.

(** [batch_items] as [process_from_csv] passes it to [process_batch]; the
    [except] clause logs and raises again. *)
Definition csv_batch_items (reader : list pydict) (prompt_column target_llm_column : string)
    (id_column : option string) : E (list RawItem.t) :=
  csv_rows prompt_column target_llm_column id_column 0 reader [].

(** The item built from element [i] of a JSON list. *)
Definition json_list_item (i : nat) (item : pyval) : RawItem.t :=
  match item with
  | PyDict d =>
      RawItem.init (dict_get d "id" (PyStr ("json_item_" +:+ pretty i)))
        (dict_get d "prompt" (PyStr "")) (dict_get d "target_llm" (PyStr "universal"))
        (dict_get d "optimization_type" (PyStr "default")) (dict_get d "metadata" (PyDict []))
  | _ =>
      RawItem.init (PyStr ("json_item_" +:+ pretty i)) (PyStr (str item))
        (PyStr "universal") (PyStr "default") PyNone
  end.

Fixpoint json_list_items (i : nat) (data : list pyval) (batch_items : list RawItem.t)
    : list RawItem.t :=
  match data with
  | [] => batch_items
  | item :: rest => json_list_items (S i) rest (batch_items ++ [json_list_item i item])
  end.

(** [batch_items] as [process_from_json] passes it to [process_batch].
    The class has no method [process_from_json_list]. *)
Definition json_batch_items (data : pyval) : E (list RawItem.t) :=
  match data with
  | PyList l => mret (json_list_items 0 l [])
  | PyDict d =>
      match dict_lookup d "prompts" with
      | Some (PyList _) =>
          raise (Exn "AttributeError"
                   "'BatchProcessor' object has no attribute 'process_from_json_list'")
      | _ =>
          mret [RawItem.init (dict_get d "id" (PyStr "json_single"))
                  (dict_get d "prompt" (PyStr "")) (dict_get d "target_llm" (PyStr "universal"))
                  (dict_get d "optimization_type" (PyStr "default"))
                  (dict_get d "metadata" (PyDict []))]
      end
  | _ => mret []
  end.

End Loaders.

(** The indices, counted from [i], of the rows that lead to an item. *)
Fixpoint kept_rows (strip : string → string) (prompt_column : string) (i : nat)
    (reader : list pydict) : list nat :=
  match reader with
  | [] => []
  | row :: rest =>
      match dict_get row prompt_column (PyStr "") with
      | PyStr s => if bool_decide (strip s = "") then kept_rows strip prompt_column (S i) rest
                   else i :: kept_rows strip prompt_column (S i) rest
      | _ => kept_rows strip prompt_column (S i) rest
      end
  end.

(** Every value the row holds in one of the two columns is a string. *)
Definition row_complete (prompt_column target_llm_column : string) (row : pydict) : Prop :=
  ∀ column v, column ∈ [prompt_column; target_llm_column] →
              dict_lookup row column = Some v → ∃ s, v = PyStr s.

(** Three lines of a file with the columns [prompt] and [target_llm]; the
    second has a blank prompt. *)
Definition sample_reader : list pydict :=
  [[("prompt", PyStr "first"); ("target_llm", PyStr "claude")];
   [("prompt", PyStr ""); ("target_llm", PyStr "claude")];
   [("prompt", PyStr "third"); ("target_llm", PyStr "gemini")]].

(** The same file with a last line that has one field only. *)
Definition short_reader : list pydict :=
  sample_reader ++ [[("prompt", PyStr "fourth"); ("target_llm", PyNone)]].

(** ** [PromptCache.get_stats] *)

(** [SUM(column)] and [AVG(column)]: NULL over no rows. *)
Definition sql_sum (xs : list Z) : option Z :=
  match xs with
  | [] => None
  | _ => Some (foldr Z.add 0 xs)
  end.

Definition sql_avg (xs : list Z) : option Q :=
  match xs with
  | [] => None
  | _ => Some (inject_Z (foldr Z.add 0%Z xs) / inject_Z (Z.of_nat (length xs)))%Q
  end.

(** [tag_stats[tag] = tag_stats.get(tag, 0) + 1], the dict being its
    items in insertion order. *)
Fixpoint count_tag (tag : string) (tag_stats : list (string * Z)) : list (string * Z) :=
  match tag_stats with
  | [] => [(tag, 1)]
  | (t, n) :: rest =>
      if bool_decide (t = tag) then (t, n + 1) :: rest else (t, n) :: count_tag tag rest
  end.

(** [tag_stats.get(tag, 0)] *)
Fixpoint stats_get (tag_stats : list (string * Z)) (tag : string) : Z :=
  match tag_stats with
  | [] => 0
  | (t, n) :: rest => if bool_decide (t = tag) then n else stats_get rest tag
  end.

(** The two loops over the [tags] column. *)
Definition tag_distribution (rows : list Row) : list (string * Z) :=
  foldl (λ tag_stats row, foldl (λ tag_stats tag, count_tag tag tag_stats) tag_stats (tags row))
    [] rows.

(** [ORDER BY access_count DESC] *)
Definition more_accessed_leb (r1 r2 : Row) : bool :=
  bool_decide (access_count r2 ≤ access_count r1).

(** [min(a, b)] on numbers: [b] only when it is smaller. *)
Definition py_min (a b : Q) : Q := if Qle_bool a b then a else b.

Module Stats.
Record t := mk {
  total_entries : Z;
  total_size_mb : Q;
  total_accesses : option Z;
  avg_accesses : Q;
  hit_ratio : Q;
  tag_distribution : list (string * Z);
  top_entries : list (string * Z);
  max_size_mb : Q;
  utilization_percent : Q
}.
End Stats.

Definition _calculate_hit_ratio : E Q :=
  try_except
    (c ← read_cache;
     let avg_access := default 0%Q (sql_avg (map access_count (entries c))) in
     mret (py_min (95 # 100) (avg_access * (1 # 10))%Q))
    (λ _, mret 0%Q).

(** The dict [get_stats] returns: the statistics, or [{'error': str(e)}]. *)
Definition get_stats : E (Stats.t + string) :=
  try_except
    (c ← read_cache;
     let rows := entries c in
     let total_size_bytes := default 0 (sql_sum (map size_bytes rows)) in
     let tag_stats := tag_distribution rows in
     let top := take 5 (order_by more_accessed_leb rows) in
     hit_ratio ← _calculate_hit_ratio;
     used ← lift_outcome (truediv (inject_Z total_size_bytes)
                            (inject_Z (max_size_bytes c)));
     mret (inl (Stats.mk
                  (Z.of_nat (length rows))
                  (round (inject_Z total_size_bytes / 1024 / 1024)%Q 2)
                  (sql_sum (map access_count rows))
                  (round (default 0%Q (sql_avg (map access_count rows))) 2)
                  hit_ratio
                  tag_stats
                  (map (λ row, (String.substring 0 12 (key row) +:+ "...", access_count row))
                     top)
                  (round (inject_Z (max_size_bytes c) / 1024 / 1024)%Q 2)
                  (round (used * 100)%Q 2))))
    (λ e, mret (inr (exn_text e))).
(** * Properties *)

(** ** SHA-256 test vectors (FIPS 180-4, appendix B) *)

Example sha256_abc :
  sha256_hexdigest "abc"
  = "ba7816bf8f01cfea414140de5dae2223b00361a396177a9cb410ff61f20015ad".
Proof. vm_compute. reflexivity. Qed.

Example sha256_empty :
  sha256_hexdigest ""
  = "e3b0c44298fc1c149afbf4c8996fb92427ae41e4649b934ca495991b7852b855".
Proof. vm_compute. reflexivity. Qed.

Example sha256_two_blocks :
  sha256_hexdigest "abcdbcdecdefdefgefghfghighijhijkijkljklmklmnlmnomnopnopq"
  = "248d6a61d20638b8e5c026930c3e6039a33ce45964ff2167f6ecedd419db06c1".
Proof. vm_compute. reflexivity. Qed.


(** ** The cache key *)

Lemma hexdigit_in x : In (Sha256.hexdigit x) Sha256.hex_alphabet.
Proof.
  unfold Sha256.hexdigit. apply nth_In.
  change (length Sha256.hex_alphabet) with 16%nat.
  pose proof (Z.mod_pos_bound x 16 ltac:(lia)). lia.
Qed.

Lemma hex32_hex x tail : hex_string tail → hex_string (Sha256.hex32 x tail).
Proof.
  intros H. unfold hex_string, Sha256.hex32. simpl.
  repeat (constructor; [apply hexdigit_in|]). exact H.
Qed.

Lemma hexdigest_length msg : String.length (Sha256.hexdigest msg) = 64%nat.
Proof. reflexivity. Qed.

Lemma hexdigest_hex msg : hex_string (Sha256.hexdigest msg).
Proof.
  unfold Sha256.hexdigest. repeat apply hex32_hex. constructor.
Qed.

(** The cache key is the SHA-256 digest of the string
    [prompt|target_llm|optimization_type], written as 64 lower-case
    hexadecimal digits. *)
Lemma generate_key_digest prompt target_llm optimization_type :
  let k := _generate_key prompt target_llm optimization_type in
  String.length k = 64%nat
  ∧ hex_string k
  ∧ k = sha256_hexdigest (prompt +:+ "|" +:+ target_llm +:+ "|" +:+ optimization_type).
Proof.
  cbv zeta. split; [apply hexdigest_length|]. split; [apply hexdigest_hex|reflexivity].
Qed.

(** Two different triples with one key: the separator also occurs inside
    the components. *)
Lemma generate_key_collision :
  ("a|b", "c", "d") ≠ ("a", "b|c", "d")
  ∧ _generate_key "a|b" "c" "d" = _generate_key "a" "b|c" "d".
Proof. split; [discriminate | reflexivity]. Qed.

(** ** Running the monad *)

Lemma bind_run {A B} (m : E A) (f : A → E B) (w : World) :
  (m ≫= f) w = match m w with
               | (Ok a, w') => f a w'
               | (Raise e, w') => (Raise e, w')
               end.
Proof. reflexivity. Qed.

Lemma ret_run {A} (a : A) (w : World) : (mret a : E A) w = (Ok a, w).
Proof. reflexivity. Qed.

Ltac run :=
  repeat first
    [ rewrite bind_run
    | rewrite ret_run
    | progress cbn -[remove_all] ].

Lemma select_delete_by_key k rows : select_by_key k (delete_by_key k rows) = None.
Proof.
  unfold select_by_key, delete_by_key.
  induction rows as [|r rows IH]; [reflexivity|].
  rewrite filter_cons. destruct (decide (key r ≠ k)) as [Hne|Heq]; [|exact IH].
  simpl. rewrite bool_decide_eq_false_2 by exact Hne. exact IH.
Qed.

(** C7.  When the clock reads past a non-null [expires_at], [get] misses
    and has deleted both the metadata row and the blob by the time it
    returns.  A row whose [expires_at] is null is served whatever the
    clock reads. *)
Theorem get_ttl_expiry (w : World) (prompt target_llm optimization_type : string) (row : Row) :
  let k := _generate_key prompt target_llm optimization_type in
  select_by_key k (entries (cache w)) = Some row →
  (∀ e, expires_at row = Some e → e < clock w (tick w) →
     ∃ w', get prompt target_llm optimization_type w = (Ok None, w')
           ∧ select_by_key k (entries (cache w')) = None
           ∧ files (cache w') !! _get_file_path k = None)
  ∧ (expires_at row = None →
     ∀ d, files (cache w) !! _get_file_path k = Some (Pickled d) →
          ∃ w', get prompt target_llm optimization_type w = (Ok (Some d), w')).
Proof.
  intros k Hrow. split.
  - intros e He Hlt. eexists. unfold get. fold k.
    rewrite bind_run. simpl. rewrite Hrow, He.
    repeat (rewrite bind_run; simpl).
    rewrite bool_decide_eq_true_2 by exact Hlt.
    repeat (rewrite bind_run; simpl).
    split; [reflexivity|]. simpl. split.
    + apply select_delete_by_key.
    + apply lookup_delete_eq.
  - intros He d Hfile. eexists. unfold get. fold k.
    rewrite bind_run. simpl. rewrite Hrow, He.
    repeat (rewrite bind_run; simpl).
    rewrite Hfile. reflexivity.
Qed.

(** ** Capacity eviction *)

Lemma evict_loop_run rows needed freed removed w :
  let vs := victims rows needed freed in
  evict_loop rows needed freed removed w
  = (Ok (removed + Z.of_nat (length vs), freed + sum_size_bytes vs),
     with_cache (remove_all vs) w).
Proof.
  revert freed removed w. induction rows as [|row rest IH]; intros freed removed w; cbn.
  - rewrite ret_run, !Z.add_0_r. destruct w; reflexivity.
  - case_bool_decide; cbn.
    + rewrite ret_run, !Z.add_0_r. destruct w; reflexivity.
    + run. rewrite IH. cbn -[Z.of_nat].
      match goal with |- (Ok (?a, ?b), ?w1) = (Ok (?a', ?b'), ?w2) =>
        replace a with a' by lia;
        replace b with b' by lia;
        replace w1 with w2 by (destruct w; reflexivity)
      end. reflexivity.
Qed.

Lemma victims_prefix rows needed freed :
  ∃ n, victims rows needed freed = take n rows
       ∧ (n ≤ length rows)%nat
       ∧ (∀ m, (m < n)%nat → freed + sum_size_bytes (take m rows) < needed)
       ∧ (n = length rows ∨ needed ≤ freed + sum_size_bytes (take n rows)).
Proof.
  revert freed. induction rows as [|row rest IH]; intros freed; simpl.
  - exists 0%nat. repeat split; [lia| intros; lia | left; reflexivity].
  - destruct (decide (needed ≤ freed)) as [Hge|Hlt].
    + rewrite bool_decide_eq_true_2 by exact Hge.
      exists 0%nat. simpl. repeat split; [lia | intros; lia | right; lia].
    + rewrite bool_decide_eq_false_2 by exact Hlt.
      destruct (IH (freed + size_bytes row)) as (n & Hv & Hn & Hm & Hstop).
      exists (S n). simpl. rewrite Hv. repeat split.
      * lia.
      * intros [|m] Hlt'; simpl; [lia|]. specialize (Hm m ltac:(lia)). lia.
      * destruct Hstop as [->|Hs]; [left; reflexivity | right; lia].
Qed.

Lemma filter_all {A} (P : A → Prop) `{!∀ x, Decision (P x)} (l : list A) :
  (∀ x, P x) → filter P l = l.
Proof.
  intros HP. induction l as [|x l IH]; [reflexivity|].
  rewrite filter_cons_True by apply HP. by rewrite IH.
Qed.

Lemma entries_remove_all vs c :
  entries (remove_all vs c) = filter (λ r, key r ∉ map key vs) (entries c).
Proof.
  revert c. induction vs as [|v vs IH]; intros c; simpl.
  - symmetry. apply filter_all. intros r. apply not_elem_of_nil.
  - unfold remove_all in *. simpl. rewrite IH. simpl.
    unfold delete_by_key. rewrite list_filter_filter.
    apply list_filter_iff. intros r. rewrite elem_of_cons. tauto.
Qed.

Lemma max_size_remove_all vs c : max_size_bytes (remove_all vs c) = max_size_bytes c.
Proof.
  revert c. induction vs as [|v vs IH]; intros c; [reflexivity|].
  unfold remove_all in *. simpl. by rewrite IH.
Qed.

Lemma set_nofault_run w prompt target_llm data optimization_type ttl_hours tags :
  hd NoFault (pending_faults w) = NoFault →
  let k := _generate_key prompt target_llm optimization_type in
  let t := clock w (tick w) in
  set prompt target_llm data optimization_type ttl_hours tags w
  = (Ok true,
     mkWorld (clock w) (pickled_size w) (tl (pending_faults w)) (S (tick w))
       (cache_after_set (cache w) k data t (expiry (cache w) t ttl_hours)
          (pickled_size w data) tags)
       (calls w)).
Proof.
  intros Hf k t. unfold set. fold k. run. rewrite Hf. run.
  unfold cache_after_set, expiry.
  case_bool_decide; run.
  - unfold _cleanup_by_size. run. rewrite evict_loop_run. run.
    destruct ttl_hours; reflexivity.
  - destruct ttl_hours; reflexivity.
Qed.

#[global] Instance lru_le_total : Total lru_le.
Proof.
  intros r1 r2. unfold lru_le, lru_leb, null_first_leb.
  destruct (last_accessed r1) as [a|], (last_accessed r2) as [b|];
    repeat case_bool_decide; simpl; auto; lia.
Qed.

#[global] Instance lru_le_trans : Transitive lru_le.
Proof.
  intros r1 r2 r3. unfold lru_le, lru_leb, null_first_leb.
  destruct (last_accessed r1) as [a|], (last_accessed r2) as [b|],
    (last_accessed r3) as [c|];
    repeat case_bool_decide; simpl; auto; try lia; discriminate.
Qed.

Section OrderBy.

Variable leb : Row → Row → bool.
Hypothesis Htotal : ∀ r1 r2, leb r1 r2 = true ∨ leb r2 r1 = true.
Hypothesis Htrans : ∀ r1 r2 r3, leb r1 r2 = true → leb r2 r3 = true → leb r1 r3 = true.

Lemma insert_by_perm r sorted : insert_by leb r sorted ≡ₚ r :: sorted.
Proof.
  induction sorted as [|x rest IH]; [reflexivity|]. cbn.
  destruct (leb r x); [reflexivity|]. rewrite IH. apply perm_swap.
Qed.

Lemma order_by_perm rows : order_by leb rows ≡ₚ rows.
Proof.
  induction rows as [|r rows IH]; [reflexivity|]. cbn.
  fold (order_by leb rows). by rewrite insert_by_perm, IH.
Qed.

Lemma insert_by_sorted r sorted :
  StronglySorted (λ r1 r2, leb r1 r2 = true) sorted →
  StronglySorted (λ r1 r2, leb r1 r2 = true) (insert_by leb r sorted).
Proof.
  induction 1 as [|x rest Hrest IH Hx]; cbn; [repeat constructor|].
  destruct (leb r x) eqn:Hrx.
  - constructor; [by constructor|]. constructor; [exact Hrx|].
    eapply Forall_impl; [exact Hx|]. intros y Hy. by apply (Htrans r x y).
  - constructor; [exact IH|]. rewrite insert_by_perm. constructor; [|exact Hx].
    destruct (Htotal r x) as [Hle|Hle]; [congruence | exact Hle].
Qed.

Lemma order_by_sorted rows :
  StronglySorted (λ r1 r2, leb r1 r2 = true) (order_by leb rows).
Proof.
  induction rows as [|r rows IH]; [constructor|]. cbn.
  fold (order_by leb rows). by apply insert_by_sorted.
Qed.

(** Rows that tie keep the order they have in the table. *)
Lemma insert_by_stable r0 r sorted :
  filter (λ x, leb x r0 = true ∧ leb r0 x = true) (insert_by leb r sorted)
  = filter (λ x, leb x r0 = true ∧ leb r0 x = true) (r :: sorted).
Proof.
  induction sorted as [|x rest IH]; [reflexivity|]. cbn [insert_by].
  destruct (leb r x) eqn:Hrx; [reflexivity|].
  rewrite (filter_cons _ x), IH, !(filter_cons _ r), (filter_cons _ x).
  destruct (decide (leb r r0 = true ∧ leb r0 r = true)) as [[Hr Hr0]|Hr]; [|reflexivity].
  destruct (decide (leb x r0 = true ∧ leb r0 x = true)) as [[Hx Hx0]|Hx]; [|reflexivity].
  pose proof (Htrans r r0 x Hr Hx0). congruence.
Qed.

Lemma order_by_stable r0 rows :
  filter (λ x, leb x r0 = true ∧ leb r0 x = true) (order_by leb rows)
  = filter (λ x, leb x r0 = true ∧ leb r0 x = true) rows.
Proof.
  induction rows as [|r rows IH]; [reflexivity|]. cbn [order_by foldr].
  fold (order_by leb rows). by rewrite insert_by_stable, !(filter_cons _ r), IH.
Qed.

(** The first row of the order is the first row of the table that no
    row of the table comes strictly before. *)
Lemma order_by_head a rest rows :
  order_by leb rows = a :: rest →
  ∃ l1 l2, rows = l1 ++ a :: l2 ∧ Forall (λ r, leb r a ≠ true) l1.
Proof.
  revert a rest. induction rows as [|r rows IH]; intros a rest; [discriminate|].
  cbn [order_by foldr]. fold (order_by leb rows).
  destruct (order_by leb rows) as [|x sorted] eqn:Hord; cbn.
  - intros [= <- <-]. exists [], rows. by split.
  - destruct (leb r x) eqn:Hrx.
    + intros [= <- <-]. exists [], rows. by split.
    + intros [= <- <-]. destruct (IH x sorted eq_refl) as (l1 & l2 & -> & Hl1).
      exists (r :: l1), l2. split; [reflexivity|]. constructor; [congruence | exact Hl1].
Qed.

End OrderBy.

Lemma lru_order_sorted rows : StronglySorted lru_le (lru_order rows).
Proof. apply order_by_sorted; [apply lru_le_total | apply lru_le_trans]. Qed.

Lemma lru_order_perm rows : lru_order rows ≡ₚ rows.
Proof. apply order_by_perm. Qed.

Lemma lru_order_stable r0 rows :
  filter (λ r, lru_le r r0 ∧ lru_le r0 r) (lru_order rows)
  = filter (λ r, lru_le r r0 ∧ lru_le r0 r) rows.
Proof. apply order_by_stable, lru_le_trans. Qed.

#[global] Instance sum_size_bytes_perm : Proper ((≡ₚ) ==> (=)) sum_size_bytes.
Proof.
  intros l1 l2 Hp. induction Hp; simpl; lia.
Qed.

Lemma sum_size_bytes_app l1 l2 :
  sum_size_bytes (l1 ++ l2) = sum_size_bytes l1 + sum_size_bytes l2.
Proof. induction l1 as [|r l1 IH]; simpl; lia. Qed.

Lemma sum_size_bytes_filter (P : Row → Prop) `{!∀ r, Decision (P r)} rows :
  Forall (λ r, 0 ≤ size_bytes r) rows →
  0 ≤ sum_size_bytes (filter P rows) ≤ sum_size_bytes rows.
Proof.
  induction 1 as [|r rows Hr _ IH]; simpl; [lia|].
  rewrite filter_cons. destruct (decide (P r)); simpl; lia.
Qed.

Lemma filter_victims_nil (vs : list Row) :
  filter (λ r, key r ∉ map key vs) vs = [].
Proof.
  assert (∀ l : list Row, (∀ r, r ∈ l → key r ∈ map key vs)
                          → filter (λ r, key r ∉ map key vs) l = []) as H.
  { induction l as [|r l IH]; intros Hin; [reflexivity|].
    rewrite filter_cons_False.
    - apply IH. intros r' Hr'. apply Hin. by right.
    - intros Hn. apply Hn, Hin. by left. }
  apply H. intros r Hr. apply list_elem_of_In, in_map, list_elem_of_In, Hr.
Qed.

Lemma sum_after_eviction (vs rest rows : list Row) :
  vs ++ rest ≡ₚ rows →
  Forall (λ r, 0 ≤ size_bytes r) rows →
  0 ≤ sum_size_bytes (filter (λ r, key r ∉ map key vs) rows)
    ≤ sum_size_bytes rows - sum_size_bytes vs.
Proof.
  intros Hp Hnn. rewrite <- Hp in Hnn |- *.
  rewrite filter_app, filter_victims_nil, !sum_size_bytes_app. simpl.
  apply Forall_app in Hnn as [_ Hrest].
  pose proof (sum_size_bytes_filter (λ r, key r ∉ map key vs) rest Hrest). lia.
Qed.

Lemma sum_insert_or_replace row rows :
  Forall (λ r, 0 ≤ size_bytes r) rows →
  sum_size_bytes (insert_or_replace row rows) ≤ sum_size_bytes rows + size_bytes row.
Proof.
  intros Hnn. unfold insert_or_replace, delete_by_key.
  rewrite sum_size_bytes_app. simpl.
  pose proof (sum_size_bytes_filter (λ r, key r ≠ key row) rows Hnn). lia.
Qed.

Lemma entries_cache_after_set c k data t expires size tags :
  entries (cache_after_set c k data t expires size tags)
  = insert_or_replace (mkRow k t (Some expires) 0 None size tags)
      (if bool_decide (max_size_bytes c < sum_size_bytes (entries c) + size)
       then filter (λ r, key r ∉ map key (victims (lru_order (entries c)) size 0))
              (entries c)
       else entries c).
Proof.
  unfold cache_after_set. case_bool_decide; [|reflexivity].
  cbn [entries with_entries]. by rewrite entries_remove_all.
Qed.

(** What a put that overflows the budget evicts, and what it leaves. *)
Lemma set_evicts_lru_prefix w prompt target_llm data optimization_type ttl_hours tags :
  let c := cache w in
  let size := pickled_size w data in
  let order := lru_order (entries c) in
  let t := clock w (tick w) in
  let new_row := mkRow (_generate_key prompt target_llm optimization_type) t
                   (Some (expiry c t ttl_hours)) 0 None size tags in
  hd NoFault (pending_faults w) = NoFault →
  max_size_bytes c < sum_size_bytes (entries c) + size →
  ∃ (n : nat) (w' : World),
    set prompt target_llm data optimization_type ttl_hours tags w = (Ok true, w')
    ∧ StronglySorted lru_le order ∧ order ≡ₚ entries c
    ∧ (n ≤ length order)%nat
    ∧ (∀ m, (m < n)%nat → sum_size_bytes (take m order) < size)
    ∧ (n = length order ∨ size ≤ sum_size_bytes (take n order))
    ∧ entries (cache w')
      = insert_or_replace new_row
          (filter (λ r, key r ∉ map key (take n order)) (entries c))
    ∧ (Forall (λ r, 0 ≤ size_bytes r) (entries c) →
       sum_size_bytes (entries c) ≤ max_size_bytes c →
       size ≤ max_size_bytes c →
       sum_size_bytes (entries (cache w')) ≤ max_size_bytes c).
Proof.
  intros c size order t new_row Hf Hover.
  destruct (victims_prefix order size 0) as (n & Hv & Hn & Hmin & Hstop).
  exists n. eexists. split; [apply set_nofault_run; exact Hf|].
  cbn [cache]. rewrite entries_cache_after_set. fold c size order t.
  rewrite bool_decide_eq_true_2 by exact Hover.
  rewrite Hv. fold new_row.
  split; [apply lru_order_sorted|]. split; [apply lru_order_perm|].
  split; [exact Hn|].
  split; [intros m Hm; specialize (Hmin m Hm); lia|].
  split; [destruct Hstop; [left; assumption | right; lia]|].
  split; [reflexivity|].
  intros Hnn Htot Hsize.
  assert (take n order ++ drop n order ≡ₚ entries c) as Hp
    by (rewrite take_drop; apply lru_order_perm).
  pose proof (sum_after_eviction _ _ _ Hp Hnn) as Hsum.
  set (kept := filter (λ r, key r ∉ map key (take n order)) (entries c)) in *.
  assert (Forall (λ r, 0 ≤ size_bytes r) kept) as Hkept.
  { apply Forall_forall. intros r [_ Hr]%list_elem_of_filter.
    revert r Hr. apply Forall_forall, Hnn. }
  pose proof (sum_insert_or_replace new_row kept Hkept) as Hins. simpl in Hins.
  destruct Hstop as [Hall|Hfreed].
  - assert (sum_size_bytes order = sum_size_bytes (entries c)) as Hall'
      by apply sum_size_bytes_perm, lru_order_perm.
    rewrite Hall, firstn_all in Hsum. lia.
  - lia.
Qed.

Lemma select_by_key_None k rows :
  select_by_key k rows = None ↔ ∀ r, r ∈ rows → key r ≠ k.
Proof.
  unfold select_by_key. induction rows as [|r rows IH]; simpl.
  - split; [intros _ r Hr; by apply elem_of_nil in Hr | done].
  - case_bool_decide as Hk.
    + split; [discriminate|]. intros H. destruct (H r); [by left | exact Hk].
    + rewrite IH. split.
      * intros H r' [->|Hr']%elem_of_cons; [exact Hk | by apply H].
      * intros H r' Hr'. apply H. by right.
Qed.

Lemma delete_by_key_absent k rows :
  (∀ r, r ∈ rows → key r ≠ k) → delete_by_key k rows = rows.
Proof.
  intros H. unfold delete_by_key. induction rows as [|r rows IH]; [reflexivity|].
  rewrite filter_cons_True by (apply H; by left).
  f_equal. apply IH. intros r' Hr'. apply H. by right.
Qed.

(** The scenario of the specification: budget 1200, three 400-byte
    entries, a fourth 400-byte entry under a new key. *)
Lemma set_fourth_entry w prompt target_llm data optimization_type ttl_hours tags r1 r2 r3 :
  let c := cache w in
  let t := clock w (tick w) in
  let k := _generate_key prompt target_llm optimization_type in
  let new_row := mkRow k t (Some (expiry c t ttl_hours)) 0 None 400 tags in
  entries c = [r1; r2; r3] →
  NoDup (map key [r1; r2; r3]) →
  size_bytes r1 = 400 → size_bytes r2 = 400 → size_bytes r3 = 400 →
  max_size_bytes c = 1200 →
  pickled_size w data = 400 →
  select_by_key k (entries c) = None →
  hd NoFault (pending_faults w) = NoFault →
  ∃ (victim : Row) (w' : World),
    set prompt target_llm data optimization_type ttl_hours tags w = (Ok true, w')
    ∧ victim ∈ entries c
    ∧ (∀ r, r ∈ entries c → lru_le victim r)
    ∧ (∃ l1 l2, entries c = l1 ++ victim :: l2 ∧ Forall (λ r, ¬ lru_le r victim) l1)
    ∧ entries (cache w') = filter (λ r, key r ≠ key victim) (entries c) ++ [new_row]
    ∧ length (entries (cache w')) = 3%nat
    ∧ sum_size_bytes (entries (cache w')) ≤ 1200.
Proof.
  intros c t k new_row Hrows Hnd H1 H2 H3 Hmax Hsize Hnew Hf.
  destruct (set_evicts_lru_prefix w prompt target_llm data optimization_type ttl_hours tags Hf)
    as (n & w' & Hset & Hsorted & Hperm & Hn & Hmin & Hstop & Hentries & _).
  { fold c. rewrite Hmax, Hsize, Hrows. simpl. lia. }
  fold c t k in Hsorted, Hperm, Hn, Hmin, Hstop, Hentries.
  rewrite Hsize in Hmin, Hstop, Hentries. fold new_row in Hentries.
  remember (lru_order (entries c)) as order eqn:Horder.
  assert (Forall (λ r, size_bytes r = 400) order) as Hall.
  { rewrite Hperm, Hrows. repeat constructor; assumption. }
  assert (NoDup (map key order)) as Hnd'.
  { rewrite Hperm, Hrows. exact Hnd. }
  pose proof (Permutation_length Hperm) as Hlen. rewrite Hrows in Hlen.
  destruct order as [|a [|b [|d [|]]]]; try discriminate Hlen. clear Hlen.
  apply Forall_cons in Hall as [Ha Hall]. apply Forall_cons in Hall as [Hb Hall].
  apply Forall_cons in Hall as [Hd _].
  assert (n = 1%nat) as ->.
  { destruct n as [|[|n]]; [|reflexivity|].
    - simpl in Hstop. destruct Hstop as [Hs|Hs]; [discriminate Hs | lia].
    - specialize (Hmin 1%nat ltac:(lia)). simpl in Hmin. lia. }
  simpl in Hentries.
  assert (key b ≠ key a ∧ key d ≠ key a ∧ key b ≠ key d) as (Hba & Hda & Hbd).
  { simpl in Hnd'. apply NoDup_cons in Hnd' as [Ha' Hnd']. apply NoDup_cons in Hnd' as [Hb' _].
    rewrite !elem_of_cons in Ha'. rewrite elem_of_cons in Hb'.
    split; [intros E; apply Ha'; left; by symmetry|].
    split; [intros E; apply Ha'; right; left; by symmetry|].
    intros E; apply Hb'; by left. }
  assert (filter (λ r, key r ≠ key a) (entries c) ≡ₚ [b; d]) as Hkept.
  { rewrite <- Hperm. rewrite filter_cons_False by tauto.
    rewrite filter_cons_True by exact Hba. rewrite filter_cons_True by exact Hda.
    reflexivity. }
  assert (entries (cache w') = filter (λ r, key r ≠ key a) (entries c) ++ [new_row]) as Hfinal.
  { rewrite Hentries. unfold insert_or_replace.
    rewrite (list_filter_iff (λ r, key r ∉ [key a]) (λ r, key r ≠ key a))
      by (intros r; rewrite list_elem_of_singleton; tauto).
    rewrite delete_by_key_absent; [reflexivity|].
    intros r [_ Hr]%list_elem_of_filter. simpl.
    apply select_by_key_None with (r := r) in Hnew; assumption. }
  exists a, w'. split; [exact Hset|].
  split; [|split; [|split; [|split; [exact Hfinal|]]]].
  - rewrite <- Hperm. by left.
  - intros r Hr. rewrite <- Hperm in Hr.
    apply StronglySorted_inv in Hsorted as [_ Hle].
    apply elem_of_cons in Hr as [->|Hr].
    + destruct (lru_le_total a a); assumption.
    + revert r Hr. apply Forall_forall, Hle.
  - symmetry in Horder. exact (order_by_head lru_leb a _ _ Horder).
  - rewrite Hfinal, length_app, sum_size_bytes_app, Hkept. simpl. lia.
Qed.

(** C4 (amended).  A put whose expiry is a datetime and that would take
    the total size over the budget deletes a prefix of the rows in
    ascending [access_count], then [last_accessed], order, rows equal on
    both staying in the order of the table: the shortest prefix whose
    sizes add up to the size of the incoming entry, or every row; the put
    keeps the total within the budget when it was within it before and
    the entry itself fits.  With budget 1200 and three 400-byte entries, a
    fourth 400-byte entry evicts exactly the least-used one, the first of
    the table among several. *)
Theorem set_capacity_eviction :
  (∀ w prompt target_llm data optimization_type ttl_hours tags,
     let c := cache w in
     let size := pickled_size w data in
     let order := lru_order (entries c) in
     let t := clock w (tick w) in
     let new_row := mkRow (_generate_key prompt target_llm optimization_type) t
                      (Some (expiry c t ttl_hours)) 0 None size tags in
     hd NoFault (pending_faults w) = NoFault →
     expiry_representable c t ttl_hours →
     max_size_bytes c < sum_size_bytes (entries c) + size →
     ∃ (n : nat) (w' : World),
       set prompt target_llm data optimization_type ttl_hours tags w = (Ok true, w')
       ∧ StronglySorted lru_le order ∧ order ≡ₚ entries c
       ∧ (∀ r0, filter (λ r, lru_le r r0 ∧ lru_le r0 r) order
                = filter (λ r, lru_le r r0 ∧ lru_le r0 r) (entries c))
       ∧ (n ≤ length order)%nat
       ∧ (∀ m, (m < n)%nat → sum_size_bytes (take m order) < size)
       ∧ (n = length order ∨ size ≤ sum_size_bytes (take n order))
       ∧ entries (cache w')
         = insert_or_replace new_row
             (filter (λ r, key r ∉ map key (take n order)) (entries c))
       ∧ (Forall (λ r, 0 ≤ size_bytes r) (entries c) →
          sum_size_bytes (entries c) ≤ max_size_bytes c →
          size ≤ max_size_bytes c →
          sum_size_bytes (entries (cache w')) ≤ max_size_bytes c))
  ∧ (∀ w prompt target_llm data optimization_type ttl_hours tags r1 r2 r3,
     let c := cache w in
     let t := clock w (tick w) in
     let k := _generate_key prompt target_llm optimization_type in
     let new_row := mkRow k t (Some (expiry c t ttl_hours)) 0 None 400 tags in
     entries c = [r1; r2; r3] →
     NoDup (map key [r1; r2; r3]) →
     size_bytes r1 = 400 → size_bytes r2 = 400 → size_bytes r3 = 400 →
     max_size_bytes c = 1200 →
     pickled_size w data = 400 →
     select_by_key k (entries c) = None →
     hd NoFault (pending_faults w) = NoFault →
     expiry_representable c t ttl_hours →
     ∃ (victim : Row) (w' : World),
       set prompt target_llm data optimization_type ttl_hours tags w = (Ok true, w')
       ∧ victim ∈ entries c
       ∧ (∀ r, r ∈ entries c → lru_le victim r)
       ∧ (∃ l1 l2, entries c = l1 ++ victim :: l2 ∧ Forall (λ r, ¬ lru_le r victim) l1)
       ∧ entries (cache w') = filter (λ r, key r ≠ key victim) (entries c) ++ [new_row]
       ∧ length (entries (cache w')) = 3%nat
       ∧ sum_size_bytes (entries (cache w')) ≤ 1200).
Proof.
  split.
  - intros w prompt target_llm data optimization_type ttl_hours tags c size order t new_row
      Hf _ Hover.
    destruct (set_evicts_lru_prefix w prompt target_llm data optimization_type ttl_hours tags
                Hf Hover)
      as (n & w' & Hset & Hsorted & Hperm & Hrest).
    exists n, w'. split; [exact Hset|]. split; [exact Hsorted|]. split; [exact Hperm|].
    split; [intros r0; apply lru_order_stable | exact Hrest].
  - intros. eapply set_fourth_entry; eassumption.
Qed.

(** ** Failure of [set] *)

(** C5 (amended).  A [set] that meets an I/O failure after it started
    writing returns [False] and leaves no blob under the key, and it
    writes no metadata row: the table keeps the rows it had, less those
    the capacity cleanup evicted before the failure.  The blob of an entry
    that was being replaced is removed with the partial write, so that
    entry is not kept intact. *)
Theorem set_failure_removes_blob (w : World) (prompt target_llm : string) (data : pydict)
    (optimization_type : string) (ttl_hours : option Z) (tags : list string) :
  let k := _generate_key prompt target_llm optimization_type in
  hd NoFault (pending_faults w) ≠ NoFault →
  ∃ w', set prompt target_llm data optimization_type ttl_hours tags w = (Ok false, w')
        ∧ files (cache w') !! _get_file_path k = None
        ∧ (∀ r, r ∈ entries (cache w') → r ∈ entries (cache w))
        ∧ (hd NoFault (pending_faults w) ≠ InsertFails →
           entries (cache w') = entries (cache w)).
Proof.
  intros k Hf. unfold set. fold k. run.
  destruct (hd NoFault (pending_faults w)) eqn:Hfault; [done| | |]; run.
  - rewrite lookup_insert_eq, bool_decide_eq_true_2 by (by eexists). run.
    eexists. split; [reflexivity|]. cbn.
    split; [apply lookup_delete_eq|]. split; [tauto|reflexivity].
  - rewrite lookup_insert_eq, bool_decide_eq_true_2 by (by eexists). run.
    eexists. split; [reflexivity|]. cbn.
    split; [apply lookup_delete_eq|]. split; [tauto|reflexivity].
  - case_bool_decide as Hover; run.
    + unfold _cleanup_by_size. run. rewrite evict_loop_run. run.
      case_bool_decide as Hsome; run; (eexists; split; [reflexivity|]); cbn -[remove_all].
      * split; [apply lookup_delete_eq|]. split; [|done].
        intros r. rewrite entries_remove_all. cbn.
        by intros [_ ?]%list_elem_of_filter.
      * split; [by apply eq_None_not_Some|]. split; [|done].
        intros r. rewrite entries_remove_all. cbn.
        by intros [_ ?]%list_elem_of_filter.
    + rewrite lookup_insert_eq, bool_decide_eq_true_2 by (by eexists). run.
      eexists. split; [reflexivity|]. cbn.
      split; [apply lookup_delete_eq|]. split; [tauto|done].
Qed.

(** ** The examples, evaluated *)

(** C2.  Re-storing the one 800-byte entry of a 1200-byte cache: [set]
    returns [True], its capacity cleanup deletes the row of the same key
    together with the blob just written, and the [get] that follows, long
    before the hour is over, misses. *)
Theorem set_then_get_self_eviction :
  let w1 := (set "p1" "claude" new_payload "default" (Some 1) [] world_one_large).2 in
  (get "p1" "claude" "default" world_one_large).1 = Ok (Some old_payload)
  ∧ (set "p1" "claude" new_payload "default" (Some 1) [] world_one_large).1 = Ok true
  ∧ (expires_at <$> select_by_key (sample_key "p1") (entries (cache w1)))
    = Some (Some (1000 + hours 1))
  ∧ clock w1 (tick w1) = 1001
  ∧ files (cache w1) !! _get_file_path (sample_key "p1") = None
  ∧ (get "p1" "claude" "default" w1).1 = Ok None.
Proof. vm_compute. repeat split; reflexivity. Qed.

(** Five 200-byte entries in a 1200-byte cache and a 400-byte put: the
    put overflows the budget, deleting the first victim alone would make
    room, and the cleanup deletes two. *)
Lemma set_evicts_more_than_needed :
  let c := cache world_five_small in
  let w1 := (set "p6" "claude" new_payload "default" (Some 1) [] world_five_small).2 in
  let new_row := mkRow (sample_key "p6") 1000 (Some (1000 + hours 1)) 0 None 400 [] in
  max_size_bytes c < sum_size_bytes (entries c) + 400
  ∧ sum_size_bytes (insert_or_replace new_row (delete_by_key (sample_key "p1") (entries c)))
    ≤ max_size_bytes c
  ∧ map key (entries (cache w1))
    = [sample_key "p3"; sample_key "p4"; sample_key "p5"; sample_key "p6"]
  ∧ sum_size_bytes (entries (cache w1)) = 1000.
Proof. vm_compute. repeat split; (reflexivity || discriminate). Qed.

(** The scenario on sample data. *)
Lemma set_capacity_eviction_witness :
  ∃ (victim : Row) (w' : World),
    set "p4" "claude" new_payload "default" (Some 1) [] world_three_full = (Ok true, w')
    ∧ victim ∈ entries (cache world_three_full)
    ∧ (∀ r, r ∈ entries (cache world_three_full) → lru_le victim r)
    ∧ (∃ l1 l2, entries (cache world_three_full) = l1 ++ victim :: l2
                ∧ Forall (λ r, ¬ lru_le r victim) l1)
    ∧ entries (cache w')
      = filter (λ r, key r ≠ key victim) (entries (cache world_three_full))
        ++ [mkRow (sample_key "p4") 1000 (Some (1000 + hours 1)) 0 None 400 []]
    ∧ length (entries (cache w')) = 3%nat
    ∧ sum_size_bytes (entries (cache w')) ≤ 1200.
Proof.
  apply (proj2 set_capacity_eviction world_three_full "p4" "claude" new_payload "default"
           (Some 1) []
           (sample_row "p1" (hours 1) 2 (Some 30) 400) (sample_row "p2" (hours 1) 0 None 400)
           (sample_row "p3" (hours 1) 1 (Some 20) 400)).
  - reflexivity.
  - apply (bool_decide_unpack _). vm_compute. exact I.
  - reflexivity.
  - reflexivity.
  - reflexivity.
  - reflexivity.
  - reflexivity.
  - vm_compute. reflexivity.
  - reflexivity.
  - split; by vm_compute.
Defined.

Example fourth_entry_evicts_least_used :
  map key (entries (cache (set "p4" "claude" new_payload "default" (Some 1) []
                             world_three_full).2))
  = [sample_key "p1"; sample_key "p3"; sample_key "p4"].
Proof. vm_compute. reflexivity. Qed.

(** Three entries that were never read tie in the eviction order: the
    one stored first goes. *)
Example tied_entries_evicted_in_table_order :
  map key (entries (cache (set "p4" "claude" new_payload "default" (Some 1) []
                             world_three_unread).2))
  = [sample_key "p2"; sample_key "p3"; sample_key "p4"].
Proof. vm_compute. reflexivity. Qed.

(** A re-store that fails while dumping the pickle: the entry could be
    read before; afterwards its row is still there, its blob is gone, and
    reading it misses. *)
Lemma set_failure_orphans_previous_row :
  let w1 := (set "p1" "claude" new_payload "default" (Some 1) [] world_dump_fails).2 in
  (get "p1" "claude" "default" world_dump_fails).1 = Ok (Some old_payload)
  ∧ (set "p1" "claude" new_payload "default" (Some 1) [] world_dump_fails).1 = Ok false
  ∧ entries (cache w1) = entries (cache world_dump_fails)
  ∧ files (cache w1) !! _get_file_path (sample_key "p1") = None
  ∧ (get "p1" "claude" "default" w1).1 = Ok None.
Proof. vm_compute. repeat split; reflexivity. Qed.

(** The same failing re-store, through the theorem. *)
Lemma set_failure_removes_blob_witness :
  ∃ w', set "p1" "claude" new_payload "default" (Some 1) [] world_dump_fails = (Ok false, w')
        ∧ files (cache w') !! _get_file_path (_generate_key "p1" "claude" "default") = None
        ∧ (∀ r, r ∈ entries (cache w') → r ∈ entries (cache world_dump_fails))
        ∧ (hd NoFault (pending_faults world_dump_fails) ≠ InsertFails →
           entries (cache w') = entries (cache world_dump_fails)).
Proof.
  apply (set_failure_removes_blob world_dump_fails "p1" "claude" new_payload "default"
           (Some 1) []).
  simpl. discriminate.
Defined.

(** An entry that expired before the first clock reading. *)
Lemma get_ttl_expiry_witness :
  ∃ w', get "p1" "claude" "default" world_expired = (Ok None, w')
        ∧ select_by_key (_generate_key "p1" "claude" "default") (entries (cache w')) = None
        ∧ files (cache w') !! _get_file_path (_generate_key "p1" "claude" "default") = None.
Proof.
  apply (proj1 (get_ttl_expiry world_expired "p1" "claude" "default"
                  (sample_row "p1" 500 0 None 400) ltac:(vm_compute; reflexivity)) 500).
  - reflexivity.
  - vm_compute. reflexivity.
Defined.

(** ** The pipeline only moves the world forward *)

#[global] Instance extends_refl : Reflexive extends.
Proof. intros w. repeat split; [lia|]. exists []. by rewrite app_nil_r. Qed.

#[global] Instance extends_trans : Transitive extends.
Proof.
  intros w1 w2 w3 (Hc1 & Hp1 & Ht1 & r1 & Hl1) (Hc2 & Hp2 & Ht2 & r2 & Hl2).
  repeat split; [congruence | congruence | lia |].
  exists (r1 ++ r2). by rewrite Hl2, Hl1, app_assoc.
Qed.

Lemma extends_with_cache f w : extends w (with_cache f w).
Proof. repeat split; [cbn; lia|]. exists []. cbn. by rewrite app_nil_r. Qed.

Create HintDb frame discriminated.

Lemma framed_ret {A} (a : A) : framed (mret a).
Proof. intros w. reflexivity. Qed.

Lemma framed_bind {A B} (m : E A) (f : A → E B) :
  framed m → (∀ a, framed (f a)) → framed (m ≫= f).
Proof.
  intros Hm Hf w. rewrite bind_run. specialize (Hm w).
  destruct (m w) as [[a|e] w1]; cbn in *; [|exact Hm].
  etrans; [exact Hm | apply Hf].
Qed.

Lemma framed_try {A} (body : E A) (handler : exn → E A) :
  framed body → (∀ e, framed (handler e)) → framed (try_except body handler).
Proof.
  intros Hm Hf w. unfold try_except. specialize (Hm w).
  destruct (body w) as [[a|e] w1]; cbn in *; [exact Hm|].
  etrans; [exact Hm | apply Hf].
Qed.

Lemma framed_attempt {A} (m : E A) : framed m → framed (attempt m).
Proof. intros Hm w. unfold attempt. specialize (Hm w). by destruct (m w). Qed.

Lemma framed_raise {A} e : framed (raise (A:=A) e).
Proof. intros w. reflexivity. Qed.

Lemma framed_lift {A} (o : outcome A) : framed (lift_outcome o).
Proof. intros w. reflexivity. Qed.

Lemma framed_now : framed datetime_now.
Proof. intros w. repeat split; [cbn; lia|]. exists []. cbn. by rewrite app_nil_r. Qed.

Lemma framed_read_cache : framed read_cache.
Proof. intros w. reflexivity. Qed.

Lemma framed_modify_cache f : framed (modify_cache f).
Proof. intros w. apply extends_with_cache. Qed.

Lemma framed_sizeof d : framed (sizeof d).
Proof. intros w. reflexivity. Qed.

Lemma framed_next_fault : framed next_fault.
Proof. intros w. repeat split; [cbn; lia|]. exists []. cbn. by rewrite app_nil_r. Qed.

Lemma framed_record c : framed (record c).
Proof. intros w. repeat split; [cbn; lia|]. by exists [c]. Qed.

#[global] Hint Resolve framed_ret framed_bind framed_try framed_attempt framed_raise
  framed_lift framed_now framed_read_cache framed_modify_cache framed_sizeof
  framed_next_fault framed_record : frame.

Lemma framed_remove_entry k : framed (_remove_entry k).
Proof. unfold _remove_entry. auto 10 with frame. Qed.
#[global] Hint Resolve framed_remove_entry : frame.

Lemma framed_evict_loop rows needed freed removed :
  framed (evict_loop rows needed freed removed).
Proof.
  intros w. rewrite evict_loop_run. apply extends_with_cache.
Qed.
#[global] Hint Resolve framed_evict_loop : frame.

Lemma framed_cleanup_by_size needed : framed (_cleanup_by_size needed).
Proof.
  unfold _cleanup_by_size. apply framed_bind; [auto with frame|]. intros c.
  apply framed_bind; [auto with frame|]. intros [removed freed]. auto with frame.
Qed.
#[global] Hint Resolve framed_cleanup_by_size : frame.

Lemma framed_get prompt target_llm optimization_type :
  framed (get prompt target_llm optimization_type).
Proof.
  unfold get. apply framed_bind; [auto with frame|]. intros c.
  destruct (select_by_key _ _) as [row|]; [|auto with frame].
  apply framed_bind.
  { destruct (expires_at row); auto with frame. }
  intros [|]; [auto 10 with frame|].
  apply framed_bind; [auto with frame|]. intros t.
  apply framed_bind; [auto with frame|]. intros _.
  apply framed_bind; [auto with frame|]. intros c'.
  destruct (files c' !! _) as [[d|]|]; auto 10 with frame.
Qed.

Lemma framed_set prompt target_llm data optimization_type ttl_hours tags :
  framed (set prompt target_llm data optimization_type ttl_hours tags).
Proof.
  unfold set. apply framed_bind; [auto with frame|]. intros t.
  apply framed_bind; [auto with frame|]. intros c.
  apply framed_bind; [auto with frame|]. intros fault.
  apply framed_try.
  - apply framed_bind; [destruct fault; auto 10 with frame|]. intros _.
    apply framed_bind; [destruct fault; auto with frame|]. intros size.
    apply framed_bind; [unfold _get_total_size; auto with frame|]. intros total_size.
    apply framed_bind; [case_bool_decide; auto with frame|]. intros _.
    apply framed_bind; [destruct fault; auto with frame|]. intros _.
    auto with frame.
  - intros e. apply framed_bind; [auto with frame|]. intros c'.
    apply framed_bind; [case_bool_decide; auto with frame|]. auto with frame.
Qed.
#[global] Hint Resolve framed_get framed_set : frame.

(** ** The cache calls no collaborator and never raises *)

Lemma silent_ret {A} (a : A) : silent (mret a).
Proof. intros w. reflexivity. Qed.

Lemma silent_bind {A B} (m : E A) (f : A → E B) :
  silent m → (∀ a, silent (f a)) → silent (m ≫= f).
Proof.
  intros Hm Hf w. rewrite bind_run. specialize (Hm w).
  destruct (m w) as [[a|e] w1]; cbn in *; [|exact Hm].
  rewrite <- Hm. apply Hf.
Qed.

Lemma silent_try {A} (body : E A) (handler : exn → E A) :
  silent body → (∀ e, silent (handler e)) → silent (try_except body handler).
Proof.
  intros Hm Hf w. unfold try_except. specialize (Hm w).
  destruct (body w) as [[a|e] w1]; cbn in *; [exact Hm|].
  rewrite <- Hm. apply Hf.
Qed.

Lemma silent_raise {A} e : silent (raise (A:=A) e).
Proof. intros w. reflexivity. Qed.
Lemma silent_lift {A} (o : outcome A) : silent (lift_outcome o).
Proof. intros w. reflexivity. Qed.
Lemma silent_now : silent datetime_now.
Proof. intros w. reflexivity. Qed.
Lemma silent_read_cache : silent read_cache.
Proof. intros w. reflexivity. Qed.
Lemma silent_modify_cache f : silent (modify_cache f).
Proof. intros w. reflexivity. Qed.
Lemma silent_sizeof d : silent (sizeof d).
Proof. intros w. reflexivity. Qed.
Lemma silent_next_fault : silent next_fault.
Proof. intros w. reflexivity. Qed.

Create HintDb silent discriminated.
#[global] Hint Resolve silent_ret silent_bind silent_try silent_raise silent_lift
  silent_now silent_read_cache silent_modify_cache silent_sizeof silent_next_fault : silent.

Lemma silent_remove_entry k : silent (_remove_entry k).
Proof. unfold _remove_entry. auto 10 with silent. Qed.
#[global] Hint Resolve silent_remove_entry : silent.

Lemma silent_cleanup_by_size needed : silent (_cleanup_by_size needed).
Proof.
  unfold _cleanup_by_size. apply silent_bind; [auto with silent|]. intros c.
  apply silent_bind; [|intros [? ?]; auto with silent].
  intros w. by rewrite evict_loop_run.
Qed.
#[global] Hint Resolve silent_cleanup_by_size : silent.

Lemma silent_get prompt target_llm optimization_type :
  silent (get prompt target_llm optimization_type).
Proof.
  unfold get. apply silent_bind; [auto with silent|]. intros c.
  destruct (select_by_key _ _) as [row|]; [|auto with silent].
  apply silent_bind.
  { destruct (expires_at row); auto with silent. }
  intros [|]; [auto 10 with silent|].
  apply silent_bind; [auto with silent|]. intros t.
  apply silent_bind; [auto with silent|]. intros _.
  apply silent_bind; [auto with silent|]. intros c'.
  destruct (files c' !! _) as [[d|]|]; auto 10 with silent.
Qed.

Lemma silent_set prompt target_llm data optimization_type ttl_hours tags :
  silent (set prompt target_llm data optimization_type ttl_hours tags).
Proof.
  unfold set. apply silent_bind; [auto with silent|]. intros t.
  apply silent_bind; [auto with silent|]. intros c.
  apply silent_bind; [auto with silent|]. intros fault.
  apply silent_try.
  - apply silent_bind; [destruct fault; auto 10 with silent|]. intros _.
    apply silent_bind; [destruct fault; auto with silent|]. intros size.
    apply silent_bind; [unfold _get_total_size; auto with silent|]. intros total_size.
    apply silent_bind; [case_bool_decide; auto with silent|]. intros _.
    apply silent_bind; [destruct fault; auto with silent|]. intros _.
    auto with silent.
  - intros e. apply silent_bind; [auto with silent|]. intros c'.
    apply silent_bind; [case_bool_decide; auto with silent|]. auto with silent.
Qed.

Lemma total_ret {A} (a : A) : total (mret a).
Proof. intros w. by eexists. Qed.

Lemma total_bind {A B} (m : E A) (f : A → E B) :
  total m → (∀ a, total (f a)) → total (m ≫= f).
Proof.
  intros Hm Hf w. rewrite bind_run. destruct (Hm w) as [a Ha].
  destruct (m w) as [[a'|e] w1]; cbn in *; [apply Hf | discriminate].
Qed.

Lemma total_try {A} (body : E A) (handler : exn → E A) :
  (∀ e, total (handler e)) → total (try_except body handler).
Proof.
  intros Hf w. unfold try_except.
  destruct (body w) as [[a|e] w1]; cbn; [by eexists | apply Hf].
Qed.

Lemma total_attempt {A} (m : E A) : total (attempt m).
Proof. intros w. unfold attempt. destruct (m w). by eexists. Qed.

Lemma total_now : total datetime_now.
Proof. intros w. by eexists. Qed.
Lemma total_read_cache : total read_cache.
Proof. intros w. by eexists. Qed.
Lemma total_modify_cache f : total (modify_cache f).
Proof. intros w. by eexists. Qed.
Lemma total_record c : total (record c).
Proof. intros w. by eexists. Qed.

Create HintDb total discriminated.
#[global] Hint Resolve total_ret total_bind total_try total_attempt total_now
  total_read_cache total_modify_cache total_record : total.

Lemma total_remove_entry k : total (_remove_entry k).
Proof. unfold _remove_entry. auto 10 with total. Qed.
#[global] Hint Resolve total_remove_entry : total.

Lemma total_get prompt target_llm optimization_type :
  total (get prompt target_llm optimization_type).
Proof.
  unfold get. apply total_bind; [auto with total|]. intros c.
  destruct (select_by_key _ _) as [row|]; [|auto with total].
  apply total_bind.
  { destruct (expires_at row); auto with total. }
  intros [|]; [auto 10 with total|].
  apply total_bind; [auto with total|]. intros t.
  apply total_bind; [auto with total|]. intros _.
  apply total_bind; [auto with total|]. intros c'.
  destruct (files c' !! _) as [[d|]|]; auto 10 with total.
Qed.

Lemma total_set prompt target_llm data optimization_type ttl_hours tags :
  total (set prompt target_llm data optimization_type ttl_hours tags).
Proof.
  unfold set. apply total_bind; [auto with total|]. intros t.
  apply total_bind; [auto with total|]. intros c.
  apply total_bind; [intros w; by eexists|]. intros fault.
  apply total_try. intros e.
  apply total_bind; [auto with total|]. intros c'.
  apply total_bind; [case_bool_decide; auto with total|]. auto with total.
Qed.
#[global] Hint Resolve total_get total_set : total.

Lemma ensures_bind {A B} (m : E A) (f : A → E B) (Q : B → World → Prop) :
  (∀ a, ensures (f a) Q) → ensures (m ≫= f) Q.
Proof.
  intros Hf w. rewrite bind_run. destruct (m w) as [[a|e] w1]; [apply Hf | exact I].
Qed.

Lemma ensures_try {A} (body : E A) (handler : exn → E A) (Q : A → World → Prop) :
  ensures body Q → (∀ e, ensures (handler e) Q) → ensures (try_except body handler) Q.
Proof.
  intros Hm Hf w. unfold try_except. specialize (Hm w).
  destruct (body w) as [[a|e] w1]; [exact Hm | apply Hf].
Qed.

Lemma run_total {A} (m : E A) w : total m → ∃ a w', m w = (Ok a, w').
Proof. intros H. destruct (H w) as [a Ha]. destruct (m w) as [o w']. cbn in Ha. subst. eauto. Qed.

(** ** The per-item pipeline *)

Lemma process_single_item_unfold co item enable_analysis enable_cache :
  _process_single_item co item enable_analysis enable_cache
  = (start_time ← datetime_now;
     try_except
       (cached_result ← cached_lookup item enable_cache;
        if truthy cached_result
        then t1 ← datetime_now;
             mret (hit_result item start_time t1 (default [] cached_result))
        else compute_item co item enable_analysis enable_cache start_time)
       (λ e, t1 ← datetime_now; mret (failed_result item start_time t1 e))).
Proof. reflexivity. Qed.

Ltac frame :=
  repeat match goal with
  | |- ∀ _, _ => intro
  | |- framed (_ ≫= _) => apply framed_bind
  | |- framed (try_except _ _) => apply framed_try
  | |- framed (if ?b then _ else _) => destruct b
  | |- framed (match ?x with _ => _ end) => destruct x
  | |- framed _ => solve [auto with frame]
  end.

Lemma framed_finish_item co item enable_analysis enable_cache t0 optimized routing_result :
  framed (finish_item co item enable_analysis enable_cache t0 optimized routing_result).
Proof. unfold finish_item. frame. Qed.
#[global] Hint Resolve framed_finish_item : frame.

Lemma framed_compute_item co item enable_analysis enable_cache t0 :
  framed (compute_item co item enable_analysis enable_cache t0).
Proof. unfold compute_item. frame. Qed.
#[global] Hint Resolve framed_compute_item : frame.

Lemma framed_process_single_item co item enable_analysis enable_cache :
  framed (_process_single_item co item enable_analysis enable_cache).
Proof. unfold _process_single_item. frame. Qed.
#[global] Hint Resolve framed_process_single_item : frame.

Lemma total_process_single_item co item enable_analysis enable_cache :
  total (_process_single_item co item enable_analysis enable_cache).
Proof.
  unfold _process_single_item. apply total_bind; [auto with total|]. intros t0.
  apply total_try. intros e. auto with total.
Qed.
#[global] Hint Resolve total_process_single_item : total.

Lemma total_cached_lookup item enable_cache : total (cached_lookup item enable_cache).
Proof. unfold cached_lookup. destruct enable_cache; auto with total. Qed.

Lemma silent_cached_lookup item enable_cache : silent (cached_lookup item enable_cache).
Proof.
  unfold cached_lookup. destruct enable_cache; [apply silent_get | apply silent_ret].
Qed.

Lemma ensures_now_ret {A} (f : Z → A) (Q : A → World → Prop) :
  (∀ w, Q (f (clock w (tick w))) (datetime_now w).2) →
  ensures (t ← datetime_now; mret (f t)) Q.
Proof. intros H w. apply H. Qed.

Ltac ensure :=
  repeat match goal with
  | |- ∀ _, _ => intro
  | |- ensures (datetime_now ≫= _) _ => apply ensures_now_ret
  | |- ensures (_ ≫= _) _ => apply ensures_bind
  | |- ensures (if ?b then _ else _) _ => destruct b
  end.

(** The result names its item and carries the time between the first
    and the last reading of the clock. *)
Lemma process_single_item_stamped co item enable_analysis enable_cache w :
  match _process_single_item co item enable_analysis enable_cache w with
  | (Ok r, w') =>
      (0 < tick w')%nat
      ∧ BatchResult.processing_time_seconds r
        = seconds_between (clock w (tick w)) (clock w' (tick w' - 1))
      ∧ BatchResult.item_id r = BatchItem.id item
      ∧ (BatchResult.success r = false → is_Some (BatchResult.error_message r))
  | (Raise _, _) => True
  end.
Proof.
  unfold _process_single_item. rewrite bind_run. cbn -[try_except].
  match goal with |- match try_except ?b ?h ?w1 with _ => _ end =>
    apply (ensures_try b h
             (λ r w', (0 < tick w')%nat
                      ∧ BatchResult.processing_time_seconds r
                        = seconds_between (clock w (tick w)) (clock w' (tick w' - 1))
                      ∧ BatchResult.item_id r = BatchItem.id item
                      ∧ (BatchResult.success r = false
                         → is_Some (BatchResult.error_message r))))
  end; ensure; cbn; rewrite Nat.sub_0_r;
    (split; [lia|]); (split; [reflexivity|]); (split; [reflexivity|]);
    first [discriminate | by eexists].
Qed.

(** A live entry is a hit. *)
Lemma get_live_run w prompt target_llm optimization_type d :
  live_at (clock w (tick w)) (cache w)
    (_generate_key prompt target_llm optimization_type) d →
  ∃ w', get prompt target_llm optimization_type w = (Ok (Some d), w').
Proof.
  intros (row & Hrow & Hlive & Hfile). unfold get. run. rewrite Hrow.
  destruct (expires_at row) as [e|] eqn:He; run.
  - rewrite bool_decide_eq_false_2 by (specialize (Hlive e eq_refl); lia).
    run. rewrite Hfile. by eexists.
  - rewrite Hfile. by eexists.
Qed.

(** The calls a miss makes. *)
Lemma compute_item_calls co item enable_analysis enable_cache t0 w :
  ∃ rest,
    calls (compute_item co item enable_analysis enable_cache t0 w).2
    = calls w ++ CallOptimize (BatchItem.prompt item) (BatchItem.target_llm item) :: rest
    ∧ (∀ optimized,
         optimize co (BatchItem.prompt item) (BatchItem.target_llm item) = Ok optimized →
         ∃ rest', rest = CallRoute optimized (BatchItem.target_llm item) :: rest').
Proof.
  unfold compute_item. do 2 (rewrite bind_run; cbn).
  destruct (optimize co _ _) as [optimized|e]; cbn.
  - do 2 (rewrite bind_run; cbn).
    destruct (route_prompt co _ _) as [routing_result|e]; cbn.
    + match goal with |- context [finish_item ?a ?b ?c ?d ?e ?f ?g ?w3] =>
        destruct (framed_finish_item a b c d e f g w3) as (_ & _ & _ & rest & ->)
      end.
      cbn. eexists. rewrite <- !app_assoc. split; [reflexivity|].
      intros ? [= <-]. by eexists.
    + eexists. rewrite <- !app_assoc. split; [reflexivity|].
      intros ? [= <-]. by eexists.
  - exists []. split; [reflexivity | discriminate].
Qed.

Section Pipeline.

Variable co : Collaborators.
Variable item : BatchItem.t.
Variable enable_analysis : bool.

(** C3 (amended).  With the cache enabled, an item whose key has a live
    entry with a readable, non-empty payload is answered from the cache:
    the result is built from the stored payload and no collaborator is
    called. *)
Theorem cached_item_served (w : World) (d : pydict) :
  live_at (clock w (S (tick w))) (cache w) (item_key item) d →
  d ≠ [] →
  ∃ r w',
    _process_single_item co item enable_analysis true w = (Ok r, w')
    ∧ calls w' = calls w
    ∧ BatchResult.success r = true
    ∧ BatchResult.error_message r = None
    ∧ BatchResult.item_id r = BatchItem.id item
    ∧ BatchResult.optimized_prompt r
      = dict_get d "optimized_prompt" (PyStr (BatchItem.prompt item))
    ∧ BatchResult.formatted_prompt r
      = dict_get d "formatted_prompt" (PyStr (BatchItem.prompt item))
    ∧ BatchResult.analysis r = dict_get d "analysis" PyNone
    ∧ BatchResult.routing_metadata r = dict_get d "routing_metadata" PyNone.
Proof.
  intros Hlive Hd. rewrite process_single_item_unfold. run.
  destruct (get_live_run (datetime_now w).2 _ _ _ d Hlive) as [w2 Hget].
  pose proof (silent_get (BatchItem.prompt item) (BatchItem.target_llm item)
                (BatchItem.optimization_type item) (datetime_now w).2) as Hcalls.
  cbn in Hget, Hcalls. rewrite Hget in Hcalls |- *. cbn in Hcalls.
  destruct d as [|kv d]; [done|]. run.
  eexists _, _. split; [reflexivity|]. cbn. by rewrite Hcalls.
Qed.


End Pipeline.

Lemma advances_bind {A B} (m : E A) (f : A → E B) :
  framed m → (∀ a, advances (f a)) → advances (m ≫= f).
Proof.
  intros Hm Hf w. rewrite bind_run. specialize (Hm w).
  destruct (m w) as [[a|e] w1]; [|exact I]. specialize (Hf a w1).
  destruct (f a w1) as [[b|e] w2]; [|exact I]. destruct Hm as (_ & _ & Hm & _). cbn in *. lia.
Qed.

Lemma advances_now_ret {A} (f : Z → A) : advances (t ← datetime_now; mret (f t)).
Proof. intros w. run. lia. Qed.

Lemma advances_try {A} (body : E A) (handler : exn → E A) :
  framed body → advances body → (∀ e, advances (handler e)) →
  advances (try_except body handler).
Proof.
  intros Hfr Hm Hf w. cbn. specialize (Hm w). specialize (Hfr w).
  destruct (body w) as [[a|e] w1]; [exact Hm|]. specialize (Hf e w1).
  destruct (handler e w1) as [[b|e'] w2]; [|exact I].
  destruct Hfr as (_ & _ & Hfr & _). cbn in *. lia.
Qed.

Ltac advance :=
  repeat match goal with
  | |- ∀ _, _ => intro
  | |- advances (datetime_now ≫= _) => apply advances_now_ret
  | |- advances (_ ≫= _) => apply advances_bind; [solve [frame]|]
  | |- advances (if ?b then _ else _) => destruct b
  end.

Lemma advances_process_single_item co item enable_analysis enable_cache w :
  match _process_single_item co item enable_analysis enable_cache w with
  | (Ok _, w') => (tick w + 2 ≤ tick w')%nat
  | (Raise _, _) => True
  end.
Proof.
  unfold _process_single_item. rewrite bind_run. cbn -[try_except].
  match goal with |- match try_except ?b ?h ?w1 with _ => _ end =>
    assert (advances (try_except b h)) as Hadv
  end.
  { apply advances_try; [frame | advance | advance]. }
  specialize (Hadv (datetime_now w).2). cbn -[try_except] in Hadv.
  destruct (try_except _ _ _) as [[r|e] w']; [lia | exact I].
Qed.

(** The pipeline returns, and its result names the item. *)
Lemma process_single_item_returns co item enable_analysis enable_cache w :
  ∃ r w',
    _process_single_item co item enable_analysis enable_cache w = (Ok r, w')
    ∧ BatchResult.item_id r = BatchItem.id item.
Proof.
  destruct (run_total (_process_single_item co item enable_analysis enable_cache) w)
    as (r & w' & Hrun); [auto with total|].
  exists r, w'. split; [exact Hrun|].
  pose proof (process_single_item_stamped co item enable_analysis enable_cache w) as Hst.
  rewrite Hrun in Hst. tauto.
Qed.

(** A failing collaborator makes the computation raise what it raised. *)
Lemma compute_item_failure co item enable_analysis enable_cache t0 e w :
  collaborator_failure co item enable_analysis = Some e →
  ∃ w', compute_item co item enable_analysis enable_cache t0 w = (Raise e, w').
Proof.
  unfold collaborator_failure, compute_item, finish_item. intros H. run.
  destruct (optimize co _ _) as [optimized|e1]; run; [|injection H as <-; by eexists].
  destruct (route_prompt co _ _) as [routing|e2]; run; [|injection H as <-; by eexists].
  destruct enable_analysis; [|discriminate]. run.
  destruct (analyze co _ _) as [analysis|e3]; run; [|injection H as <-; by eexists].
  destruct (save_analysis co _) as [[]|e4]; run; [discriminate|injection H as <-; by eexists].
Qed.

(** C6 (amended).  The pipeline never raises: every item gets a result
    that names it and records the time between the clock reading on
    entry and a later one taken on the way out, whatever the outcome.
    When a collaborator raises while the item is computed, the result
    has [success = False] and carries [str(e)] as its error text, which
    is empty exactly when the exception's text is. *)
Theorem process_single_item_isolates_failures (co : Collaborators) (item : BatchItem.t)
    (enable_analysis enable_cache : bool) (w : World) :
  ∃ r w',
    _process_single_item co item enable_analysis enable_cache w = (Ok r, w')
    ∧ BatchResult.item_id r = BatchItem.id item
    ∧ (tick w + 2 ≤ tick w')%nat
    ∧ BatchResult.processing_time_seconds r
      = seconds_between (clock w (tick w)) (clock w (tick w' - 1))
    ∧ (BatchResult.success r = false → is_Some (BatchResult.error_message r))
    ∧ (∀ e,
         collaborator_failure co item enable_analysis = Some e →
         (∀ r0 w2, cached_lookup item enable_cache (datetime_now w).2 = (Ok r0, w2)
                   → truthy r0 = false) →
         BatchResult.success r = false
         ∧ BatchResult.error_message r = Some (exn_text e)).
Proof.
  destruct (run_total (_process_single_item co item enable_analysis enable_cache) w)
    as (r & w' & Hrun); [auto with total|].
  exists r, w'. split; [exact Hrun|].
  pose proof (process_single_item_stamped co item enable_analysis enable_cache w) as Hst.
  pose proof (advances_process_single_item co item enable_analysis enable_cache w) as Hadv.
  pose proof (framed_process_single_item co item enable_analysis enable_cache w) as Hfr.
  rewrite Hrun in Hst, Hadv, Hfr. destruct Hst as (_ & Htime & Hid & Herr).
  destruct Hfr as (Hclock & _). cbn in Hclock. rewrite Hclock in Htime.
  do 4 (split; [assumption|]).
  intros e Hfail Hmiss. rewrite process_single_item_unfold in Hrun.
  rewrite bind_run in Hrun. cbn in Hrun. rewrite bind_run in Hrun.
  destruct (run_total (cached_lookup item enable_cache) (datetime_now w).2
              (total_cached_lookup _ _)) as (r0 & w2 & Hlookup).
  specialize (Hmiss r0 w2 Hlookup). cbn in Hlookup. rewrite Hlookup, Hmiss in Hrun.
  destruct (compute_item_failure co item enable_analysis enable_cache
              (clock w (tick w)) e w2 Hfail) as [w3 Hcompute].
  rewrite Hcompute in Hrun. cbn in Hrun. injection Hrun as <- _. by split.
Qed.

(** Item 3 of the scenario: the router raises. *)
Lemma process_single_item_isolates_failures_witness :
  ∃ r w',
    _process_single_item router_down (sample_item "item3" "third") true false empty_world
    = (Ok r, w')
    ∧ BatchResult.success r = false
    ∧ BatchResult.error_message r = Some "router down".
Proof.
  destruct (process_single_item_isolates_failures router_down (sample_item "item3" "third")
              true false empty_world)
    as (r & w' & Hrun & _ & _ & _ & _ & Hfail).
  exists r, w'. split; [exact Hrun|].
  apply (Hfail (Exn "ConnectionError" "router down")).
  - reflexivity.
  - intros r0 w2 [= <- _]. reflexivity.
Defined.

(** An exception without a message gives a failed result whose error
    text is the empty string. *)
Lemma failed_result_with_empty_text :
  collaborator_failure optimizer_times_out (sample_item "item1" "first") true
  = Some (Exn "TimeoutError" "")
  ∧ (_process_single_item optimizer_times_out (sample_item "item1" "first") true false
       empty_world).1
    = Ok (failed_result (sample_item "item1" "first") 1000 1001 (Exn "TimeoutError" ""))
  ∧ BatchResult.error_message
      (failed_result (sample_item "item1" "first") 1000 1001 (Exn "TimeoutError" ""))
    = Some "".
Proof. repeat split; reflexivity. Qed.

(** A warm cache on sample data: the stored payload comes back and the
    call log does not grow. *)
Lemma cached_item_served_witness :
  ∃ r w',
    _process_single_item working (sample_item "item1" "p1") true true world_one_large
    = (Ok r, w')
    ∧ calls w' = calls world_one_large
    ∧ BatchResult.success r = true
    ∧ BatchResult.optimized_prompt r = PyStr "old".
Proof.
  destruct (cached_item_served working (sample_item "item1" "p1") true world_one_large
              old_payload)
    as (r & w' & Hrun & Hcalls & Hok & _ & _ & Hopt & _).
  - exists (sample_row "p1" (hours 24) 0 None 800).
    split; [vm_compute; reflexivity|]. split; [|vm_compute; reflexivity].
    intros e [= <-]. vm_compute. discriminate.
  - discriminate.
  - exists r, w'. rewrite Hopt. auto.
Defined.

(** A live entry holding the empty dict: all collaborators are called. *)
Lemma falsy_payload_invokes_collaborators :
  live_at 1001 (cache world_empty_payload) (sample_key "p1") []
  ∧ calls (_process_single_item working (sample_item "item1" "p1") true true
             world_empty_payload).2
    = [CallOptimize "p1" "claude"; CallRoute "p1." "claude"; CallAnalyze "p1" "claude";
       CallSaveAnalysis].
Proof.
  split; [|vm_compute; reflexivity].
  exists (sample_row "p1" (hours 24) 0 None 400).
  split; [vm_compute; reflexivity|]. split; [|vm_compute; reflexivity].
  intros e [= <-]. vm_compute. discriminate.
Qed.

(** ** Progress and the batch report *)

Lemma Qeq_bool_inject_Z (z : Z) : Qeq_bool (inject_Z z) 0 = bool_decide (z = 0).
Proof.
  unfold Qeq_bool. cbn. rewrite Z.mul_1_r.
  case_bool_decide as Hz; [subst; reflexivity|].
  destruct z; [done | reflexivity | reflexivity].
Qed.

Lemma get_progress_zero (self : ProgressTracker.t) (w : World) :
  ProgressTracker.total_items self = 0 →
  (ProgressTracker.get_progress self w).1
  = Raise (Exn "ZeroDivisionError" "division by zero").
Proof.
  intros Htotal. unfold ProgressTracker.get_progress, truediv. run.
  rewrite Qeq_bool_inject_Z, bool_decide_eq_true_2 by exact Htotal. reflexivity.
Qed.

Lemma get_progress_nonzero (self : ProgressTracker.t) (w : World) :
  ProgressTracker.total_items self ≠ 0 →
  ∃ p w', ProgressTracker.get_progress self w = (Ok p, w')
          ∧ Progress.total_items p = ProgressTracker.total_items self
          ∧ Progress.completed_items p = ProgressTracker.completed_items self.
Proof.
  intros Htotal. unfold ProgressTracker.get_progress, truediv. run.
  rewrite Qeq_bool_inject_Z, bool_decide_eq_false_2 by exact Htotal. run.
  case_bool_decide as Hdone; run.
  - rewrite Qeq_bool_inject_Z, bool_decide_eq_false_2 by lia. run. by eexists _, _.
  - by eexists _, _.
Qed.

(** C9.  A tracker over zero items cannot report progress: the percentage
    divides by [total_items] unguarded, so [get_progress] raises
    [ZeroDivisionError]; for any other total it returns a record. *)
Theorem get_progress_zero_total (self : ProgressTracker.t) (w : World) :
  (ProgressTracker.total_items self = 0 →
   (ProgressTracker.get_progress self w).1
   = Raise (Exn "ZeroDivisionError" "division by zero"))
  ∧ (ProgressTracker.total_items self ≠ 0 →
     ∃ p, (ProgressTracker.get_progress self w).1 = Ok p
          ∧ Progress.total_items p = ProgressTracker.total_items self
          ∧ Progress.completed_items p = ProgressTracker.completed_items self).
Proof.
  split; [apply get_progress_zero|]. intros Htotal.
  destruct (get_progress_nonzero self w Htotal) as (p & w' & Hrun & Hp).
  exists p. by rewrite Hrun.
Qed.

(** A tracker over an empty batch. *)
Lemma get_progress_zero_total_witness :
  (ProgressTracker.get_progress (ProgressTracker.mk 0 0 1000) empty_world).1
  = Raise (Exn "ZeroDivisionError" "division by zero").
Proof.
  apply (proj1 (get_progress_zero_total (ProgressTracker.mk 0 0 1000) empty_world)).
  reflexivity.
Defined.

Section Collect.

Variable co : Collaborators.
Variables enable_analysis enable_cache : bool.
Variable progress_callback : option (Progress.t → outcome unit).
Hypothesis Hsafe : callback_safe progress_callback.

Lemma collect_one_counts report progress item w :
  ProgressTracker.total_items progress ≠ 0 →
  ∃ result w',
    collect_one co enable_analysis enable_cache progress_callback (report, progress) item w
    = (Ok (add_result report item result, ProgressTracker.update progress 1), w')
    ∧ BatchResult.item_id result = BatchItem.id item.
Proof.
  intros Htotal. unfold collect_one. rewrite bind_run. cbn -[_process_single_item].
  destruct (process_single_item_returns co item enable_analysis enable_cache w)
    as (r & w1 & Hrun & Hid).
  rewrite Hrun. cbn -[_process_single_item]. exists r.
  destruct progress_callback as [callback|] eqn:Hcb; [|by eexists].
  rewrite bind_run. cbn. rewrite bind_run.
  destruct (get_progress_nonzero (ProgressTracker.update progress 1) w1 Htotal)
    as (p & w2 & Hp & _).
  rewrite Hp. cbn. rewrite (Hsafe callback eq_refl p). by eexists.
Qed.

Lemma collect_counts completed report progress w :
  (completed ≠ [] → ProgressTracker.total_items progress ≠ 0) →
  ∃ report' progress' w',
    collect co enable_analysis enable_cache progress_callback completed (report, progress) w
    = (Ok (report', progress'), w')
    ∧ BatchReport.processed_items report'
      = BatchReport.processed_items report + Z.of_nat (length completed)
    ∧ BatchReport.successful_items report' + BatchReport.failed_items report'
      = BatchReport.successful_items report + BatchReport.failed_items report
        + Z.of_nat (length completed)
    ∧ map BatchResult.item_id (BatchReport.results report')
      = map BatchResult.item_id (BatchReport.results report) ++ map BatchItem.id completed
    ∧ BatchReport.total_items report' = BatchReport.total_items report
    ∧ BatchReport.batch_id report' = BatchReport.batch_id report
    ∧ BatchReport.started_at report' = BatchReport.started_at report.
Proof.
  revert report progress w. induction completed as [|item rest IH]; intros report progress w Ht.
  - exists report, progress, w. cbn. rewrite app_nil_r. repeat split; lia.
  - cbn [collect]. rewrite bind_run.
    destruct (collect_one_counts report progress item w (Ht ltac:(done)))
      as (result & w1 & Hone & Hid).
    rewrite Hone.
    destruct (IH (add_result report item result) (ProgressTracker.update progress 1) w1)
      as (report' & progress' & w' & Hrest & Hp & Hsf & Hids & Htot & Hbid & Hst).
    { intros _. cbn. apply Ht. done. }
    exists report', progress', w'. split; [exact Hrest|].
    rewrite Hp, Hsf, Hids, Htot, Hbid, Hst. cbn [add_result BatchReport.processed_items
      BatchReport.successful_items BatchReport.failed_items BatchReport.results
      BatchReport.total_items BatchReport.batch_id BatchReport.started_at length map].
    rewrite map_app, <- app_assoc. cbn [map app]. rewrite Hid.
    repeat split; destruct (BatchResult.success result); lia.
Qed.

End Collect.

(** With no progress callback, or one that does not raise, the report
    accounts for every item of the batch once, in whatever order the
    workers completed. *)
Lemma process_batch_accounts co strftime batch_items completion_order batch_id
    enable_analysis enable_cache progress_callback w :
  0 < max_workers co →
  callback_safe progress_callback →
  completion_order ≡ₚ batch_items →
  ∃ report w',
    process_batch co strftime batch_items completion_order batch_id
      enable_analysis enable_cache progress_callback w = (Ok report, w')
    ∧ BatchReport.total_items report = Z.of_nat (length batch_items)
    ∧ BatchReport.processed_items report = Z.of_nat (length batch_items)
    ∧ BatchReport.successful_items report + BatchReport.failed_items report
      = Z.of_nat (length batch_items)
    ∧ map BatchResult.item_id (BatchReport.results report) ≡ₚ map BatchItem.id batch_items.
Proof.
  intros Hpool Hsafe Hperm. unfold process_batch. rewrite bind_run.
  match goal with |- context [match ?m w with _ => _ end] =>
    assert (∃ bid w0, m w = (Ok bid, w0)) as (bid & w0 & ->)
      by (destruct batch_id as [[|c s]|]; by eexists _, _)
  end.
  run. unfold ProgressTracker.init, ThreadPoolExecutor.
  rewrite bool_decide_eq_false_2 by lia. run.
  match goal with |- context [collect _ _ _ _ _ (?rep, ?prog) ?w1] =>
    destruct (collect_counts co enable_analysis enable_cache progress_callback Hsafe
                completion_order rep prog w1)
      as (report' & progress' & w' & -> & Hp & Hsf & Hids & Htot & _)
  end.
  { intros Hne. cbn. destruct batch_items; [|done].
    apply Permutation_nil_r in Hperm. done. }
  cbn in Hp, Hsf, Hids, Htot. rewrite (Permutation_length Hperm) in Hp, Hsf. run.
  case_bool_decide as Hpos; run.
  - unfold truediv. rewrite Qeq_bool_inject_Z, bool_decide_eq_false_2 by lia. run.
    eexists _, _. split; [reflexivity|]. cbn.
    rewrite Hids, Hperm. repeat split; try lia. reflexivity.
  - eexists _, _. split; [reflexivity|]. cbn.
    rewrite Hids, Hperm. repeat split; try lia. reflexivity.
Qed.

(** C1.  One item and a progress callback that raises: the item is
    counted as processed and successful, then the callback's exception
    lands in the loop's [except] branch, which counts a failure as well. *)
Theorem process_batch_counts_callback_failure :
  let report := (process_batch working sample_strftime [sample_item "item1" "first"]
                   [sample_item "item1" "first"] (Some "b1") true false (Some broken_pipe)
                   empty_world).1 in
  BatchReport.processed_items <$> (match report with Ok r => Some r | Raise _ => None end)
  = Some 1
  ∧ BatchReport.successful_items <$> (match report with Ok r => Some r | Raise _ => None end)
    = Some 1
  ∧ BatchReport.failed_items <$> (match report with Ok r => Some r | Raise _ => None end)
    = Some 1
  ∧ (map BatchResult.item_id ∘ BatchReport.results)
      <$> (match report with Ok r => Some r | Raise _ => None end)
    = Some ["item1"]
  ∧ BatchReport.errors <$> (match report with Ok r => Some r | Raise _ => None end)
    = Some ["Erro crítico no item item1: Broken pipe"].
Proof. vm_compute. repeat split; reflexivity. Qed.

(** ** Round trip through [set] and [get] *)

Lemma append_cons c s1 s2 : String c s1 +:+ s2 = String c (s1 +:+ s2).
Proof. reflexivity. Qed.

Lemma append_length s1 s2 :
  String.length (s1 +:+ s2) = (String.length s1 + String.length s2)%nat.
Proof.
  induction s1 as [|c s1 IH]; [reflexivity|].
  rewrite append_cons. cbn. f_equal. apply IH.
Qed.

Lemma append_inj_l s1 s2 t : s1 +:+ t = s2 +:+ t → s1 = s2.
Proof.
  revert s2. induction s1 as [|c s1 IH]; intros [|c' s2] H.
  - reflexivity.
  - apply (f_equal String.length) in H. rewrite !append_length in H. cbn in H. lia.
  - apply (f_equal String.length) in H. rewrite !append_length in H. cbn in H. lia.
  - rewrite !append_cons in H. injection H as -> H. f_equal. by apply IH.
Qed.

Lemma get_file_path_inj k1 k2 : _get_file_path k1 = _get_file_path k2 → k1 = k2.
Proof. apply append_inj_l. Qed.

Lemma files_remove_all vs c k :
  k ∉ map key vs →
  files (remove_all vs c) !! _get_file_path k = files c !! _get_file_path k.
Proof.
  revert c. induction vs as [|v vs IH]; intros c Hk; [reflexivity|].
  cbn in Hk. apply not_elem_of_cons in Hk as [Hne Hk].
  unfold remove_all in *. cbn. rewrite IH by exact Hk. cbn.
  apply lookup_delete_ne. intros Heq. apply Hne. symmetry. by apply get_file_path_inj.
Qed.

Lemma select_insert_or_replace row rows :
  select_by_key (key row) (insert_or_replace row rows) = Some row.
Proof.
  unfold insert_or_replace, select_by_key.
  pose proof (select_delete_by_key (key row) rows) as Hnone.
  unfold select_by_key in Hnone.
  induction (delete_by_key (key row) rows) as [|r l IH]; cbn in *.
  - by rewrite bool_decide_eq_true_2.
  - destruct (bool_decide (key r = key row)); [discriminate | by apply IH].
Qed.

Lemma victims_are_rows rows needed freed r :
  r ∈ victims rows needed freed → r ∈ rows.
Proof.
  revert freed. induction rows as [|row rest IH]; intros freed; cbn; [done|].
  case_bool_decide; [by intros ?%elem_of_nil|].
  intros [->|Hr]%elem_of_cons; [by left | right; by eapply IH].
Qed.

(** [set] then [get] returns the payload that was stored, provided the
    write meets no I/O failure, the lookup comes before the expiry, and
    the put either fits the budget or stores under a key the table does
    not hold yet. *)
Lemma set_then_get_roundtrip w prompt target_llm data optimization_type ttl_hours tags :
  let c := cache w in
  let k := _generate_key prompt target_llm optimization_type in
  hd NoFault (pending_faults w) = NoFault →
  clock w (S (tick w)) ≤ expiry c (clock w (tick w)) ttl_hours →
  (sum_size_bytes (entries c) + pickled_size w data ≤ max_size_bytes c
   ∨ select_by_key k (entries c) = None) →
  ∃ w1 w2,
    set prompt target_llm data optimization_type ttl_hours tags w = (Ok true, w1)
    ∧ get prompt target_llm optimization_type w1 = (Ok (Some data), w2).
Proof.
  intros c k Hf Httl Hroom. eexists. 
  rewrite (set_nofault_run _ _ _ _ _ _ _ Hf).
  match goal with |- ∃ w2, (_, ?w1) = _ ∧ _ =>
    destruct (get_live_run w1 prompt target_llm optimization_type data) as [w2 Hget];
      [|exists w2; split; [reflexivity | exact Hget]]
  end.
  cbn [clock tick cache]. fold c k.
  eexists. split; [|split].
  - rewrite entries_cache_after_set. apply (select_insert_or_replace (mkRow k _ _ _ _ _ _)).
  - cbn. intros e [= <-]. exact Httl.
  - unfold cache_after_set. cbn [files with_entries].
    case_bool_decide as Hover.
    + destruct Hroom as [Hfit|Hnew]; [lia|].
      rewrite files_remove_all; [apply lookup_insert_eq|].
      intros Hin. apply list_elem_of_In, in_map_iff in Hin as (r & Hkey & Hr).
      apply list_elem_of_In, victims_are_rows in Hr.
      rewrite lru_order_perm in Hr.
      apply select_by_key_None with (r := r) in Hnew; done.
    + apply lookup_insert_eq.
Qed.

(** ** The startup sweep and tag invalidation *)

Lemma remove_each_run rows n w :
  remove_each (map key rows) n w
  = (Ok (n + Z.of_nat (length rows)), with_cache (remove_all rows) w).
Proof.
  revert n w. induction rows as [|r rows IH]; intros n w; cbn -[Z.of_nat].
  - rewrite ret_run, Z.add_0_r. destruct w; reflexivity.
  - run. rewrite IH.
    replace (n + 1 + Z.of_nat (length rows)) with (n + Z.of_nat (S (length rows))) by lia.
    reflexivity.
Qed.

Lemma key_inj_NoDup (rows : list Row) r1 r2 :
  NoDup (map key rows) → r1 ∈ rows → r2 ∈ rows → key r1 = key r2 → r1 = r2.
Proof.
  induction rows as [|r rows IH]; intros Hnd H1 H2 Hk; [by apply elem_of_nil in H1|].
  cbn in Hnd. apply NoDup_cons in Hnd as [Hr Hnd].
  apply elem_of_cons in H1 as [->|H1]; apply elem_of_cons in H2 as [->|H2].
  - reflexivity.
  - destruct Hr. rewrite Hk. apply list_elem_of_In, in_map, list_elem_of_In, H2.
  - destruct Hr. rewrite <- Hk. apply list_elem_of_In, in_map, list_elem_of_In, H1.
  - by apply IH.
Qed.

(** Deleting by the keys of the rows that satisfy [P] deletes just those
    rows, when keys are unique. *)
Lemma filter_keys_of_filter (P : Row → Prop) `{!∀ r, Decision (P r)} (rows : list Row) :
  NoDup (map key rows) →
  filter (λ r, key r ∉ map key (filter P rows)) rows = filter (λ r, ¬ P r) rows.
Proof.
  intros Hnd.
  assert (∀ l : list Row, (∀ r, r ∈ l → r ∈ rows) →
               filter (λ r, key r ∉ map key (filter P rows)) l = filter (λ r, ¬ P r) l) as Hgen.
  { induction l as [|r l IH]; intros Hsub; [reflexivity|].
    rewrite !filter_cons, IH by (intros r' Hr'; apply Hsub; by right).
    destruct (decide (P r)) as [HP|HP].
    - rewrite decide_False, (decide_False (P:=¬ P r)); [reflexivity | tauto |].
      intros Hn. apply Hn, list_elem_of_In, in_map, list_elem_of_In, list_elem_of_filter.
      split; [exact HP | apply Hsub; by left].
    - rewrite decide_True, (decide_True (P:=¬ P r)); [reflexivity | exact HP |].
      intros Hin. apply list_elem_of_In, in_map_iff in Hin as (r' & Hk & Hr').
      apply list_elem_of_In, list_elem_of_filter in Hr' as [HP' Hr'].
      apply HP. rewrite <- (key_inj_NoDup rows r' r Hnd Hr' (Hsub r ltac:(by left)) Hk).
      exact HP'. }
  apply Hgen. auto.
Qed.

Lemma files_remove_all_gone vs c k :
  k ∈ map key vs → files (remove_all vs c) !! _get_file_path k = None.
Proof.
  revert c. induction vs as [|v vs IH]; intros c Hk; [by apply elem_of_nil in Hk|].
  cbn in Hk. unfold remove_all in *. cbn.
  destruct (decide (k ∈ map key vs)) as [Hin|Hout]; [by apply IH|].
  apply elem_of_cons in Hk as [->|Hk]; [|done].
  pose proof (files_remove_all vs) as Hkeep. unfold remove_all in Hkeep.
  rewrite Hkeep by exact Hout. cbn. apply lookup_delete_eq.
Qed.

(** What deleting the rows that satisfy [P], key by key, leaves. *)
Lemma remove_matching_cache (P : Row → Prop) `{!∀ r, Decision (P r)} (c : PromptCache) :
  NoDup (map key (entries c)) →
  let c' := remove_all (filter P (entries c)) c in
  entries c' = filter (λ r, ¬ P r) (entries c)
  ∧ (∀ r, r ∈ entries c → P r → files c' !! _get_file_path (key r) = None)
  ∧ (∀ r, r ∈ entries c → ¬ P r →
          files c' !! _get_file_path (key r) = files c !! _get_file_path (key r))
  ∧ max_size_bytes c' = max_size_bytes c.
Proof.
  intros Hnd c'. subst c'. rewrite entries_remove_all, max_size_remove_all.
  split; [by apply filter_keys_of_filter|]. split; [|split; [|reflexivity]].
  - intros r Hr HP. apply files_remove_all_gone.
    apply list_elem_of_In, in_map, list_elem_of_In, list_elem_of_filter. by split.
  - intros r Hr HP. apply files_remove_all.
    intros Hin. apply list_elem_of_In, in_map_iff in Hin as (r' & Hk & Hr').
    apply list_elem_of_In, list_elem_of_filter in Hr' as [HP' Hr'].
    apply HP. by rewrite <- (key_inj_NoDup _ r' r Hnd Hr' Hr Hk).
Qed.

(** X1.  The sweep deletes the rows whose expiry lies before its clock
    reading, with their blobs, and nothing else: it returns their number,
    the rows that stay are the unexpired ones in their old order, and the
    blobs of those are untouched. *)
Theorem cleanup_expired_exact (w : World) :
  let t := clock w (tick w) in
  NoDup (map key (entries (cache w))) →
  ∃ w',
    _cleanup_expired w
    = (Ok (Z.of_nat (length (filter (λ r, expired_at t r = true) (entries (cache w))))), w')
    ∧ entries (cache w') = filter (λ r, expired_at t r ≠ true) (entries (cache w))
    ∧ (∀ r, r ∈ entries (cache w) → expired_at t r = true →
            files (cache w') !! _get_file_path (key r) = None)
    ∧ (∀ r, r ∈ entries (cache w) → expired_at t r ≠ true →
            files (cache w') !! _get_file_path (key r)
            = files (cache w) !! _get_file_path (key r)).
Proof.
  intros t Hnd. unfold _cleanup_expired. run. rewrite remove_each_run.
  eexists. split; [by rewrite Z.add_0_l|]. cbn -[remove_all].
  destruct (remove_matching_cache (λ r, expired_at t r = true) (cache w) Hnd)
    as (Hrows & Hgone & Hkept & _).
  auto.
Qed.

Lemma filter_filter_neg {A} (P : A → Prop) `{!∀ x, Decision (P x)} (l : list A) :
  filter P (filter (λ x, ¬ P x) l) = [].
Proof.
  induction l as [|x l IH]; [reflexivity|].
  rewrite filter_cons. destruct (decide (¬ P x)) as [Hn|Hp]; [|exact IH].
  by rewrite filter_cons_False.
Qed.

(** X2.  [invalidate_by_tags] deletes the entries that carry one of the
    wanted tags, with their blobs, and leaves every other entry and blob
    as it was; it returns how many it deleted, and afterwards no entry
    matches those tags. *)
Theorem invalidate_by_tags_exact (w : World) (wanted : list string) :
  NoDup (map key (entries (cache w))) →
  ∃ w',
    invalidate_by_tags wanted w
    = (Ok (Z.of_nat (length (filter (λ r, shares_tag wanted r = true) (entries (cache w))))),
       w')
    ∧ entries (cache w') = filter (λ r, shares_tag wanted r ≠ true) (entries (cache w))
    ∧ (∀ r, r ∈ entries (cache w) → shares_tag wanted r = true →
            files (cache w') !! _get_file_path (key r) = None)
    ∧ (∀ r, r ∈ entries (cache w) → shares_tag wanted r ≠ true →
            files (cache w') !! _get_file_path (key r)
            = files (cache w) !! _get_file_path (key r))
    ∧ find_by_tags wanted w' = (Ok [], w').
Proof.
  intros Hnd. unfold invalidate_by_tags, find_by_tags. run. rewrite remove_each_run.
  eexists. split; [by rewrite Z.add_0_l|]. cbn -[remove_all].
  destruct (remove_matching_cache (λ r, shares_tag wanted r = true) (cache w) Hnd)
    as (Hrows & Hgone & Hkept & _).
  do 3 (split; [assumption|]). run. rewrite Hrows.
  by rewrite (filter_filter_neg (λ r, shares_tag wanted r = true)).
Qed.

(** Without tags to look for nothing matches and nothing is deleted. *)
Lemma invalidate_no_tags (w : World) :
  ∃ w', invalidate_by_tags [] w = (Ok 0, w') ∧ cache w' = cache w.
Proof.
  unfold invalidate_by_tags, find_by_tags. run.
  match goal with |- context [filter ?P ?l] => assert (filter P l = []) as -> end.
  { induction (entries (cache w)) as [|r l IH]; [reflexivity|].
    by rewrite filter_cons_False. }
  cbn. rewrite ret_run. eexists. split; [reflexivity|]. by destruct w.
Qed.

(** ** Construction *)

Lemma expired_at_false t r :
  expired_at t r ≠ true ↔ ∀ e, expires_at r = Some e → t ≤ e.
Proof.
  unfold expired_at. destruct (expires_at r) as [e|].
  - case_bool_decide as Hlt; split.
    + intros Hne. done.
    + intros Hall. specialize (Hall e eq_refl). lia.
    + intros _ e' [= <-]. lia.
    + discriminate.
  - split; [intros _ e; discriminate | discriminate].
Qed.

Lemma select_by_key_Some (k : string) (rows : list Row) (r : Row) :
  select_by_key k rows = Some r → r ∈ rows ∧ key r = k.
Proof.
  unfold select_by_key. intros H. apply find_some in H as [Hin Hk].
  split; [by apply list_elem_of_In | by apply bool_decide_eq_true in Hk].
Qed.

Lemma select_by_key_NoDup (rows : list Row) (r : Row) :
  NoDup (map key rows) → r ∈ rows → select_by_key (key r) rows = Some r.
Proof.
  intros Hnd Hr. destruct (select_by_key (key r) rows) as [r'|] eqn:Hsel.
  - apply select_by_key_Some in Hsel as [Hr' Hk]. f_equal. by eapply key_inj_NoDup.
  - apply select_by_key_None with (r := r) in Hsel; done.
Qed.

Lemma NoDup_keys_filter (P : Row → Prop) `{!∀ r, Decision (P r)} rows :
  NoDup (map key rows) → NoDup (map key (filter P rows)).
Proof.
  induction rows as [|r rows IH]; intros Hnd; [constructor|].
  cbn in Hnd. apply NoDup_cons in Hnd as [Hr Hnd]. rewrite filter_cons.
  destruct (decide (P r)); [|by apply IH]. cbn. apply NoDup_cons. split; [|by apply IH].
  intros Hin. apply Hr. apply list_elem_of_In, in_map_iff in Hin as (r' & Hk & Hr').
  apply list_elem_of_In, list_elem_of_filter in Hr' as [_ Hr'].
  rewrite <- Hk. apply list_elem_of_In, in_map, list_elem_of_In, Hr'.
Qed.

Lemma default_ttl_remove_all vs c : default_ttl (remove_all vs c) = default_ttl c.
Proof.
  revert c. induction vs as [|v vs IH]; intros c; [reflexivity|].
  unfold remove_all in *. cbn. by rewrite IH.
Qed.

Lemma init_run (w : World) (max_size_mb default_ttl_hours : Z) :
  let c0 := mkCache (max_size_mb * 1024 * 1024) (hours default_ttl_hours)
              (entries (cache w)) (files (cache w)) in
  PromptCache_init max_size_mb default_ttl_hours w
  = (Ok (),
     mkWorld (clock w) (pickled_size w) (pending_faults w) (S (tick w))
       (remove_all (filter (λ r, expired_at (clock w (tick w)) r = true) (entries c0)) c0)
       (calls w)).
Proof.
  unfold PromptCache_init, _cleanup_expired. run. by rewrite remove_each_run.
Qed.

(** X3.  Constructing the cache with a default TTL that is a timedelta
    sets the budget to [max_size_mb] MiB and sweeps what earlier runs
    left: no surviving entry has an expiry before the sweep's clock
    reading, and an entry that is live then and at the next reading is
    still served, payload intact. *)
Theorem init_keeps_live_entries (w : World) (max_size_mb default_ttl_hours : Z) :
  is_timedelta (hours default_ttl_hours) →
  NoDup (map key (entries (cache w))) →
  ∃ w1,
    PromptCache_init max_size_mb default_ttl_hours w = (Ok (), w1)
    ∧ max_size_bytes (cache w1) = max_size_mb * 1048576
    ∧ default_ttl (cache w1) = default_ttl_hours * 3600000000
    ∧ (∀ r e, r ∈ entries (cache w1) → expires_at r = Some e → clock w (tick w) ≤ e)
    ∧ (∀ prompt target_llm optimization_type d,
         let k := _generate_key prompt target_llm optimization_type in
         live_at (clock w (tick w)) (cache w) k d →
         live_at (clock w (S (tick w))) (cache w) k d →
         ∃ w2, get prompt target_llm optimization_type w1 = (Ok (Some d), w2)).
Proof.
  intros _ Hnd. eexists. split; [apply init_run|]. cbv zeta. cbn [cache].
  set (c0 := mkCache _ _ _ _).
  destruct (remove_matching_cache (λ r, expired_at (clock w (tick w)) r = true) c0 Hnd)
    as (Hrows & Hgone & Hkept & Hmax).
  change (entries c0) with (entries (cache w)) in *.
  change (files c0) with (files (cache w)) in *.
  split; [rewrite Hmax; cbn; lia|].
  split; [by rewrite default_ttl_remove_all|].
  split.
  { intros r e Hr He. rewrite Hrows in Hr. apply list_elem_of_filter in Hr as [Hlive _].
    exact (proj1 (expired_at_false _ _) Hlive e He). }
  intros prompt target_llm optimization_type d
    (row & Hsel & Hlive0 & Hfile) (row' & Hsel' & Hlive1 & _).
  assert (row' = row) as -> by congruence.
  apply get_live_run. cbn [clock tick cache].
  apply select_by_key_Some in Hsel as Hrow. destruct Hrow as [Hin Hk].
  assert (expired_at (clock w (tick w)) row ≠ true) as Hun
    by exact (proj2 (expired_at_false _ _) Hlive0).
  exists row. split; [|split].
  - rewrite Hrows, <- Hk. apply select_by_key_NoDup; [by apply NoDup_keys_filter|].
    apply list_elem_of_filter. by split.
  - exact Hlive1.
  - rewrite <- Hk, Hkept by done. by rewrite Hk.
Qed.

(** ** Clearing *)

Lemma substring_full s : String.substring 0 (String.length s) s = s.
Proof. induction s as [|c s IH]; cbn; [reflexivity | by rewrite IH]. Qed.

Lemma substring_append_r k s :
  String.substring (String.length k) (String.length s) (k +:+ s) = s.
Proof.
  induction k as [|c k IH]; [apply substring_full|].
  rewrite append_cons. cbn. exact IH.
Qed.

Lemma get_file_path_is_cache_file k : is_cache_file (_get_file_path k) = true.
Proof.
  unfold is_cache_file, _get_file_path. rewrite append_length. cbn [String.length].
  apply andb_true_intro. split; [apply Nat.leb_le; lia|].
  apply bool_decide_eq_true.
  replace (String.length k + 6 - 6)%nat with (String.length k) by lia.
  apply (substring_append_r k ".cache").
Qed.

(** X4.  [clear_all] leaves an empty store: no metadata row, no cache
    file, total size zero, and every lookup a miss that changes nothing;
    files of the directory that are not cache files stay. *)
Theorem clear_all_empties (w : World) :
  ∃ w',
    clear_all w = (Ok true, w')
    ∧ entries (cache w') = []
    ∧ (∀ k, files (cache w') !! _get_file_path k = None)
    ∧ (∀ name, is_cache_file name = false →
               files (cache w') !! name = files (cache w) !! name)
    ∧ _get_total_size w' = (Ok 0, w')
    ∧ (∀ prompt target_llm optimization_type,
         get prompt target_llm optimization_type w' = (Ok None, w')).
Proof.
  unfold clear_all. run. eexists. split; [reflexivity|]. cbn.
  split; [reflexivity|]. split; [|split; [|split]].
  - intros k. apply map_lookup_filter_None. right. intros x _. cbn.
    by rewrite get_file_path_is_cache_file.
  - intros name Hname. destruct (files (cache w) !! name) as [x|] eqn:Hx.
    + by apply map_lookup_filter_Some.
    + apply map_lookup_filter_None. by left.
  - reflexivity.
  - intros prompt target_llm optimization_type. unfold get. run. reflexivity.
Qed.

(** ** Reads *)

Lemma select_touch_same k t rows row :
  select_by_key k rows = Some row →
  select_by_key k (touch k t rows)
  = Some (mkRow (key row) (created_at row) (expires_at row) (access_count row + 1)
            (Some t) (size_bytes row) (tags row)).
Proof.
  unfold select_by_key, touch. induction rows as [|r rows IH]; [discriminate|]. cbn.
  case_bool_decide as Hk; cbn.
  - rewrite bool_decide_eq_true_2 by exact Hk. by intros [= ->].
  - rewrite bool_decide_eq_false_2 by exact Hk. exact IH.
Qed.

Lemma select_touch_other k k' t rows :
  k' ≠ k → select_by_key k' (touch k t rows) = select_by_key k' rows.
Proof.
  intros Hne. unfold select_by_key, touch. induction rows as [|r rows IH]; [reflexivity|]. cbn.
  destruct (decide (key r = k)) as [Hk|Hk].
  - rewrite (bool_decide_eq_true_2 _ Hk). cbn.
    rewrite !bool_decide_eq_false_2 by congruence. exact IH.
  - rewrite (bool_decide_eq_false_2 _ Hk). by rewrite IH.
Qed.

Lemma select_delete_other k k' rows :
  k' ≠ k → select_by_key k' (delete_by_key k rows) = select_by_key k' rows.
Proof.
  intros Hne. unfold select_by_key, delete_by_key.
  induction rows as [|r rows IH]; [reflexivity|].
  rewrite filter_cons. destruct (decide (key r ≠ k)) as [Hk|Hk]; cbn.
  - by rewrite IH.
  - apply dec_stable in Hk. rewrite bool_decide_eq_false_2 by congruence. exact IH.
Qed.

Lemma sum_size_bytes_touch k t rows : sum_size_bytes (touch k t rows) = sum_size_bytes rows.
Proof.
  unfold touch. induction rows as [|r rows IH]; [reflexivity|]. cbn.
  rewrite IH. by case_bool_decide.
Qed.

(** X5.  A hit is accounted for: the entry read has its access count
    raised by one and its last access set to the clock reading of this
    read; the payload comes back; no other row, no blob and no size
    changes. *)
Theorem get_hit_accounting (w : World) (prompt target_llm optimization_type : string)
    (row : Row) (d : pydict) :
  let k := _generate_key prompt target_llm optimization_type in
  select_by_key k (entries (cache w)) = Some row →
  (∀ e, expires_at row = Some e → clock w (tick w) ≤ e) →
  files (cache w) !! _get_file_path k = Some (Pickled d) →
  ∃ w',
    get prompt target_llm optimization_type w = (Ok (Some d), w')
    ∧ (tick w < tick w')%nat
    ∧ select_by_key k (entries (cache w'))
      = Some (mkRow (key row) (created_at row) (expires_at row) (access_count row + 1)
                (Some (clock w (tick w' - 1))) (size_bytes row) (tags row))
    ∧ (∀ k', k' ≠ k →
             select_by_key k' (entries (cache w')) = select_by_key k' (entries (cache w)))
    ∧ files (cache w') = files (cache w)
    ∧ sum_size_bytes (entries (cache w')) = sum_size_bytes (entries (cache w)).
Proof.
  intros k Hrow Hlive Hfile. unfold get. fold k. run. rewrite Hrow.
  destruct (expires_at row) as [e|] eqn:He; run.
  - rewrite bool_decide_eq_false_2 by (specialize (Hlive e eq_refl); lia).
    run. rewrite Hfile. eexists. split; [reflexivity|]. cbn.
    split; [lia|].
    split; [etrans; [apply (select_touch_same k _ _ row Hrow) | by rewrite He]|].
    split; [intros k' Hk'; by apply select_touch_other|].
    split; [reflexivity | apply sum_size_bytes_touch].
  - rewrite Hfile. eexists. split; [reflexivity|]. cbn. rewrite Nat.sub_0_r.
    split; [lia|].
    split; [etrans; [apply (select_touch_same k _ _ row Hrow) | by rewrite He]|].
    split; [intros k' Hk'; by apply select_touch_other|].
    split; [reflexivity | apply sum_size_bytes_touch].
Qed.

(** X6.  Two kinds of miss.  A key the table does not hold: [None], and
    nothing is read or changed.  A row whose blob is missing or cannot be
    unpickled: [None] again, and the row and what is left of the blob are
    deleted, every other entry staying as it was. *)
Theorem get_miss_behaviour (w : World) (prompt target_llm optimization_type : string) :
  let k := _generate_key prompt target_llm optimization_type in
  (select_by_key k (entries (cache w)) = None →
   get prompt target_llm optimization_type w = (Ok None, w))
  ∧ (∀ row,
       select_by_key k (entries (cache w)) = Some row →
       (∀ e, expires_at row = Some e → clock w (tick w) ≤ e) →
       files (cache w) !! _get_file_path k = None
       ∨ files (cache w) !! _get_file_path k = Some Truncated →
       ∃ w',
         get prompt target_llm optimization_type w = (Ok None, w')
         ∧ select_by_key k (entries (cache w')) = None
         ∧ files (cache w') !! _get_file_path k = None
         ∧ (∀ k', k' ≠ k →
              select_by_key k' (entries (cache w')) = select_by_key k' (entries (cache w))
              ∧ files (cache w') !! _get_file_path k'
                = files (cache w) !! _get_file_path k')).
Proof.
  intros k. split.
  - intros Hnone. unfold get. fold k. run. rewrite Hnone. by destruct w.
  - intros row Hrow Hlive Hfile. unfold get. fold k. run. rewrite Hrow.
    assert (∀ t w0,
      cache w0 = cache w →
      ∃ w',
        (modify_cache (with_entries (touch k t));;
         c' ← read_cache;
         match files c' !! _get_file_path k with
         | Some (Pickled cached_data) => mret (Some cached_data)
         | _ => _remove_entry k;; mret None
         end) w0 = (Ok None, w')
        ∧ select_by_key k (entries (cache w')) = None
        ∧ files (cache w') !! _get_file_path k = None
        ∧ (∀ k', k' ≠ k →
             select_by_key k' (entries (cache w')) = select_by_key k' (entries (cache w))
             ∧ files (cache w') !! _get_file_path k'
               = files (cache w) !! _get_file_path k')) as Hheal.
    { intros t w0 Hc. run. rewrite Hc.
      destruct Hfile as [-> | ->]; run;
        (eexists; split; [reflexivity|]; cbn; rewrite Hc;
         split; [apply select_delete_by_key|];
         split; [apply lookup_delete_eq|];
         intros k' Hk'; split;
           [etrans; [apply (select_delete_other k k' _ Hk')
                    |apply (select_touch_other k k' _ _ Hk')]
           |apply lookup_delete_ne; intros Heq; apply Hk'; symmetry;
            by apply get_file_path_inj]). }
    destruct (expires_at row) as [e|] eqn:He; run.
    + rewrite bool_decide_eq_false_2 by (specialize (Hlive e eq_refl); lia). run.
      match goal with |- context [clock w (S (tick w))] =>
        destruct (Hheal (clock w (S (tick w)))
                    (mkWorld (clock w) (pickled_size w) (pending_faults w)
                       (S (S (tick w))) (cache w) (calls w)) eq_refl) as (w' & Hrun & Hrest)
      end.
      revert Hrun. run. intros Hrun. destruct Hfile as [Hf|Hf]; rewrite Hf in Hrun |- *;
        revert Hrun; run; intros Hrun; exists w'; by split.
    + destruct (Hheal (clock w (tick w))
                  (mkWorld (clock w) (pickled_size w) (pending_faults w)
                     (S (tick w)) (cache w) (calls w)) eq_refl) as (w' & Hrun & Hrest).
      revert Hrun. run. intros Hrun. destruct Hfile as [Hf|Hf]; rewrite Hf in Hrun |- *;
        revert Hrun; run; intros Hrun; exists w'; by split.
Qed.

(** ** Writes *)

Lemma elem_of_insert_or_replace (row r : Row) (rows : list Row) :
  r ∈ insert_or_replace row rows → r = row ∨ (r ∈ rows ∧ key r ≠ key row).
Proof.
  unfold insert_or_replace, delete_by_key. rewrite elem_of_app, list_elem_of_filter.
  intros [[Hk Hr]|Hr%list_elem_of_singleton]; [right; by split | by left].
Qed.

(** X7.  A [set] whose expiry is a datetime and that meets no I/O
    failure writes a fresh row: created at the clock reading of the call,
    expiring one TTL later, access count zero and no last access, whatever
    the history of the entry it replaces.  Such a row precedes or ties
    with every other row in the eviction order. *)
Theorem set_resets_statistics (w : World) (prompt target_llm : string) (data : pydict)
    (optimization_type : string) (ttl_hours : option Z) (tags : list string) :
  let c := cache w in
  let t := clock w (tick w) in
  let k := _generate_key prompt target_llm optimization_type in
  let new_row := mkRow k t (Some (expiry c t ttl_hours)) 0 None (pickled_size w data) tags in
  hd NoFault (pending_faults w) = NoFault →
  expiry_representable c t ttl_hours →
  ∃ w',
    set prompt target_llm data optimization_type ttl_hours tags w = (Ok true, w')
    ∧ select_by_key k (entries (cache w')) = Some new_row
    ∧ (Forall (λ r, 0 ≤ access_count r) (entries c) →
       ∀ r, r ∈ entries (cache w') → lru_le new_row r).
Proof.
  intros c t k new_row Hf _. eexists. split; [by apply set_nofault_run|].
  cbn [cache]. rewrite entries_cache_after_set. fold c t k new_row.
  split; [apply (select_insert_or_replace new_row)|].
  intros Hcount r Hr. apply elem_of_insert_or_replace in Hr as [->|[Hr _]].
  - destruct (lru_le_total new_row new_row); assumption.
  - assert (r ∈ entries c) as Hin.
    { case_bool_decide; [by apply list_elem_of_filter in Hr as [_ ?] | exact Hr]. }
    rewrite Forall_forall in Hcount. specialize (Hcount r Hin).
    unfold lru_le, lru_leb. cbn. repeat case_bool_decide; cbn; try done; lia.
Qed.

Lemma sum_size_bytes_delete k rows :
  Forall (λ r, 0 ≤ size_bytes r) rows →
  sum_size_bytes (delete_by_key k rows) ≤ sum_size_bytes rows.
Proof. intros Hnn. apply (sum_size_bytes_filter (λ r, key r ≠ k) rows Hnn). Qed.

Lemma Forall_filter_rows (Q : Row → Prop) (P : Row → Prop) `{!∀ r, Decision (P r)} rows :
  Forall Q rows → Forall Q (filter P rows).
Proof.
  rewrite !Forall_forall. intros HQ r [_ Hr]%list_elem_of_filter. by apply HQ.
Qed.


Lemma max_size_cache_after_set c k data t expires size tags :
  max_size_bytes (cache_after_set c k data t expires size tags) = max_size_bytes c.
Proof.
  unfold cache_after_set. cbn. case_bool_decide; [by rewrite max_size_remove_all | reflexivity].
Qed.

Lemma set_nofault_max w prompt target_llm data optimization_type ttl_hours tags :
  hd NoFault (pending_faults w) = NoFault →
  max_size_bytes (cache (set prompt target_llm data optimization_type ttl_hours tags w).2)
  = max_size_bytes (cache w).
Proof.
  intros Hf. rewrite (set_nofault_run _ _ _ _ _ _ _ Hf). apply max_size_cache_after_set.
Qed.


(** ** Invariants of the store *)

Lemma set_final_cache (w : World) (prompt target_llm : string) (data : pydict)
    (optimization_type : string) (ttl_hours : option Z) (tags : list string) :
  let c := cache w in
  let t := clock w (tick w) in
  let k := _generate_key prompt target_llm optimization_type in
  let size := pickled_size w data in
  let new_row := mkRow k t (Some (expiry c t ttl_hours)) 0 None size tags in
  let written x := with_files (<[_get_file_path k := x]>) c in
  let vs := if bool_decide (max_size_bytes c < sum_size_bytes (entries c) + size)
            then victims (lru_order (entries c)) size 0 else [] in
  cache (set prompt target_llm data optimization_type ttl_hours tags w).2
  = match hd NoFault (pending_faults w) with
    | NoFault =>
        with_entries (insert_or_replace new_row) (remove_all vs (written (Pickled data)))
    | DumpFails => with_files (delete (_get_file_path k)) (written Truncated)
    | StatFails => with_files (delete (_get_file_path k)) (written (Pickled data))
    | InsertFails =>
        let c2 := remove_all vs (written (Pickled data)) in
        if bool_decide (is_Some (files c2 !! _get_file_path k))
        then with_files (delete (_get_file_path k)) c2 else c2
    end.
Proof.
  intros c t k size new_row written vs.
  destruct (hd NoFault (pending_faults w)) eqn:Hf.
  - rewrite (set_nofault_run _ _ _ _ _ _ _ Hf). cbn [snd cache].
    unfold cache_after_set. fold c k size t. subst vs. case_bool_decide; reflexivity.
  - unfold set. fold k. run. rewrite Hf. run.
    rewrite lookup_insert_eq, bool_decide_eq_true_2 by (by eexists). reflexivity.
  - unfold set. fold k. run. rewrite Hf. run.
    rewrite lookup_insert_eq, bool_decide_eq_true_2 by (by eexists). reflexivity.
  - unfold set. fold k. run. rewrite Hf. run. subst vs written c size. cbv beta.
    case_bool_decide as Hover; run.
    + unfold _cleanup_by_size. run. rewrite evict_loop_run. run.
      unfold lru_order, order_by. case_bool_decide as Hthere; run; reflexivity.
    + unfold remove_all. cbn [foldl files with_files].
      rewrite !lookup_insert_eq, !bool_decide_eq_true_2 by (by eexists). reflexivity.
Qed.

Lemma select_filter_keys (k : string) (ks : list string) (rows : list Row) :
  k ∉ ks → select_by_key k (filter (λ r, key r ∉ ks) rows) = select_by_key k rows.
Proof.
  intros Hk. unfold select_by_key. induction rows as [|r rows IH]; [reflexivity|].
  destruct (decide (key r ∉ ks)) as [Hin|Hin].
  - rewrite filter_cons_True by exact Hin. cbn. by rewrite IH.
  - rewrite filter_cons_False by exact Hin. cbn.
    rewrite bool_decide_eq_false_2; [exact IH|]. intros Heq. apply Hin. by rewrite Heq.
Qed.

Lemma keys_touch k t rows : map key (touch k t rows) = map key rows.
Proof.
  unfold touch. induction rows as [|r rows IH]; [reflexivity|]. cbn.
  rewrite IH. by case_bool_decide.
Qed.

Lemma select_touch_is_Some k k' t rows :
  is_Some (select_by_key k' rows) → is_Some (select_by_key k' (touch k t rows)).
Proof.
  intros [row Hrow]. destruct (decide (k' = k)) as [->|Hne].
  - rewrite (select_touch_same _ _ _ _ Hrow). by eexists.
  - rewrite select_touch_other by exact Hne. by eexists.
Qed.

Lemma consistent_weaken k c : cache_consistent c → consistent_but k c.
Proof. intros [Hnd Hfiles]. split; [exact Hnd | intros k' _; apply Hfiles]. Qed.

Lemma consistent_but_write k x c :
  cache_consistent c → consistent_but k (with_files (<[_get_file_path k := x]>) c).
Proof.
  intros [Hnd Hfiles]. split; [exact Hnd|]. intros k' Hne. cbn.
  rewrite lookup_insert_ne; [apply Hfiles|].
  intros Heq. apply Hne. symmetry. by apply get_file_path_inj.
Qed.

Lemma consistent_but_remove_all k vs c :
  consistent_but k c → consistent_but k (remove_all vs c).
Proof.
  intros [Hnd Hfiles]. split.
  - rewrite entries_remove_all. by apply NoDup_keys_filter.
  - intros k' Hne Hsome. rewrite entries_remove_all.
    destruct (decide (k' ∈ map key vs)) as [Hin|Hout].
    + rewrite files_remove_all_gone in Hsome by exact Hin. by destruct Hsome.
    + rewrite files_remove_all in Hsome by exact Hout.
      rewrite select_filter_keys by exact Hout. by apply Hfiles.
Qed.

Lemma consistent_remove_all vs c : cache_consistent c → cache_consistent (remove_all vs c).
Proof.
  intros [Hnd Hfiles]. split.
  - rewrite entries_remove_all. by apply NoDup_keys_filter.
  - intros k' Hsome. rewrite entries_remove_all.
    destruct (decide (k' ∈ map key vs)) as [Hin|Hout].
    + rewrite files_remove_all_gone in Hsome by exact Hin. by destruct Hsome.
    + rewrite files_remove_all in Hsome by exact Hout.
      rewrite select_filter_keys by exact Hout. by apply Hfiles.
Qed.

Lemma NoDup_keys_insert_or_replace row rows :
  NoDup (map key rows) → NoDup (map key (insert_or_replace row rows)).
Proof.
  intros Hnd. unfold insert_or_replace. rewrite map_app. apply NoDup_app.
  split; [by apply NoDup_keys_filter|]. split; [|cbn; apply NoDup_singleton].
  intros k Hk Hin. cbn in Hin. apply list_elem_of_singleton in Hin as ->.
  apply list_elem_of_In, in_map_iff in Hk as (r & Hkey & Hr).
  apply list_elem_of_In, list_elem_of_filter in Hr as [Hne _]. done.
Qed.

Lemma select_snoc_other (k : string) (row : Row) (rows : list Row) :
  k ≠ key row → select_by_key k (rows ++ [row]) = select_by_key k rows.
Proof.
  intros Hne. unfold select_by_key. induction rows as [|r rows IH]; cbn.
  - by rewrite bool_decide_eq_false_2.
  - by rewrite IH.
Qed.

Lemma select_insert_or_replace_other row rows k :
  k ≠ key row → select_by_key k (insert_or_replace row rows) = select_by_key k rows.
Proof.
  intros Hne. unfold insert_or_replace.
  rewrite select_snoc_other by exact Hne. by apply select_delete_other.
Qed.

Lemma consistent_but_store k row c :
  key row = k → consistent_but k c →
  cache_consistent (with_entries (insert_or_replace row) c).
Proof.
  intros Hk [Hnd Hfiles]. split.
  - by apply NoDup_keys_insert_or_replace.
  - intros k' Hsome.
    change (is_Some (select_by_key k' (insert_or_replace row (entries c)))).
    destruct (decide (k' = k)) as [->|Hne].
    + rewrite <- Hk, select_insert_or_replace. by eexists.
    + rewrite select_insert_or_replace_other by congruence. by apply Hfiles.
Qed.

Lemma consistent_but_unlink k c :
  consistent_but k c → cache_consistent (with_files (delete (_get_file_path k)) c).
Proof.
  intros [Hnd Hfiles]. split; [exact Hnd|]. intros k' Hsome. cbn in *.
  destruct (decide (k' = k)) as [->|Hne].
  - rewrite lookup_delete_eq in Hsome. by destruct Hsome.
  - rewrite lookup_delete_ne in Hsome; [by apply Hfiles|].
    intros Heq. apply Hne. symmetry. by apply get_file_path_inj.
Qed.

Lemma consistent_but_absent k c :
  consistent_but k c → ¬ is_Some (files c !! _get_file_path k) → cache_consistent c.
Proof.
  intros [Hnd Hfiles] Hnone. split; [exact Hnd|]. intros k' Hsome.
  destruct (decide (k' = k)) as [->|Hne]; [done | by apply Hfiles].
Qed.

Lemma consistent_touch k t c :
  cache_consistent c → cache_consistent (with_entries (touch k t) c).
Proof.
  intros [Hnd Hfiles]. split.
  - change (NoDup (map key (touch k t (entries c)))). by rewrite keys_touch.
  - intros k' Hsome. by apply select_touch_is_Some, Hfiles.
Qed.

Lemma consistent_remove k c :
  cache_consistent c →
  cache_consistent (with_files (delete (_get_file_path k)) (with_entries (delete_by_key k) c)).
Proof.
  intros Hc.
  apply (consistent_remove_all [mkRow k 0 None 0 None 0 []] c Hc).
Qed.

Lemma consistent_set w prompt target_llm data optimization_type ttl_hours tags :
  cache_consistent (cache w) →
  cache_consistent (cache (set prompt target_llm data optimization_type ttl_hours tags w).2).
Proof.
  intros Hc. rewrite set_final_cache. cbv zeta.
  destruct (hd NoFault (pending_faults w)).
  - apply (consistent_but_store (_generate_key prompt target_llm optimization_type));
      [reflexivity|].
    by apply consistent_but_remove_all, consistent_but_write.
  - by apply consistent_but_unlink, consistent_but_write.
  - by apply consistent_but_unlink, consistent_but_write.
  - case_bool_decide as Hsome.
    + by apply consistent_but_unlink, consistent_but_remove_all, consistent_but_write.
    + eapply consistent_but_absent; [|exact Hsome].
      by apply consistent_but_remove_all, consistent_but_write.
Qed.

Lemma consistent_get w prompt target_llm optimization_type :
  cache_consistent (cache w) →
  cache_consistent (cache (get prompt target_llm optimization_type w).2).
Proof.
  intros Hc. unfold get. run.
  destruct (select_by_key _ _) as [row|]; run; [|exact Hc].
  destruct (expires_at row) as [e|]; run.
  - case_bool_decide; run; [by apply consistent_remove|].
    destruct (files (cache w) !! _) as [[d|]|]; run;
      [by apply consistent_touch | |];
      by apply (consistent_remove _ (with_entries (touch _ _) (cache w))), consistent_touch.
  - destruct (files (cache w) !! _) as [[d|]|]; run;
      [by apply consistent_touch | |];
      by apply (consistent_remove _ (with_entries (touch _ _) (cache w))), consistent_touch.
Qed.

(** X9.  One row per key, and no cache file without a row: the
    constructor, [get], [set] (whether it succeeds or fails), tag
    invalidation, the sweep and [clear_all] all keep the store that way. *)
Theorem store_stays_consistent (w : World) :
  cache_consistent (cache w) →
  (∀ prompt target_llm optimization_type,
     cache_consistent (cache (get prompt target_llm optimization_type w).2))
  ∧ (∀ prompt target_llm data optimization_type ttl_hours tags,
       cache_consistent
         (cache (set prompt target_llm data optimization_type ttl_hours tags w).2))
  ∧ (∀ wanted, cache_consistent (cache (invalidate_by_tags wanted w).2))
  ∧ cache_consistent (cache (_cleanup_expired w).2)
  ∧ cache_consistent (cache (clear_all w).2)
  ∧ (∀ max_size_mb default_ttl_hours,
       cache_consistent (cache (PromptCache_init max_size_mb default_ttl_hours w).2)).
Proof.
  intros Hc. split; [intros; by apply consistent_get|].
  split; [intros; by apply consistent_set|].
  split; [|split; [|split]].
  - intros wanted. unfold invalidate_by_tags, find_by_tags. run.
    rewrite remove_each_run. by apply consistent_remove_all.
  - unfold _cleanup_expired. run. rewrite remove_each_run. by apply consistent_remove_all.
  - unfold clear_all. run. split; cbn; [constructor|].
    intros k [x Hx]. apply map_lookup_filter_Some in Hx as [_ Hx]. cbn in Hx.
    by rewrite get_file_path_is_cache_file in Hx.
  - intros max_size_mb default_ttl_hours. rewrite init_run. cbn [snd cache].
    apply consistent_remove_all. exact Hc.
Qed.

Lemma budget_remove_all vs c : within_budget c → within_budget (remove_all vs c).
Proof.
  intros [Hnn Hsum]. split; rewrite entries_remove_all.
  - by apply Forall_filter_rows.
  - rewrite max_size_remove_all.
    pose proof (sum_size_bytes_filter (λ r, key r ∉ map key vs) _ Hnn). lia.
Qed.

Lemma size_bytes_touch k t rows :
  Forall (λ r, 0 ≤ size_bytes r) rows → Forall (λ r, 0 ≤ size_bytes r) (touch k t rows).
Proof.
  unfold touch. induction 1 as [|r rows Hr _ IH]; cbn; [constructor|].
  constructor; [by case_bool_decide | exact IH].
Qed.

Lemma budget_touch k t c : within_budget c → within_budget (with_entries (touch k t) c).
Proof.
  intros [Hnn Hsum]. split.
  - by apply size_bytes_touch.
  - change (sum_size_bytes (touch k t (entries c)) ≤ max_size_bytes c).
    by rewrite sum_size_bytes_touch.
Qed.

Lemma budget_remove k c :
  within_budget c →
  within_budget (with_files (delete (_get_file_path k)) (with_entries (delete_by_key k) c)).
Proof.
  intros Hb. apply (budget_remove_all [mkRow k 0 None 0 None 0 []] c Hb).
Qed.

Lemma budget_get w prompt target_llm optimization_type :
  within_budget (cache w) →
  within_budget (cache (get prompt target_llm optimization_type w).2).
Proof.
  intros Hb. unfold get. run.
  destruct (select_by_key _ _) as [row|]; run; [|exact Hb].
  destruct (expires_at row) as [e|]; run.
  - case_bool_decide; run; [by apply budget_remove|].
    destruct (files (cache w) !! _) as [[d|]|]; run;
      [by apply budget_touch | |];
      by apply (budget_remove _ (with_entries (touch _ _) (cache w))), budget_touch.
  - destruct (files (cache w) !! _) as [[d|]|]; run;
      [by apply budget_touch | |];
      by apply (budget_remove _ (with_entries (touch _ _) (cache w))), budget_touch.
Qed.

Lemma budget_set w prompt target_llm data optimization_type ttl_hours tags :
  within_budget (cache w) →
  0 ≤ pickled_size w data ≤ max_size_bytes (cache w) →
  within_budget (cache (set prompt target_llm data optimization_type ttl_hours tags w).2).
Proof.
  intros Hb [Hpos Hfits]. destruct (hd NoFault (pending_faults w)) eqn:Hf.
  - destruct Hb as [Hnn Hsum]. split.
    + rewrite (set_nofault_run _ _ _ _ _ _ _ Hf). cbn [snd cache].
      rewrite entries_cache_after_set. apply Forall_forall.
      intros r [->|[Hr _]]%elem_of_insert_or_replace; [exact Hpos|].
      rewrite Forall_forall in Hnn. apply Hnn.
      case_bool_decide; [by apply list_elem_of_filter in Hr as [_ Hr] | exact Hr].
    + rewrite set_nofault_max by exact Hf.
      destruct (decide (max_size_bytes (cache w)
                        < sum_size_bytes (entries (cache w)) + pickled_size w data))
        as [Hover|Hroom].
      * destruct (set_evicts_lru_prefix w prompt target_llm data optimization_type
                    ttl_hours tags Hf Hover) as (n & w' & -> & _ & _ & _ & _ & _ & _ & Hle).
        by apply Hle.
      * rewrite (set_nofault_run _ _ _ _ _ _ _ Hf). cbn [snd cache].
        rewrite entries_cache_after_set, bool_decide_eq_false_2 by exact Hroom.
        etrans; [apply sum_insert_or_replace, Hnn|]. cbn [size_bytes]. lia.
  - rewrite set_final_cache, Hf. exact Hb.
  - rewrite set_final_cache, Hf. exact Hb.
  - rewrite set_final_cache, Hf. cbv zeta.
    case_bool_decide; by apply budget_remove_all.
Qed.

(** X10.  The size budget is an invariant for entries that fit it: if no
    stored size is negative and the table's total is within
    [max_size_bytes], then it still is after any [get], after any [set]
    of data whose pickled size lies between zero and the budget
    (whichever step of that [set] fails), after tag invalidation and
    after the sweep. *)
Theorem budget_respected (w : World) :
  within_budget (cache w) →
  (∀ prompt target_llm optimization_type,
     within_budget (cache (get prompt target_llm optimization_type w).2))
  ∧ (∀ prompt target_llm data optimization_type ttl_hours tags,
       0 ≤ pickled_size w data ≤ max_size_bytes (cache w) →
       within_budget
         (cache (set prompt target_llm data optimization_type ttl_hours tags w).2))
  ∧ (∀ wanted, within_budget (cache (invalidate_by_tags wanted w).2))
  ∧ within_budget (cache (_cleanup_expired w).2).
Proof.
  intros Hb. split; [intros; by apply budget_get|].
  split; [intros; by apply budget_set|]. split.
  - intros wanted. unfold invalidate_by_tags, find_by_tags. run.
    rewrite remove_each_run. by apply budget_remove_all.
  - unfold _cleanup_expired. run. rewrite remove_each_run. by apply budget_remove_all.
Qed.

(** ** The cache on sample data *)

Lemma tagged_keys_distinct : NoDup (map key (entries (cache world_tagged))).
Proof. apply (bool_decide_unpack _). vm_compute. exact I. Qed.

(** The sweep over three entries, one of them expired. *)
Lemma cleanup_expired_exact_witness :
  ∃ w', _cleanup_expired world_tagged = (Ok 1, w')
        ∧ entries (cache w')
          = [tagged_row "p2" (hours 24) ["news"; "sport"]; tagged_row "p3" (hours 24) ["sport"]].
Proof.
  destruct (cleanup_expired_exact world_tagged tagged_keys_distinct)
    as (w' & Hrun & Hrows & _).
  exists w'. split; [exact Hrun | exact Hrows].
Defined.

(** Invalidating one tag out of two. *)
Lemma invalidate_by_tags_exact_witness :
  ∃ w', invalidate_by_tags ["news"] world_tagged = (Ok 2, w')
        ∧ entries (cache w') = [tagged_row "p3" (hours 24) ["sport"]]
        ∧ find_by_tags ["news"] w' = (Ok [], w').
Proof.
  destruct (invalidate_by_tags_exact world_tagged ["news"] tagged_keys_distinct)
    as (w' & Hrun & Hrows & _ & _ & Hnone).
  exists w'. split; [exact Hrun|]. split; [exact Hrows | exact Hnone].
Defined.

(** A one-mebibyte cache opened over the same three entries. *)
Lemma init_keeps_live_entries_witness :
  ∃ w1, PromptCache_init 1 24 world_tagged = (Ok (), w1)
        ∧ max_size_bytes (cache w1) = 1048576
        ∧ default_ttl (cache w1) = 86400000000.
Proof.
  destruct (init_keeps_live_entries world_tagged 1 24 ltac:(by vm_compute)
              tagged_keys_distinct)
    as (w1 & Hrun & Hmax & Httl & _).
  exists w1. split; [exact Hrun|]. split; [exact Hmax | exact Httl].
Defined.

(** A hit on the one entry of the sample cache. *)
Lemma get_hit_accounting_witness :
  ∃ w', get "p1" "claude" "default" world_one_large = (Ok (Some old_payload), w')
        ∧ select_by_key (sample_key "p1") (entries (cache w'))
          = Some (sample_row "p1" (hours 24) 1 (Some 1001) 800)
        ∧ files (cache w') = files (cache world_one_large).
Proof.
  destruct (get_hit_accounting world_one_large "p1" "claude" "default"
              (sample_row "p1" (hours 24) 0 None 800) old_payload)
    as (w' & Hrun & Htick & Hrow & _ & Hfiles & _).
  - vm_compute. reflexivity.
  - intros e [= <-]. vm_compute. discriminate.
  - vm_compute. reflexivity.
  - exists w'. split; [exact Hrun|]. split; [|exact Hfiles].
    etrans; [exact Hrow|].
    assert (w' = (get "p1" "claude" "default" world_one_large).2) as ->
      by (by rewrite Hrun).
    vm_compute. reflexivity.
Defined.

(** A row whose cache file was cut short. *)
Lemma get_miss_behaviour_witness :
  ∃ w', get "p1" "claude" "default" world_truncated = (Ok None, w')
        ∧ select_by_key (sample_key "p1") (entries (cache w')) = None
        ∧ files (cache w') !! _get_file_path (sample_key "p1") = None.
Proof.
  destruct (proj2 (get_miss_behaviour world_truncated "p1" "claude" "default")
              (sample_row "p1" (hours 24) 0 None 400))
    as (w' & Hrun & Hrow & Hfile & _).
  - vm_compute. reflexivity.
  - intros e [= <-]. vm_compute. discriminate.
  - right. vm_compute. reflexivity.
  - exists w'. split; [exact Hrun|]. split; [exact Hrow | exact Hfile].
Defined.

(** Re-storing an entry that had been read twice. *)
Lemma set_resets_statistics_witness :
  ∃ w', set "p1" "claude" new_payload "default" (Some 1) [] world_three_full = (Ok true, w')
        ∧ select_by_key (sample_key "p1") (entries (cache w'))
          = Some (mkRow (sample_key "p1") 1000 (Some (1000 + hours 1)) 0 None 400 []).
Proof.
  destruct (set_resets_statistics world_three_full "p1" "claude" new_payload "default"
              (Some 1) [] eq_refl ltac:(split; by vm_compute))
    as (w' & Hrun & Hrow & _).
  exists w'. split; [exact Hrun | exact Hrow].
Defined.



Lemma consistent_single (budget ttl : Z) (row : Row) (x : FileContent) :
  cache_consistent (mkCache budget ttl [row] (list_to_map [(_get_file_path (key row), x)])).
Proof.
  split; [apply NoDup_singleton|]. intros k [y Hy]. cbn [files list_to_map foldr] in Hy.
  apply lookup_insert_Some in Hy as [[Heq _]|[_ Hy]]; [|by rewrite lookup_empty in Hy].
  apply get_file_path_inj in Heq as <-.
  change (is_Some (select_by_key (key row) (insert_or_replace row []))).
  rewrite select_insert_or_replace. by eexists.
Qed.

(** A second entry stored into the one-entry sample cache. *)
Lemma store_stays_consistent_witness :
  cache_consistent
    (cache (set "p2" "claude" new_payload "default" None [] world_one_large).2).
Proof.
  apply (proj1 (proj2 (store_stays_consistent world_one_large
           (consistent_single 1200 (hours 24) (sample_row "p1" (hours 24) 0 None 800)
              (Pickled old_payload))))).
Defined.
Lemma three_full_within_budget : within_budget (cache world_three_full).
Proof. split; [repeat constructor; by vm_compute | by vm_compute]. Qed.

(** A fourth entry put into the full sample cache. *)
Lemma budget_respected_witness :
  within_budget
    (cache (set "p4" "claude" new_payload "default" (Some 1) [] world_three_full).2).
Proof.
  apply (proj1 (proj2 (budget_respected world_three_full three_full_within_budget))).
  split; by vm_compute.
Defined.

(** ** The batch report, whatever the callback does *)

Lemma collect_one_any co enable_analysis enable_cache progress_callback report progress item w :
  ∃ result report' w',
    collect_one co enable_analysis enable_cache progress_callback (report, progress) item w
    = (Ok (report', ProgressTracker.update progress 1), w')
    ∧ BatchResult.item_id result = BatchItem.id item
    ∧ (report' = add_result report item result
       ∨ ∃ e, report' = critical_error (add_result report item result) item e).
Proof.
  unfold collect_one. rewrite bind_run. cbn -[_process_single_item].
  destruct (process_single_item_returns co item enable_analysis enable_cache w)
    as (r & w1 & Hrun & Hid).
  rewrite Hrun. cbn -[_process_single_item]. exists r.
  destruct progress_callback as [callback|]; [|eexists _, _; eauto].
  rewrite bind_run. cbn -[ProgressTracker.get_progress].
  destruct ((p ← ProgressTracker.get_progress (ProgressTracker.update progress 1);
             lift_outcome (callback p)) w1) as [[p|e] w2];
    eexists _, _; eauto.
Qed.

Lemma failed_count (results : list BatchResult.t) :
  (length (filter (λ r, BatchResult.success r = true) results)
   + length (filter (λ r, BatchResult.success r ≠ true) results))%nat
  = length results.
Proof.
  induction results as [|r results IH]; [reflexivity|].
  rewrite !filter_cons.
  destruct (decide (BatchResult.success r = true)), (decide (BatchResult.success r ≠ true));
    cbn; try lia; done.
Qed.

Lemma collect_any co enable_analysis enable_cache progress_callback completed report progress w :
  ∃ (rs : list BatchResult.t) report' progress' w',
    collect co enable_analysis enable_cache progress_callback completed (report, progress) w
    = (Ok (report', progress'), w')
    ∧ BatchReport.results report' = BatchReport.results report ++ rs
    ∧ map BatchResult.item_id rs = map BatchItem.id completed
    ∧ BatchReport.processed_items report'
      = BatchReport.processed_items report + Z.of_nat (length completed)
    ∧ BatchReport.successful_items report'
      = BatchReport.successful_items report
        + Z.of_nat (length (filter (λ r, BatchResult.success r = true) rs))
    ∧ BatchReport.failed_items report
      + Z.of_nat (length (filter (λ r, BatchResult.success r ≠ true) rs))
      ≤ BatchReport.failed_items report'
      ≤ BatchReport.failed_items report
        + Z.of_nat (length (filter (λ r, BatchResult.success r ≠ true) rs))
        + Z.of_nat (length completed)
    ∧ Z.of_nat (length (BatchReport.errors report'))
      - Z.of_nat (length (BatchReport.errors report))
      ≤ BatchReport.failed_items report' - BatchReport.failed_items report
    ∧ BatchReport.total_items report' = BatchReport.total_items report
    ∧ BatchReport.batch_id report' = BatchReport.batch_id report
    ∧ BatchReport.started_at report' = BatchReport.started_at report.
Proof.
  revert report progress w. induction completed as [|item rest IH]; intros report progress w.
  - exists [], report, progress, w. cbn. rewrite app_nil_r. repeat split; lia.
  - cbn [collect]. rewrite bind_run.
    destruct (collect_one_any co enable_analysis enable_cache progress_callback
                report progress item w) as (result & report1 & w1 & -> & Hid & Hrep).
    destruct (IH report1 (ProgressTracker.update progress 1) w1)
      as (rs & report' & progress' & w' & -> & Hres & Hids & Hp & Hs & Hf & He & Ht & Hb & Hst).
    exists (result :: rs), report', progress', w'. split; [reflexivity|].
    assert (BatchReport.results report1 = BatchReport.results report ++ [result]
            ∧ BatchReport.processed_items report1 = BatchReport.processed_items report + 1
            ∧ BatchReport.successful_items report1
              = BatchReport.successful_items report
                + (if BatchResult.success result then 1 else 0)
            ∧ BatchReport.failed_items report
              + (if BatchResult.success result then 0 else 1)
              ≤ BatchReport.failed_items report1
              ≤ BatchReport.failed_items report
                + (if BatchResult.success result then 0 else 1) + 1
            ∧ Z.of_nat (length (BatchReport.errors report1))
              - Z.of_nat (length (BatchReport.errors report))
              ≤ BatchReport.failed_items report1 - BatchReport.failed_items report
            ∧ BatchReport.total_items report1 = BatchReport.total_items report
            ∧ BatchReport.batch_id report1 = BatchReport.batch_id report
            ∧ BatchReport.started_at report1 = BatchReport.started_at report)
      as (Hres1 & Hp1 & Hs1 & Hf1 & He1 & Ht1 & Hb1 & Hst1).
    { destruct Hrep as [->|[e ->]]; cbn;
        destruct (BatchResult.success result);
        try destruct (BatchResult.error_message result) as [[|? ?]|];
        rewrite ?length_app; cbn; repeat split; lia. }
    rewrite Hres, Hres1, <- app_assoc. split; [reflexivity|].
    split; [cbn; by rewrite Hid, Hids|].
    rewrite Ht, Hb, Hst, Ht1, Hb1, Hst1, Hp, Hp1, Hs, Hs1. cbn [length].
    rewrite !filter_cons.
    destruct (BatchResult.success result) eqn:Hok;
      destruct (decide (true = true)); destruct (decide (true ≠ true));
      destruct (decide (false = true)); destruct (decide (false ≠ true));
      try done; cbn [length]; repeat split; lia.
Qed.

(** X11.  With a pool of at least one worker, [process_batch] hands
    back a report whatever the collaborators and the progress callback
    return or raise as an [Exception], on every schedule in which the jobs
    run one at a time.  Every item is processed and has its result, in the
    order in which the jobs completed; [successful_items] counts the
    results that succeeded; [failed_items] counts at least the results
    that failed, and can exceed that by at most one per item; no error
    text is recorded without a failure being counted.  With
    [max_workers <= 0] the pool cannot be created: [process_batch] raises
    [ValueError] before any job runs. *)
Theorem process_batch_always_reports (co : Collaborators) (strftime : Z → string)
    (batch_items completion_order : list BatchItem.t) (batch_id : option string)
    (enable_analysis enable_cache : bool)
    (progress_callback : option (Progress.t → outcome unit)) (w : World) :
  completion_order ≡ₚ batch_items →
  (0 < max_workers co →
   ∃ report w',
     process_batch co strftime batch_items completion_order batch_id
       enable_analysis enable_cache progress_callback w = (Ok report, w')
     ∧ BatchReport.total_items report = Z.of_nat (length batch_items)
     ∧ BatchReport.processed_items report = Z.of_nat (length batch_items)
     ∧ map BatchResult.item_id (BatchReport.results report)
       = map BatchItem.id completion_order
     ∧ BatchReport.successful_items report
       = Z.of_nat (length (filter (λ r, BatchResult.success r = true)
                             (BatchReport.results report)))
     ∧ Z.of_nat (length (filter (λ r, BatchResult.success r ≠ true)
                           (BatchReport.results report)))
       ≤ BatchReport.failed_items report
       ≤ Z.of_nat (length (filter (λ r, BatchResult.success r ≠ true)
                             (BatchReport.results report)))
         + Z.of_nat (length batch_items)
     ∧ Z.of_nat (length (BatchReport.errors report)) ≤ BatchReport.failed_items report
     ∧ is_Some (BatchReport.completed_at report))
  ∧ (max_workers co ≤ 0 →
     ∃ w',
       process_batch co strftime batch_items completion_order batch_id
         enable_analysis enable_cache progress_callback w
       = (Raise (Exn "ValueError" "max_workers must be greater than 0"), w')
       ∧ calls w' = calls w
       ∧ cache w' = cache w).
Proof.
  intros Hperm. split; intros Hpool; unfold process_batch; rewrite bind_run;
    match goal with |- context [match ?m w with _ => _ end] =>
      assert (∃ bid w0, m w = (Ok bid, w0) ∧ calls w0 = calls w ∧ cache w0 = cache w)
        as (bid & w0 & -> & Hcalls & Hcache)
        by (destruct batch_id as [[|c s]|]; by eexists _, _)
    end;
    run; unfold ProgressTracker.init, ThreadPoolExecutor;
    [rewrite bool_decide_eq_false_2 by lia
    |rewrite bool_decide_eq_true_2 by lia; run; by eexists].
  run.
  match goal with |- context [collect _ _ _ _ _ (?rep, ?prog) ?w1] =>
    destruct (collect_any co enable_analysis enable_cache progress_callback
                completion_order rep prog w1)
      as (rs & report' & progress' & w' & -> & Hres & Hids & Hp & Hs & Hf & He & Ht & _)
  end.
  cbn in Hres, Hp, Hs, Hf, He, Ht. rewrite (Permutation_length Hperm) in Hp, Hf. run.
  case_bool_decide as Hpos; run.
  - unfold truediv. rewrite Qeq_bool_inject_Z, bool_decide_eq_false_2 by lia. run.
    eexists _, _. split; [reflexivity|]. cbn. rewrite Hres.
    repeat split; try done; try lia.
  - eexists _, _. split; [reflexivity|]. cbn. rewrite Hres.
    repeat split; try done; try lia.
Qed.

(** One item whose callback raises: one result, one success, one failure. *)
Lemma process_batch_always_reports_witness :
  ∃ report w',
    process_batch working sample_strftime [sample_item "item1" "first"]
      [sample_item "item1" "first"] (Some "b1") true false (Some broken_pipe) empty_world
    = (Ok report, w')
    ∧ BatchReport.processed_items report = 1
    ∧ map BatchResult.item_id (BatchReport.results report) = ["item1"].
Proof.
  destruct (proj1 (process_batch_always_reports working sample_strftime
                     [sample_item "item1" "first"] [sample_item "item1" "first"] (Some "b1")
                     true false (Some broken_pipe) empty_world (Permutation_refl _)))
    as (report & w' & Hrun & _ & Hp & Hids & _); [reflexivity|].
  exists report, w'. split; [exact Hrun|]. split; [exact Hp | exact Hids].
Defined.

(** ** An item processed twice *)

Lemma cache_after_set_live c k data t expires size tags t' :
  t' ≤ expires →
  sum_size_bytes (entries c) + size ≤ max_size_bytes c ∨ select_by_key k (entries c) = None →
  live_at t' (cache_after_set c k data t expires size tags) k data.
Proof.
  intros Httl Hroom. eexists. split; [|split].
  - rewrite entries_cache_after_set. apply (select_insert_or_replace (mkRow k _ _ _ _ _ _)).
  - cbn. intros e [= <-]. exact Httl.
  - unfold cache_after_set. cbn [files with_entries].
    case_bool_decide as Hover.
    + destruct Hroom as [Hfit|Hnew]; [lia|].
      rewrite files_remove_all; [apply lookup_insert_eq|].
      intros Hin. apply list_elem_of_In, in_map_iff in Hin as (r & Hkey & Hr).
      apply list_elem_of_In, victims_are_rows in Hr.
      rewrite lru_order_perm in Hr.
      apply select_by_key_None with (r := r) in Hnew; done.
    + apply lookup_insert_eq.
Qed.

Lemma hit_run co item enable_analysis w d :
  live_at (clock w (S (tick w))) (cache w) (item_key item) d →
  d ≠ [] →
  ∃ t1 w',
    _process_single_item co item enable_analysis true w
    = (Ok (hit_result item (clock w (tick w)) t1 d), w')
    ∧ calls w' = calls w.
Proof.
  intros Hlive Hd. rewrite process_single_item_unfold. run.
  destruct (get_live_run (datetime_now w).2 _ _ _ d Hlive) as [w2 Hget].
  pose proof (silent_get (BatchItem.prompt item) (BatchItem.target_llm item)
                (BatchItem.optimization_type item) (datetime_now w).2) as Hcalls.
  cbn in Hget, Hcalls. rewrite Hget in Hcalls |- *. cbn in Hcalls.
  destruct d as [|kv d]; [done|]. run.
  eexists _, _. split; [reflexivity|]. cbn. by rewrite Hcalls.
Qed.

Lemma miss_run (co : Collaborators) (item : BatchItem.t) (enable_analysis : bool) (w : World)
    (optimized : string) (routing : pydict) (formatted meta analysis_result : pyval) :
  let prompt := BatchItem.prompt item in
  let llm := BatchItem.target_llm item in
  let result_data :=
    [("optimized_prompt", PyStr optimized); ("formatted_prompt", formatted);
     ("analysis", analysis_result); ("routing_metadata", meta)] in
  let t := clock w (S (tick w)) in
  select_by_key (item_key item) (entries (cache w)) = None →
  hd NoFault (pending_faults w) = NoFault →
  optimize co prompt llm = Ok optimized →
  route_prompt co optimized llm = Ok routing →
  dict_lookup routing "formatted_prompt" = Some formatted →
  dict_lookup routing "metadata" = Some meta →
  (if enable_analysis
   then ∃ a, analyze co prompt llm = Ok a ∧ save_analysis co a = Ok ()
             ∧ analysis_result = PyDict a
   else analysis_result = PyNone) →
  ∃ w1,
    _process_single_item co item enable_analysis true w
    = (Ok (BatchResult.mk (BatchItem.id item) prompt (PyStr optimized) formatted llm
             (seconds_between (clock w (tick w)) (clock w (S (S (tick w))))) true None
             analysis_result meta), w1)
    ∧ clock w1 = clock w
    ∧ tick w1 = S (S (S (tick w)))
    ∧ cache w1
      = cache_after_set (cache w) (item_key item) result_data t
          (t + default_ttl (cache w)) (pickled_size w result_data) ["batch"; llm].
Proof.
  intros prompt llm result_data t Hcold Hf Hopt Hroute Hfmt Hmeta Han.
  rewrite process_single_item_unfold. rewrite bind_run. cbn -[cached_lookup compute_item].
  rewrite bind_run. unfold cached_lookup, get. rewrite bind_run.
  cbn -[compute_item]. fold (item_key item). rewrite Hcold. cbn -[compute_item].
  unfold compute_item. run. fold prompt llm. rewrite Hopt. run. rewrite Hroute.
  cbn -[finish_item]. unfold finish_item. fold prompt llm.
  assert (∀ (B : Type) (k : pyval → E B) w0,
            ((if enable_analysis
              then record (CallAnalyze prompt llm);;
                   analysis ← lift_outcome (analyze co prompt llm);
                   record CallSaveAnalysis;;
                   lift_outcome (save_analysis co analysis);;
                   mret (PyDict analysis)
              else mret PyNone) ≫= k) w0
            = k analysis_result
                (mkWorld (clock w0) (pickled_size w0) (pending_faults w0) (tick w0) (cache w0)
                   (calls w0 ++ (if enable_analysis
                                 then [CallAnalyze prompt llm; CallSaveAnalysis] else []))))
    as Hanalysis.
  { intros B k w0. destruct enable_analysis.
    - destruct Han as (a & Ha & Hsave & ->). run. rewrite Ha. run. rewrite Hsave. run.
      by rewrite <- app_assoc.
    - subst analysis_result. run. rewrite app_nil_r. by destruct w0. }
  rewrite Hanalysis. unfold dict_getitem. rewrite Hfmt, Hmeta.
  rewrite bind_run. cbn -[set]. rewrite bind_run. cbn -[set].
  rewrite bind_run. rewrite bind_run.
  match goal with |- context [set ?p ?l ?d ?o ?ttl ?tg ?w0] =>
    rewrite (set_nofault_run w0 p l d o ttl tg Hf)
  end.
  run. eexists. split; [reflexivity|]. cbn. repeat split.
Qed.

(** X12.  What the pipeline computed for an item once, it serves from
    the cache the next time.  For an item whose key the cache does not
    hold, with collaborators that succeed, a routing result that has both
    keys, a [set] that meets no I/O failure and a default TTL that gives
    a datetime and outlasts the second lookup: the first run calls the
    collaborators and
    succeeds; the second run of the same item succeeds without calling
    any collaborator and returns the same optimized prompt, formatted
    prompt, analysis and routing metadata. *)
Theorem second_run_served_from_cache (co : Collaborators) (item : BatchItem.t)
    (enable_analysis : bool) (w : World) (optimized : string) (routing : pydict)
    (formatted meta analysis_result : pyval) :
  let prompt := BatchItem.prompt item in
  let llm := BatchItem.target_llm item in
  select_by_key (item_key item) (entries (cache w)) = None →
  hd NoFault (pending_faults w) = NoFault →
  optimize co prompt llm = Ok optimized →
  route_prompt co optimized llm = Ok routing →
  dict_lookup routing "formatted_prompt" = Some formatted →
  dict_lookup routing "metadata" = Some meta →
  (if enable_analysis
   then ∃ a, analyze co prompt llm = Ok a ∧ save_analysis co a = Ok ()
             ∧ analysis_result = PyDict a
   else analysis_result = PyNone) →
  expiry_representable (cache w) (clock w (tick w + 1)) None →
  clock w (tick w + 4) ≤ clock w (tick w + 1) + default_ttl (cache w) →
  ∃ r1 w1 r2 w2,
    _process_single_item co item enable_analysis true w = (Ok r1, w1)
    ∧ _process_single_item co item enable_analysis true w1 = (Ok r2, w2)
    ∧ (∃ rest, calls w1 = calls w ++ CallOptimize prompt llm :: rest)
    ∧ calls w2 = calls w1
    ∧ BatchResult.success r1 = true ∧ BatchResult.success r2 = true
    ∧ BatchResult.optimized_prompt r1 = PyStr optimized
    ∧ BatchResult.optimized_prompt r2 = BatchResult.optimized_prompt r1
    ∧ BatchResult.formatted_prompt r2 = BatchResult.formatted_prompt r1
    ∧ BatchResult.analysis r2 = BatchResult.analysis r1
    ∧ BatchResult.routing_metadata r2 = BatchResult.routing_metadata r1.
Proof.
  intros prompt llm Hcold Hf Hopt Hroute Hfmt Hmeta Han _ Httl.
  destruct (miss_run co item enable_analysis w optimized routing formatted meta
              analysis_result Hcold Hf Hopt Hroute Hfmt Hmeta Han)
    as (w1 & Hrun1 & Hclock & Htick & Hcache).
  destruct (hit_run co item enable_analysis w1
              [("optimized_prompt", PyStr optimized); ("formatted_prompt", formatted);
               ("analysis", analysis_result); ("routing_metadata", meta)])
    as (t1 & w2 & Hrun2 & Hcalls); [|done|].
  { rewrite Hcache, Hclock, Htick. apply cache_after_set_live; [|by right].
    replace (S (S (S (S (tick w))))) with (tick w + 4)%nat by lia.
    replace (S (tick w)) with (tick w + 1)%nat by lia. exact Httl. }
  eexists _, w1, _, w2. split; [exact Hrun1|]. split; [exact Hrun2|].
  split; [|split; [exact Hcalls | by cbn]].
  pose proof (process_single_item_unfold co item enable_analysis true) as Hunf.
  rewrite Hunf in Hrun1. rewrite bind_run in Hrun1. cbn -[cached_lookup compute_item] in Hrun1.
  rewrite bind_run in Hrun1. unfold cached_lookup, get in Hrun1. rewrite bind_run in Hrun1.
  cbn -[compute_item] in Hrun1. fold (item_key item) in Hrun1. rewrite Hcold in Hrun1.
  cbn -[compute_item] in Hrun1.
  match type of Hrun1 with context [compute_item ?a ?b ?c ?d ?e ?w0] =>
    destruct (compute_item_calls a b c d e w0) as (rest & Hc & _);
    destruct (compute_item a b c d e w0) as [[r|e1] w'] eqn:Hci
  end; [|discriminate].
  injection Hrun1 as _ <-. exists rest. exact Hc.
Qed.

(** The first item of a batch, processed twice over an empty cache. *)
Lemma second_run_served_from_cache_witness :
  ∃ r1 w1 r2 w2,
    _process_single_item working (sample_item "item1" "first") true true empty_world
    = (Ok r1, w1)
    ∧ _process_single_item working (sample_item "item1" "first") true true w1 = (Ok r2, w2)
    ∧ calls w2 = calls w1
    ∧ BatchResult.optimized_prompt r2 = PyStr "first.".
Proof.
  destruct (second_run_served_from_cache working (sample_item "item1" "first") true
              empty_world "first." (sample_routing "first.")
              (PyStr ("<instructions>" +:+ "first." +:+ "</instructions>"))
              (PyDict [("confidence", PyInt 1)]) (PyDict [("word_count", PyInt 1)]))
    as (r1 & w1 & r2 & w2 & Hrun1 & Hrun2 & _ & Hcalls & _ & _ & Hopt1 & Hopt2 & _);
    try reflexivity.
  - by eexists.
  - split; by vm_compute.
  - by vm_compute.
  - exists r1, w1, r2, w2. split; [exact Hrun1|]. split; [exact Hrun2|].
    split; [exact Hcalls|]. by rewrite Hopt2.
Defined.

(** ** The cache switched off *)

Lemma keeps_ret {A} (a : A) : keeps_cache (mret a : E A).
Proof. by intros w. Qed.

Lemma keeps_bind {A B} (m : E A) (k : A → E B) :
  keeps_cache m → (∀ a, keeps_cache (k a)) → keeps_cache (m ≫= k).
Proof.
  intros Hm Hk w. rewrite bind_run. specialize (Hm w).
  destruct (m w) as [[a|e] w1]; cbn in *; [|exact Hm].
  destruct (Hk a w1) as [Hc Hp]. by rewrite Hc, Hp.
Qed.

Lemma keeps_try {A} (body : E A) (handler : exn → E A) :
  keeps_cache body → (∀ e, keeps_cache (handler e)) → keeps_cache (try_except body handler).
Proof.
  intros Hb Hh w. cbn. specialize (Hb w).
  destruct (body w) as [[a|e] w1]; cbn in *; [exact Hb|].
  destruct (Hh e w1) as [Hc Hp]. by rewrite Hc, Hp.
Qed.

Lemma keeps_attempt {A} (m : E A) : keeps_cache m → keeps_cache (attempt m).
Proof. intros Hm w. cbn. specialize (Hm w). by destruct (m w). Qed.

Lemma keeps_now : keeps_cache datetime_now.
Proof. by intros w. Qed.

Lemma keeps_record c : keeps_cache (record c).
Proof. by intros w. Qed.

Lemma keeps_lift {A} (o : outcome A) : keeps_cache (lift_outcome o).
Proof. by intros w. Qed.

Lemma keeps_raise {A} (e : exn) : keeps_cache (raise e : E A).
Proof. by intros w. Qed.

Create HintDb keeps.
#[global] Hint Resolve keeps_ret keeps_now keeps_record keeps_lift keeps_raise : keeps.

Ltac keep :=
  repeat match goal with
  | |- ∀ _, _ => intro
  | |- keeps_cache (_ ≫= _) => apply keeps_bind
  | |- keeps_cache (try_except _ _) => apply keeps_try
  | |- keeps_cache (attempt _) => apply keeps_attempt
  | |- keeps_cache (if ?b then _ else _) => destruct b
  | |- keeps_cache (match ?x with _ => _ end) => destruct x
  | |- keeps_cache _ => solve [auto with keeps]
  end.

Lemma keeps_process_single_item co item enable_analysis :
  keeps_cache (_process_single_item co item enable_analysis false).
Proof. unfold _process_single_item. keep. Qed.
#[global] Hint Resolve keeps_process_single_item : keeps.

Lemma keeps_get_progress self : keeps_cache (ProgressTracker.get_progress self).
Proof. unfold ProgressTracker.get_progress. keep. Qed.
#[global] Hint Resolve keeps_get_progress : keeps.

Lemma keeps_collect_one co enable_analysis progress_callback state item :
  keeps_cache (collect_one co enable_analysis false progress_callback state item).
Proof. unfold collect_one. destruct state as [report progress]. keep. Qed.
#[global] Hint Resolve keeps_collect_one : keeps.

Lemma keeps_collect co enable_analysis progress_callback completed state :
  keeps_cache (collect co enable_analysis false progress_callback completed state).
Proof. revert state. induction completed as [|item rest IH]; intros state; cbn; keep. Qed.
#[global] Hint Resolve keeps_collect : keeps.

(** X13.  With [enable_cache=False] the cache is neither read nor
    written: a single item, and a whole batch under any schedule and any
    callback, leave every row, every cache file and the cache's settings
    exactly as they were. *)
Theorem cache_disabled_untouched (co : Collaborators) (strftime : Z → string)
    (enable_analysis : bool) (w : World) :
  (∀ item, cache (_process_single_item co item enable_analysis false w).2 = cache w)
  ∧ (∀ batch_items completion_order batch_id progress_callback,
       cache (process_batch co strftime batch_items completion_order batch_id
                enable_analysis false progress_callback w).2 = cache w).
Proof.
  split.
  - intros item. apply keeps_process_single_item.
  - intros batch_items completion_order batch_id progress_callback.
    assert (keeps_cache (process_batch co strftime batch_items completion_order batch_id
                           enable_analysis false progress_callback)) as Hk; [|apply Hk].
    unfold process_batch, ProgressTracker.init, ThreadPoolExecutor. keep.
Qed.

(** ** A cache that cannot be written *)

Lemma set_world w prompt target_llm data optimization_type ttl_hours tags :
  let w' := (set prompt target_llm data optimization_type ttl_hours tags w).2 in
  (set prompt target_llm data optimization_type ttl_hours tags w).1
  = Ok (match hd NoFault (pending_faults w) with NoFault => true | _ => false end)
  ∧ clock w' = clock w ∧ pickled_size w' = pickled_size w ∧ tick w' = S (tick w)
  ∧ calls w' = calls w ∧ pending_faults w' = tl (pending_faults w).
Proof.
  destruct (hd NoFault (pending_faults w)) eqn:Hf.
  - cbv zeta. by rewrite (set_nofault_run _ _ _ _ _ _ _ Hf).
  - unfold set. run. rewrite Hf. run. by case_bool_decide.
  - unfold set. run. rewrite Hf. run. by case_bool_decide.
  - unfold set. run. rewrite Hf. run.
    case_bool_decide; run; [unfold _cleanup_by_size; run; rewrite evict_loop_run; run|];
      by case_bool_decide.
Qed.

Lemma select_filter_None (P : Row → Prop) `{!∀ r, Decision (P r)} k (rows : list Row) :
  select_by_key k rows = None → select_by_key k (filter P rows) = None.
Proof.
  unfold select_by_key. induction rows as [|r rows IH]; [done|].
  rewrite filter_cons. cbn. case_bool_decide as Hk; [done|]. intros Hrest.
  destruct (decide (P r)); [|by apply IH]. cbn.
  rewrite bool_decide_eq_false_2 by exact Hk. by apply IH.
Qed.

(** A miss with working collaborators, whatever happens inside [set]. *)
Lemma miss_run_any (co : Collaborators) (item : BatchItem.t) (enable_analysis : bool)
    (w : World) (optimized : string) (routing : pydict)
    (formatted meta analysis_result : pyval) :
  let prompt := BatchItem.prompt item in
  let llm := BatchItem.target_llm item in
  let result_data :=
    [("optimized_prompt", PyStr optimized); ("formatted_prompt", formatted);
     ("analysis", analysis_result); ("routing_metadata", meta)] in
  select_by_key (item_key item) (entries (cache w)) = None →
  optimize co prompt llm = Ok optimized →
  route_prompt co optimized llm = Ok routing →
  dict_lookup routing "formatted_prompt" = Some formatted →
  dict_lookup routing "metadata" = Some meta →
  (if enable_analysis
   then ∃ a, analyze co prompt llm = Ok a ∧ save_analysis co a = Ok ()
             ∧ analysis_result = PyDict a
   else analysis_result = PyNone) →
  ∃ w1 called,
    _process_single_item co item enable_analysis true w
    = (Ok (BatchResult.mk (BatchItem.id item) prompt (PyStr optimized) formatted llm
             (seconds_between (clock w (tick w)) (clock w (S (S (tick w))))) true None
             analysis_result meta), w1)
    ∧ cache w1
      = cache (set prompt llm result_data (BatchItem.optimization_type item) None
                 ["batch"; llm]
                 (mkWorld (clock w) (pickled_size w) (pending_faults w) (S (tick w))
                    (cache w) called)).2.
Proof.
  intros prompt llm result_data Hcold Hopt Hroute Hfmt Hmeta Han.
  rewrite process_single_item_unfold. rewrite bind_run. cbn -[cached_lookup compute_item].
  rewrite bind_run. unfold cached_lookup, get. rewrite bind_run.
  cbn -[compute_item]. fold (item_key item). rewrite Hcold. cbn -[compute_item].
  unfold compute_item. run. fold prompt llm. rewrite Hopt. run. rewrite Hroute.
  cbn -[finish_item]. unfold finish_item. fold prompt llm.
  assert (∀ (B : Type) (k : pyval → E B) w0,
            ((if enable_analysis
              then record (CallAnalyze prompt llm);;
                   analysis ← lift_outcome (analyze co prompt llm);
                   record CallSaveAnalysis;;
                   lift_outcome (save_analysis co analysis);;
                   mret (PyDict analysis)
              else mret PyNone) ≫= k) w0
            = k analysis_result
                (mkWorld (clock w0) (pickled_size w0) (pending_faults w0) (tick w0) (cache w0)
                   (calls w0 ++ (if enable_analysis
                                 then [CallAnalyze prompt llm; CallSaveAnalysis] else []))))
    as Hanalysis.
  { intros B k w0. destruct enable_analysis.
    - destruct Han as (a & Ha & Hsave & ->). run. rewrite Ha. run. rewrite Hsave. run.
      by rewrite <- app_assoc.
    - subst analysis_result. run. rewrite app_nil_r. by destruct w0. }
  rewrite Hanalysis. unfold dict_getitem. rewrite Hfmt, Hmeta.
  rewrite bind_run. cbn -[set]. rewrite bind_run. cbn -[set].
  rewrite bind_run. rewrite bind_run.
  match goal with |- context [set ?p ?l ?d ?o ?ttl ?tg ?w0] =>
    destruct (set_world w0 p l d o ttl tg) as (Hret & Hclock & _ & Htick & _);
    destruct (set p l d o ttl tg w0) as [res w'] eqn:Hset
  end.
  cbn in Hret, Hclock, Htick. subst res. run. rewrite Hclock, Htick.
  eexists _, _. split; [reflexivity|].
  exact (f_equal (λ x : outcome bool * World, cache x.2) (eq_sym Hset)).
Qed.

(** X14.  A cache that cannot be written does not fail the item.  When
    the [set] at the end of a miss meets an I/O failure, the result is
    still the successful one, carrying what the collaborators returned;
    nothing is stored under the item's key, neither row nor file, so the
    next run of the item will compute it again. *)
Theorem cache_write_failure_tolerated (co : Collaborators) (item : BatchItem.t)
    (enable_analysis : bool) (w : World) (optimized : string) (routing : pydict)
    (formatted meta analysis_result : pyval) :
  let prompt := BatchItem.prompt item in
  let llm := BatchItem.target_llm item in
  select_by_key (item_key item) (entries (cache w)) = None →
  hd NoFault (pending_faults w) ≠ NoFault →
  optimize co prompt llm = Ok optimized →
  route_prompt co optimized llm = Ok routing →
  dict_lookup routing "formatted_prompt" = Some formatted →
  dict_lookup routing "metadata" = Some meta →
  (if enable_analysis
   then ∃ a, analyze co prompt llm = Ok a ∧ save_analysis co a = Ok ()
             ∧ analysis_result = PyDict a
   else analysis_result = PyNone) →
  ∃ r w1,
    _process_single_item co item enable_analysis true w = (Ok r, w1)
    ∧ BatchResult.success r = true
    ∧ BatchResult.error_message r = None
    ∧ BatchResult.optimized_prompt r = PyStr optimized
    ∧ BatchResult.formatted_prompt r = formatted
    ∧ BatchResult.analysis r = analysis_result
    ∧ BatchResult.routing_metadata r = meta
    ∧ select_by_key (item_key item) (entries (cache w1)) = None
    ∧ files (cache w1) !! _get_file_path (item_key item) = None.
Proof.
  intros prompt llm Hcold Hfault Hopt Hroute Hfmt Hmeta Han.
  destruct (miss_run_any co item enable_analysis w optimized routing formatted meta
              analysis_result Hcold Hopt Hroute Hfmt Hmeta Han)
    as (w1 & called & Hrun & Hcache).
  eexists _, w1. split; [exact Hrun|]. cbn. do 6 (split; [reflexivity|]).
  rewrite Hcache, set_final_cache. cbn [cache pending_faults]. fold (item_key item).
  destruct (hd NoFault (pending_faults w)); [done| | |].
  - split; [exact Hcold | apply lookup_delete_eq].
  - split; [exact Hcold | apply lookup_delete_eq].
  - cbv zeta. case_bool_decide as Hthere.
    + split; [|apply lookup_delete_eq].
      cbn [entries with_files]. rewrite entries_remove_all. by apply select_filter_None.
    + split; [|by apply eq_None_not_Some].
      rewrite entries_remove_all. by apply select_filter_None.
Qed.

(** The first item of a batch over a cache whose disk is full. *)
Lemma cache_write_failure_tolerated_witness :
  ∃ r w1,
    _process_single_item working (sample_item "item1" "first") true true
      (sample_world 1200 [] [] 400 [InsertFails]) = (Ok r, w1)
    ∧ BatchResult.success r = true
    ∧ BatchResult.optimized_prompt r = PyStr "first."
    ∧ entries (cache w1) = [].
Proof.
  destruct (cache_write_failure_tolerated working (sample_item "item1" "first") true
              (sample_world 1200 [] [] 400 [InsertFails]) "first." (sample_routing "first.")
              (PyStr ("<instructions>" +:+ "first." +:+ "</instructions>"))
              (PyDict [("confidence", PyInt 1)]) (PyDict [("word_count", PyInt 1)]))
    as (r & w1 & Hrun & Hok & _ & Hopt & _); try reflexivity.
  - discriminate.
  - by eexists.
  - exists r, w1. split; [exact Hrun|]. split; [exact Hok|]. split; [exact Hopt|].
    assert (w1 = (_process_single_item working (sample_item "item1" "first") true true
                    (sample_world 1200 [] [] 400 [InsertFails])).2) as ->
      by (by rewrite Hrun).
    vm_compute. reflexivity.
Defined.

(** ** A routing result without its keys *)

(** X15.  The pipeline reads [routing_result['formatted_prompt']] only
    after the analysis has been made and saved.  So for a router that
    returns a dict without that key, on a cache miss: the item fails with
    the [KeyError]'s text as its error, the optimizer, the router and,
    when analysis is enabled, the analyzer and the analytics storage have
    all been called, and nothing is written to the cache. *)
Theorem routing_without_formatted_prompt (co : Collaborators) (item : BatchItem.t)
    (enable_analysis enable_cache : bool) (w : World) (optimized : string)
    (routing : pydict) :
  let prompt := BatchItem.prompt item in
  let llm := BatchItem.target_llm item in
  (enable_cache = true → select_by_key (item_key item) (entries (cache w)) = None) →
  optimize co prompt llm = Ok optimized →
  route_prompt co optimized llm = Ok routing →
  dict_lookup routing "formatted_prompt" = None →
  (enable_analysis = true →
   ∃ a, analyze co prompt llm = Ok a ∧ save_analysis co a = Ok ()) →
  ∃ r w1,
    _process_single_item co item enable_analysis enable_cache w = (Ok r, w1)
    ∧ BatchResult.success r = false
    ∧ BatchResult.error_message r = Some "'formatted_prompt'"
    ∧ BatchResult.optimized_prompt r = PyStr ""
    ∧ BatchResult.formatted_prompt r = PyStr ""
    ∧ calls w1
      = calls w ++ [CallOptimize prompt llm; CallRoute optimized llm]
          ++ (if enable_analysis then [CallAnalyze prompt llm; CallSaveAnalysis] else [])
    ∧ cache w1 = cache w
    ∧ pending_faults w1 = pending_faults w.
Proof.
  intros prompt llm Hcold Hopt Hroute Hfmt Han.
  rewrite process_single_item_unfold. rewrite bind_run. cbn -[cached_lookup compute_item].
  rewrite bind_run.
  assert (∀ w0, cache w0 = cache w → cached_lookup item enable_cache w0 = (Ok None, w0))
    as Hmiss.
  { intros w0 Hw0. unfold cached_lookup. destruct enable_cache; [|reflexivity].
    unfold get. rewrite bind_run. cbn. fold (item_key item).
    rewrite Hw0, (Hcold eq_refl). reflexivity. }
  rewrite Hmiss by reflexivity. cbn -[compute_item].
  unfold compute_item. run. fold prompt llm. rewrite Hopt. run. rewrite Hroute.
  cbn -[finish_item]. unfold finish_item. fold prompt llm.
  unfold dict_getitem. rewrite Hfmt.
  destruct enable_analysis.
  - destruct (Han eq_refl) as (a & Ha & Hsave). run. rewrite Ha. run. rewrite Hsave. run.
    eexists _, _. split; [reflexivity|]. cbn. rewrite <- !app_assoc. by repeat split.
  - run. eexists _, _. split; [reflexivity|]. cbn. rewrite <- !app_assoc.
    by repeat split.
Qed.

(** A router whose result lacks the formatted prompt. *)
Lemma routing_without_formatted_prompt_witness :
  ∃ r w1,
    _process_single_item
      (mkCollaborators (optimize working) (λ _ _, Ok [("metadata", PyNone)])
         (analyze working) (save_analysis working) 4)
      (sample_item "item1" "first") true true empty_world = (Ok r, w1)
    ∧ BatchResult.success r = false
    ∧ BatchResult.error_message r = Some "'formatted_prompt'".
Proof.
  destruct (routing_without_formatted_prompt
              (mkCollaborators (optimize working) (λ _ _, Ok [("metadata", PyNone)])
                 (analyze working) (save_analysis working) 4)
              (sample_item "item1" "first") true true empty_world "first."
              [("metadata", PyNone)])
    as (r & w1 & Hrun & Hok & Herr & _); try reflexivity.
  - intros _. by eexists.
  - exists r, w1. split; [exact Hrun|]. split; [exact Hok | exact Herr].
Defined.

(** ** Round trip, tally, and the empty batch *)

(** X16.  What [set] stored, [get] reads back: after a [set] whose
    expiry is a datetime and that meets no I/O failure, a [get] of the
    same prompt, target and optimization type before the entry expires
    returns the very payload, provided the entry was not evicted by its
    own insertion (it fits in the budget beside what is there, or its key
    is new). *)
Theorem stored_payload_read_back (w : World) (prompt target_llm : string) (data : pydict)
    (optimization_type : string) (ttl_hours : option Z) (tags : list string) :
  let c := cache w in
  let k := _generate_key prompt target_llm optimization_type in
  hd NoFault (pending_faults w) = NoFault →
  expiry_representable c (clock w (tick w)) ttl_hours →
  clock w (S (tick w)) ≤ expiry c (clock w (tick w)) ttl_hours →
  (sum_size_bytes (entries c) + pickled_size w data ≤ max_size_bytes c
   ∨ select_by_key k (entries c) = None) →
  ∃ w1 w2,
    set prompt target_llm data optimization_type ttl_hours tags w = (Ok true, w1)
    ∧ get prompt target_llm optimization_type w1 = (Ok (Some data), w2)
    ∧ live_at (clock w (S (tick w))) (cache w1) k data.
Proof.
  intros c k Hf _ Httl Hroom.
  destruct (set_then_get_roundtrip w prompt target_llm data optimization_type ttl_hours tags
              Hf Httl Hroom) as (w1 & w2 & Hset & Hget).
  exists w1, w2. split; [exact Hset|]. split; [exact Hget|].
  rewrite (set_nofault_run _ _ _ _ _ _ _ Hf) in Hset. injection Hset as <-.
  cbn [cache]. by apply cache_after_set_live.
Qed.

(** A payload stored in the empty cache and read back. *)
Lemma stored_payload_read_back_witness :
  ∃ w1 w2,
    set "p1" "claude" new_payload "default" (Some 1) ["batch"] empty_world = (Ok true, w1)
    ∧ get "p1" "claude" "default" w1 = (Ok (Some new_payload), w2).
Proof.
  destruct (stored_payload_read_back empty_world "p1" "claude" new_payload "default"
              (Some 1) ["batch"]) as (w1 & w2 & Hset & Hget & _).
  - reflexivity.
  - split; by vm_compute.
  - by vm_compute.
  - right. reflexivity.
  - exists w1, w2. split; [exact Hset | exact Hget].
Defined.

(** X17.  With a pool of at least one worker and a progress callback
    that never raises, or none, the report's tally is exact on every
    schedule in which the jobs run one at a time: every item is
    processed, and [successful_items + failed_items] is the number of
    items, each result counted once. *)
Theorem process_batch_tally (co : Collaborators) (strftime : Z → string)
    (batch_items completion_order : list BatchItem.t) (batch_id : option string)
    (enable_analysis enable_cache : bool)
    (progress_callback : option (Progress.t → outcome unit)) (w : World) :
  0 < max_workers co →
  callback_safe progress_callback →
  completion_order ≡ₚ batch_items →
  ∃ report w',
    process_batch co strftime batch_items completion_order batch_id
      enable_analysis enable_cache progress_callback w = (Ok report, w')
    ∧ BatchReport.total_items report = Z.of_nat (length batch_items)
    ∧ BatchReport.processed_items report = Z.of_nat (length batch_items)
    ∧ BatchReport.successful_items report + BatchReport.failed_items report
      = Z.of_nat (length batch_items)
    ∧ map BatchResult.item_id (BatchReport.results report) ≡ₚ map BatchItem.id batch_items.
Proof. apply process_batch_accounts. Qed.

(** Two items that complete in reverse order, with no callback. *)
Lemma process_batch_tally_witness :
  ∃ report w',
    process_batch working sample_strftime
      [sample_item "item1" "first"; sample_item "item2" "second"]
      [sample_item "item2" "second"; sample_item "item1" "first"]
      None true true None empty_world = (Ok report, w')
    ∧ BatchReport.successful_items report + BatchReport.failed_items report = 2.
Proof.
  destruct (process_batch_tally working sample_strftime
              [sample_item "item1" "first"; sample_item "item2" "second"]
              [sample_item "item2" "second"; sample_item "item1" "first"]
              None true true None empty_world)
    as (report & w' & Hrun & _ & _ & Hsum & _).
  - reflexivity.
  - intros callback Hcb. discriminate.
  - apply perm_swap.
  - exists report, w'. split; [exact Hrun | exact Hsum].
Defined.

(** X18.  A processor whose pool has at least one worker reports an
    empty batch rather than refusing it: although a tracker over zero
    items cannot compute its percentage, [process_batch] never asks it
    to, and the average time is left at zero rather than divided by the
    number of processed items.  The report has all counts zero, no
    results and no errors; no collaborator is called and the cache is
    left alone. *)
Theorem process_batch_empty (co : Collaborators) (strftime : Z → string)
    (batch_id : option string) (enable_analysis enable_cache : bool)
    (progress_callback : option (Progress.t → outcome unit)) (w : World) :
  0 < max_workers co →
  ∃ report w',
    process_batch co strftime [] [] batch_id enable_analysis enable_cache
      progress_callback w = (Ok report, w')
    ∧ BatchReport.total_items report = 0
    ∧ BatchReport.processed_items report = 0
    ∧ BatchReport.successful_items report = 0
    ∧ BatchReport.failed_items report = 0
    ∧ BatchReport.average_time_per_item report = 0%Q
    ∧ BatchReport.results report = []
    ∧ BatchReport.errors report = []
    ∧ calls w' = calls w
    ∧ cache w' = cache w.
Proof.
  intros Hpool. unfold process_batch, ProgressTracker.init, ThreadPoolExecutor.
  destruct batch_id as [[|c s]|]; run; rewrite bool_decide_eq_false_2 by lia; run;
    eexists _, _; (split; [reflexivity|]); cbn; by repeat split.
Qed.

(** The empty batch, with a callback that would raise. *)
Lemma process_batch_empty_witness :
  ∃ report w',
    process_batch working sample_strftime [] [] None true true (Some broken_pipe) empty_world
    = (Ok report, w')
    ∧ BatchReport.total_items report = 0
    ∧ BatchReport.errors report = [].
Proof.
  destruct (process_batch_empty working sample_strftime None true true (Some broken_pipe)
              empty_world)
    as (report & w' & Hrun & Htotal & _ & _ & _ & _ & _ & Herrors & _); [reflexivity|].
  exists report, w'. split; [exact Hrun|]. split; [exact Htotal | exact Herrors].
Defined.

(** ** What the progress record says *)

Open Scope Q_scope.

Lemma pow10_pos (n : Z) : (0 ≤ n)%Z → 0 < inject_Z (10 ^ n).
Proof. intros Hn. rewrite <- (Zlt_Qlt 0). by apply Z.pow_pos_nonneg. Qed.

Lemma round_choice (x : Q) (n : Z) :
  let scaled := x * inject_Z (10 ^ n) in
  ∃ m : Z, round x n = inject_Z m / inject_Z (10 ^ n)
           ∧ (m = Qfloor scaled
              ∨ (m = (Qfloor scaled + 1)%Z ∧ ¬ scaled == inject_Z (Qfloor scaled))).
Proof.
  intros scaled. unfold round. fold scaled. cbv zeta.
  set (lo := Qfloor scaled). set (frac := scaled - inject_Z lo).
  assert (scaled == inject_Z lo → frac == 0) as Hzero
    by (intros Heq; unfold frac; rewrite Heq; ring).
  destruct (Qeq_bool frac (1 # 2)) eqn:Hhalf.
  - apply Qeq_bool_iff in Hhalf.
    destruct (Z.even lo); eexists; (split; [reflexivity|]); [by left|right].
    split; [reflexivity|]. intros Heq. rewrite (Hzero Heq) in Hhalf. discriminate.
  - destruct (Qle_bool frac (1 # 2)) eqn:Hle; eexists; (split; [reflexivity|]);
      [by left|right].
    split; [reflexivity|]. intros Heq.
    assert (Qle_bool frac (1 # 2) = true) as Hcontra; [|congruence].
    apply Qle_bool_iff. rewrite (Hzero Heq). discriminate.
Qed.

Lemma round_lower (x : Q) (n b : Z) :
  (0 ≤ n)%Z → inject_Z b <= x → inject_Z b <= round x n.
Proof.
  intros Hn Hx. pose proof (pow10_pos n Hn) as Hpos.
  destruct (round_choice x n) as (m & -> & Hm).
  apply Qle_shift_div_l; [exact Hpos|]. rewrite <- inject_Z_mult, <- Zle_Qle.
  assert (b * 10 ^ n ≤ Qfloor (x * inject_Z (10 ^ n)))%Z as Hfloor.
  { apply Qfloor_resp_le in Hx as Hmono.
    rewrite <- (Qfloor_Z (b * 10 ^ n)). apply Qfloor_resp_le.
    rewrite inject_Z_mult. apply Qmult_le_compat_r; [exact Hx | by apply Qlt_le_weak]. }
  destruct Hm as [->|[-> _]]; lia.
Qed.

Lemma round_upper (x : Q) (n b : Z) :
  (0 ≤ n)%Z → x <= inject_Z b → round x n <= inject_Z b.
Proof.
  intros Hn Hx. pose proof (pow10_pos n Hn) as Hpos.
  destruct (round_choice x n) as (m & -> & Hm).
  apply Qle_shift_div_r; [exact Hpos|]. rewrite <- inject_Z_mult, <- Zle_Qle.
  assert (x * inject_Z (10 ^ n) <= inject_Z (b * 10 ^ n)) as Hscaled
    by (rewrite inject_Z_mult; apply Qmult_le_compat_r; [exact Hx | by apply Qlt_le_weak]).
  assert (Qfloor (x * inject_Z (10 ^ n)) ≤ b * 10 ^ n)%Z as Hfloor
    by (rewrite <- (Qfloor_Z (b * 10 ^ n)); by apply Qfloor_resp_le).
  destruct Hm as [->|[-> Hne]]; [exact Hfloor|].
  destruct (Z.eq_dec (Qfloor (x * inject_Z (10 ^ n))) (b * 10 ^ n)%Z) as [Heq|Hneq]; [|lia].
  exfalso. apply Hne. apply Qle_antisym; [by rewrite Heq | apply Qfloor_le].
Qed.

Lemma round_integer (n b : Z) (x : Q) : (0 ≤ n)%Z → x == inject_Z b → round x n == inject_Z b.
Proof.
  intros Hn Hx. apply Qle_antisym.
  - apply round_upper; [exact Hn | by rewrite Hx; apply Qle_refl].
  - apply round_lower; [exact Hn | by rewrite Hx; apply Qle_refl].
Qed.

Lemma Qdiv_nonneg (a b : Q) : 0 <= a → 0 < b → 0 <= a / b.
Proof. intros Ha Hb. apply Qle_shift_div_l; [exact Hb|]. by rewrite Qmult_0_l. Qed.

Lemma percent_bounds (completed total : Z) :
  (0 < total)%Z → (0 ≤ completed ≤ total)%Z →
  inject_Z 0 <= inject_Z completed / inject_Z total * 100
  ∧ inject_Z completed / inject_Z total * 100 <= inject_Z 100.
Proof.
  intros Ht [Hc0 Hct].
  assert (0 < inject_Z total) as Hpos by by rewrite <- (Zlt_Qlt 0).
  assert (0 <= inject_Z completed) as Hc by by rewrite <- (Zle_Qle 0).
  split.
  - apply Qmult_le_0_compat; [by apply Qdiv_nonneg | discriminate].
  - apply Qle_trans with (1 * 100); [|discriminate].
    apply Qmult_le_compat_r; [|discriminate].
    apply Qle_shift_div_r; [exact Hpos|]. rewrite Qmult_1_l. by rewrite <- Zle_Qle.
Qed.

Close Scope Q_scope.

(** X19.  For a tracker over a non-empty batch that has counted no more
    completions than there are items, and was started no later than now,
    [get_progress] returns a record: the percentage lies between 0 and
    100, the elapsed time, the average and the estimate are not
    negative; before the first completion the percentage, the average and
    the estimate are all zero, and once every item has completed the
    percentage is 100 and the estimate zero. *)
Theorem get_progress_bounds (self : ProgressTracker.t) (w : World) :
  0 < ProgressTracker.total_items self →
  0 ≤ ProgressTracker.completed_items self ≤ ProgressTracker.total_items self →
  ProgressTracker.start_time self ≤ clock w (tick w) →
  ∃ p w',
    ProgressTracker.get_progress self w = (Ok p, w')
    ∧ (0 <= Progress.progress_percent p)%Q ∧ (Progress.progress_percent p <= 100)%Q
    ∧ (0 <= Progress.elapsed_time_seconds p)%Q
    ∧ (0 <= Progress.avg_time_per_item p)%Q
    ∧ (0 <= Progress.eta_seconds p)%Q
    ∧ (ProgressTracker.completed_items self = 0 →
       (Progress.progress_percent p == 0)%Q ∧ (Progress.avg_time_per_item p == 0)%Q
       ∧ (Progress.eta_seconds p == 0)%Q)
    ∧ (ProgressTracker.completed_items self = ProgressTracker.total_items self →
       (Progress.progress_percent p == 100)%Q ∧ (Progress.eta_seconds p == 0)%Q).
Proof.
  intros Htotal [Hc0 Hct] Hstart.
  destruct (percent_bounds _ _ Htotal (conj Hc0 Hct)) as [Hlo Hhi].
  assert (0 <= seconds_between (ProgressTracker.start_time self) (clock w (tick w)))%Q
    as Helapsed.
  { unfold seconds_between. apply Qdiv_nonneg; [|reflexivity].
    rewrite <- (Zle_Qle 0). lia. }
  assert (0 < inject_Z (ProgressTracker.total_items self))%Q as Hpos
    by by rewrite <- (Zlt_Qlt 0).
  unfold ProgressTracker.get_progress, truediv. run.
  rewrite Qeq_bool_inject_Z, bool_decide_eq_false_2 by lia. run.
  case_bool_decide as Hdone; run.
  - rewrite Qeq_bool_inject_Z, bool_decide_eq_false_2 by lia. run.
    assert (0 < inject_Z (ProgressTracker.completed_items self))%Q as Hcpos
      by by rewrite <- (Zlt_Qlt 0).
    pose proof (Qdiv_nonneg _ _ Helapsed Hcpos) as Havg.
    eexists _, _. split; [reflexivity|]. cbn.
    split; [by apply (round_lower _ 2 0)|]. split; [by apply (round_upper _ 2 100)|].
    split; [by apply (round_lower _ 2 0)|]. split; [by apply (round_lower _ 3 0)|].
    split; [|split; [lia|]].
    + apply (round_lower _ 2 0); [done|]. apply Qmult_le_0_compat; [exact Havg|].
      rewrite <- (Zle_Qle 0). lia.
    + intros Hall. split.
      * apply (round_integer 2 100); [done|]. rewrite Hall.
        field. intros Hz. rewrite Hz in Hpos. discriminate.
      * apply (round_integer 2 0); [done|]. rewrite Hall, Z.sub_diag. ring.
  - assert (ProgressTracker.completed_items self = 0) as Hnone by lia.
    eexists _, _. split; [reflexivity|]. cbn.
    split; [by apply (round_lower _ 2 0)|]. split; [by apply (round_upper _ 2 100)|].
    split; [by apply (round_lower _ 2 0)|]. do 2 (split; [discriminate|]). split.
    + intros _. split; [|by split].
      apply (round_integer 2 0); [done|]. rewrite Hnone. field.
      intros Hz. rewrite Hz in Hpos. discriminate.
    + intros Hall. lia.
Qed.

(** A tracker over four items, two of them completed. *)
Lemma get_progress_bounds_witness :
  ∃ p w',
    ProgressTracker.get_progress (ProgressTracker.mk 4 2 1000) empty_world = (Ok p, w')
    ∧ (0 <= Progress.progress_percent p)%Q ∧ (Progress.progress_percent p <= 100)%Q.
Proof.
  destruct (get_progress_bounds (ProgressTracker.mk 4 2 1000) empty_world)
    as (p & w' & Hrun & Hlo & Hhi & _).
  - reflexivity.
  - by vm_compute.
  - by vm_compute.
  - exists p, w'. split; [exact Hrun|]. split; [exact Hlo | exact Hhi].
Defined.

(** ** Loading a batch from a file *)

Lemma call_strip_str strip (v : pyval) (s : string) :
  v = PyStr s → call_strip strip v = Ok (strip s).
Proof. by intros ->. Qed.

Lemma call_strip_raises strip (v : pyval) :
  (∀ s, v ≠ PyStr s) →
  ∃ e, call_strip strip v = Raise e ∧ exn_class e = "AttributeError".
Proof. intros Hv. destruct v; try (by eexists); by destruct (Hv s). Qed.

Lemma dict_get_complete (row : pydict) (column : string) (fallback : string) :
  (∀ v, dict_lookup row column = Some v → ∃ s, v = PyStr s) →
  ∃ s, dict_get row column (PyStr fallback) = PyStr s.
Proof.
  intros Hrow. unfold dict_get. destruct (dict_lookup row column) as [v|]; [|by eexists].
  by apply Hrow.
Qed.

Lemma default_id_inj (prefix : string) (i j : nat) :
  PyStr (prefix +:+ pretty i) = PyStr (prefix +:+ pretty j) → i = j.
Proof.
  intros [= Heq]. apply (inj pretty). revert Heq.
  induction prefix as [|c prefix IH]; [done|]. rewrite !append_cons. intros [= Heq]. auto.
Qed.

Lemma kept_rows_from strip prompt_column i reader :
  ∀ j, j ∈ kept_rows strip prompt_column i reader → (i ≤ j)%nat.
Proof.
  revert i. induction reader as [|row rest IH]; intros i j; cbn; [by intros ?%elem_of_nil|].
  destruct (dict_get row prompt_column (PyStr "")); try (intros Hj%IH; lia).
  case_bool_decide; [intros Hj%IH; lia|].
  intros [->|Hj%IH]%elem_of_cons; lia.
Qed.

Lemma kept_rows_NoDup strip prompt_column i reader :
  NoDup (kept_rows strip prompt_column i reader).
Proof.
  revert i. induction reader as [|row rest IH]; intros i; cbn; [constructor|].
  destruct (dict_get row prompt_column (PyStr "")); try apply IH.
  case_bool_decide; [apply IH|]. constructor; [|apply IH].
  intros Hi%kept_rows_from. lia.
Qed.

Lemma kept_rows_length strip prompt_column i reader :
  (length (kept_rows strip prompt_column i reader) ≤ length reader)%nat.
Proof.
  revert i. induction reader as [|row rest IH]; intros i; cbn; [lia|].
  destruct (dict_get row prompt_column (PyStr "")); try (specialize (IH (S i)); lia).
  case_bool_decide; cbn; specialize (IH (S i)); lia.
Qed.

Lemma csv_rows_complete strip prompt_column target_llm_column i reader batch_items w :
  Forall (row_complete prompt_column target_llm_column) reader →
  ∃ items,
    csv_rows strip prompt_column target_llm_column None i reader batch_items w
    = (Ok (batch_items ++ items), w)
    ∧ map RawItem.id items
      = map (λ j, PyStr ("csv_row_" +:+ pretty j)) (kept_rows strip prompt_column i reader)
    ∧ Forall (λ it, ∃ s, RawItem.prompt it = PyStr s ∧ s ≠ ""
                         ∧ RawItem.optimization_type it = PyStr "default") items.
Proof.
  intros Hrows. revert i batch_items.
  induction Hrows as [|row rest Hrow _ IH]; intros i batch_items.
  - exists []. cbn. by rewrite app_nil_r.
  - destruct (dict_get_complete row prompt_column "") as [p Hp];
      [intros v; apply Hrow; set_solver|].
    destruct (dict_get_complete row target_llm_column "universal") as [t Ht];
      [intros v; apply Hrow; set_solver|].
    cbn [csv_rows kept_rows]. unfold csv_row_item. rewrite Hp, Ht. run.
    destruct (strip p) as [|c rest_p] eqn:Hstrip.
    + rewrite bool_decide_eq_true_2 by reflexivity. run. apply IH.
    + rewrite bool_decide_eq_false_2 by discriminate. run.
      match goal with |- context [csv_rows _ _ _ _ _ _ (batch_items ++ [?it])] =>
        destruct (IH (S i) (batch_items ++ [it])) as (items & Hrun & Hids & Hprompts);
        exists (it :: items)
      end.
      rewrite Hrun, <- app_assoc. split; [reflexivity|]. split; [cbn; by rewrite Hids|].
      constructor; [|exact Hprompts]. by eexists.
Qed.

(** X20.  Loading a CSV file without an id column, when no line is
    short of one of the two columns used: the rows whose stripped prompt
    is empty are skipped and every other row gives one item, in file
    order; an item's id is [csv_row_<i>] with [i] the position of its row
    in the file, skipped rows counted, so the ids are pairwise different;
    no item has an empty prompt. *)
Theorem csv_items_default_ids (strip : string → string) (reader : list pydict)
    (prompt_column target_llm_column : string) (w : World) :
  Forall (row_complete prompt_column target_llm_column) reader →
  ∃ items,
    csv_batch_items strip reader prompt_column target_llm_column None w = (Ok items, w)
    ∧ map RawItem.id items
      = map (λ i, PyStr ("csv_row_" +:+ pretty i)) (kept_rows strip prompt_column 0 reader)
    ∧ NoDup (map RawItem.id items)
    ∧ Forall (λ it, ∃ s, RawItem.prompt it = PyStr s ∧ s ≠ ""
                         ∧ RawItem.optimization_type it = PyStr "default") items
    ∧ (length items ≤ length reader)%nat.
Proof.
  intros Hrows.
  destruct (csv_rows_complete strip prompt_column target_llm_column 0 reader [] w Hrows)
    as (items & Hrun & Hids & Hprompts).
  exists items. split; [exact Hrun|]. split; [exact Hids|]. split; [|split; [exact Hprompts|]].
  - rewrite Hids. apply NoDup_fmap_2; [|apply kept_rows_NoDup].
    intros i j. apply default_id_inj.
  - rewrite <- (length_map RawItem.id), Hids, length_map. apply kept_rows_length.
Qed.

(** Three lines, the second with a blank prompt. *)
Lemma csv_items_default_ids_witness :
  ∃ items,
    csv_batch_items (λ s, s) sample_reader "prompt" "target_llm" None empty_world
    = (Ok items, empty_world)
    ∧ map RawItem.id items = [PyStr "csv_row_0"; PyStr "csv_row_2"].
Proof.
  destruct (csv_items_default_ids (λ s, s) sample_reader "prompt" "target_llm" empty_world)
    as (items & Hrun & Hids & _).
  - repeat constructor; intros column v Hcol Hv;
      apply elem_of_cons in Hcol as [->|Hcol];
      [|apply list_elem_of_singleton in Hcol as ->| |apply list_elem_of_singleton in Hcol as ->
       | |apply list_elem_of_singleton in Hcol as ->];
      injection Hv as <-; by eexists.
  - exists items. split; [exact Hrun | exact Hids].
Defined.

Lemma csv_rows_short strip prompt_column target_llm_column id_column i reader batch_items w :
  (∃ row column, row ∈ reader ∧ column ∈ [prompt_column; target_llm_column]
                 ∧ dict_lookup row column = Some PyNone) →
  ∃ e,
    csv_rows strip prompt_column target_llm_column id_column i reader batch_items w
    = (Raise e, w)
    ∧ exn_class e = "AttributeError".
Proof.
  intros (row & column & Hin & Hcol & Hnone). revert i batch_items.
  induction reader as [|first rest IH]; intros i batch_items; [by apply elem_of_nil in Hin|].
  cbn [csv_rows]. unfold csv_row_item. rewrite bind_run.
  assert (∀ (column : string) (fallback : pyval),
            (∃ s, call_strip strip (dict_get first column fallback) = Ok s)
            ∨ ∃ e, call_strip strip (dict_get first column fallback) = Raise e
                   ∧ exn_class e = "AttributeError") as Hcases.
  { intros col fallback. destruct (dict_get first col fallback); cbn; eauto. }
  assert (first = row → column = prompt_column
          → ∃ e, call_strip strip (dict_get first prompt_column (PyStr "")) = Raise e
                 ∧ exn_class e = "AttributeError") as Hprompt.
  { intros -> ->. unfold dict_get. rewrite Hnone. by eexists. }
  assert (first = row → column = target_llm_column
          → ∃ e, call_strip strip (dict_get first target_llm_column (PyStr "universal"))
                 = Raise e ∧ exn_class e = "AttributeError") as Htarget.
  { intros -> ->. unfold dict_get. rewrite Hnone. by eexists. }
  rewrite bind_run. cbn [lift_outcome].
  destruct (Hcases prompt_column (PyStr "")) as [[p Hp]|(e & He & Hclass)];
    rewrite ?Hp, ?He; [|by exists e].
  rewrite bind_run. cbn [lift_outcome].
  destruct (Hcases target_llm_column (PyStr "universal")) as [[t Ht]|(e & He & Hclass)];
    rewrite ?Ht, ?He; [|by exists e].
  apply elem_of_cons in Hin as [<-|Hin].
  - apply elem_of_cons in Hcol as [Hc|Hc%list_elem_of_singleton].
    + destruct (Hprompt eq_refl Hc) as (e & He & _). congruence.
    + destruct (Htarget eq_refl Hc) as (e & He & _). congruence.
  - destruct p; cbn; apply (IH Hin).
Qed.

(** X21.  One short line stops the whole load.  If some line of the CSV
    file lacks the field of the prompt column or of the target column, so
    that the reader yields [None] for it, stripping it raises and
    [process_from_csv] hands the [AttributeError] on: no batch is
    processed, however many good lines the file has, with or without an
    id column. *)
Theorem csv_short_row_aborts (strip : string → string) (reader : list pydict)
    (prompt_column target_llm_column : string) (id_column : option string) (w : World) :
  (∃ row column, row ∈ reader ∧ column ∈ [prompt_column; target_llm_column]
                 ∧ dict_lookup row column = Some PyNone) →
  ∃ e,
    csv_batch_items strip reader prompt_column target_llm_column id_column w = (Raise e, w)
    ∧ exn_class e = "AttributeError".
Proof. apply csv_rows_short. Qed.

(** Three good lines and a fourth without its target. *)
Lemma csv_short_row_aborts_witness :
  ∃ e,
    csv_batch_items (λ s, s) short_reader "prompt" "target_llm" None empty_world
    = (Raise e, empty_world)
    ∧ exn_class e = "AttributeError".
Proof.
  apply (csv_short_row_aborts (λ s, s) short_reader "prompt" "target_llm" None empty_world).
  exists [("prompt", PyStr "fourth"); ("target_llm", PyNone)], "target_llm".
  split; [|split; [|reflexivity]].
  - apply elem_of_app. right. by apply list_elem_of_singleton.
  - apply elem_of_cons. right. by apply list_elem_of_singleton.
Defined.

Lemma json_list_items_spec str i (data : list pyval) (batch_items : list RawItem.t) :
  ∃ items,
    json_list_items str i data batch_items = batch_items ++ items
    ∧ length items = length data
    ∧ ∀ j item, data !! j = Some item → items !! j = Some (json_list_item str (i + j) item).
Proof.
  revert i batch_items. induction data as [|first rest IH]; intros i batch_items.
  - exists []. cbn. rewrite app_nil_r. by repeat split.
  - cbn [json_list_items].
    destruct (IH (S i) (batch_items ++ [json_list_item str i first]))
      as (items & -> & Hlen & Hnth).
    exists (json_list_item str i first :: items). rewrite <- app_assoc.
    split; [reflexivity|]. split; [cbn; by rewrite Hlen|].
    intros [|j] item Hj.
    + injection Hj as <-. by rewrite Nat.add_0_r.
    + change (items !! j = Some (json_list_item str (i + S j) item)).
      rewrite (Hnth j item Hj). do 2 f_equal. lia.
Qed.

(** X22.  Loading a JSON file.  A list gives one item per element,
    empty prompts included.  Element [i] that is not an object becomes
    the item for [universal] and [default] with id [json_item_<i>], its
    text as the prompt and an empty dict as metadata.  An object gives
    the item whose id, prompt, target and optimization type are what the
    object holds under these keys, [json_item_<i>], the empty string,
    [universal] and [default] taking the place of a key that is absent;
    its metadata is what the object holds under [metadata], and an empty
    dict when the key is absent or holds null.  An object at top level
    whose [prompts] key holds a list is not loaded at all: the method it
    is handed to does not exist, and the [AttributeError] goes to the
    caller.  Any other object at top level is one item, with id
    [json_single] when it names none, and any other value gives the
    empty batch. *)
Theorem json_items_shape (str : pyval → string) (w : World) :
  (∀ data : list pyval,
     ∃ items,
       json_batch_items str (PyList data) w = (Ok items, w)
       ∧ length items = length data
       ∧ Forall (λ it, RawItem.metadata it ≠ PyNone) items
       ∧ ∀ i item, data !! i = Some item →
           ∃ it, items !! i = Some it
                 ∧ match item with
                   | PyDict d =>
                       RawItem.id it = dict_get d "id" (PyStr ("json_item_" +:+ pretty i))
                       ∧ RawItem.prompt it = dict_get d "prompt" (PyStr "")
                       ∧ RawItem.target_llm it = dict_get d "target_llm" (PyStr "universal")
                       ∧ RawItem.optimization_type it
                         = dict_get d "optimization_type" (PyStr "default")
                       ∧ RawItem.metadata it
                         = match dict_lookup d "metadata" with
                           | None | Some PyNone => PyDict []
                           | Some m => m
                           end
                   | _ =>
                       RawItem.id it = PyStr ("json_item_" +:+ pretty i)
                       ∧ RawItem.prompt it = PyStr (str item)
                       ∧ RawItem.target_llm it = PyStr "universal"
                       ∧ RawItem.optimization_type it = PyStr "default"
                       ∧ RawItem.metadata it = PyDict []
                   end)
  ∧ (∀ (d : pydict) (prompts : list pyval),
       dict_lookup d "prompts" = Some (PyList prompts) →
       ∃ e, json_batch_items str (PyDict d) w = (Raise e, w)
            ∧ exn_class e = "AttributeError")
  ∧ (∀ d : pydict,
       (∀ prompts, dict_lookup d "prompts" ≠ Some (PyList prompts)) →
       json_batch_items str (PyDict d) w
       = (Ok [RawItem.mk (dict_get d "id" (PyStr "json_single"))
                (dict_get d "prompt" (PyStr ""))
                (dict_get d "target_llm" (PyStr "universal"))
                (dict_get d "optimization_type" (PyStr "default"))
                (match dict_lookup d "metadata" with
                 | None | Some PyNone => PyDict []
                 | Some m => m
                 end)], w))
  ∧ (∀ data : pyval,
       match data with PyList _ | PyDict _ => False | _ => True end →
       json_batch_items str data w = (Ok [], w)).
Proof.
  split; [|split; [|split]].
  - intros data. destruct (json_list_items_spec str 0 data []) as (items & Hrun & Hlen & Hnth).
    exists items. cbn. rewrite Hrun. split; [reflexivity|]. split; [exact Hlen|]. split.
    + apply Forall_forall. intros it Hit.
      apply list_elem_of_lookup in Hit as [i Hi].
      destruct (lookup_lt_is_Some_2 data i) as [item Hitem];
        [rewrite <- Hlen; by apply lookup_lt_Some in Hi|].
      rewrite (Hnth i item Hitem) in Hi. injection Hi as <-.
      destruct item; cbn; try discriminate.
      destruct (dict_get items0 "metadata" (PyDict [])); discriminate.
    + intros i item Hitem. eexists. split; [by apply Hnth|].
      destruct item; cbn; repeat split.
      unfold dict_get. by destruct (dict_lookup _ "metadata") as [[]|].
  - intros d prompts Hprompts. cbn. rewrite Hprompts. by eexists.
  - intros d Hnone. cbn. unfold RawItem.init, dict_get.
    destruct (dict_lookup d "prompts") as [[]|] eqn:Hprompts;
      try (by destruct (Hnone _ eq_refl));
      by destruct (dict_lookup d "metadata") as [[]|].
  - intros data Hdata. by destruct data.
Qed.

(** ** The statistics report *)

Lemma more_accessed_total r1 r2 :
  more_accessed_leb r1 r2 = true ∨ more_accessed_leb r2 r1 = true.
Proof.
  unfold more_accessed_leb.
  destruct (decide (access_count r2 ≤ access_count r1));
    [left | right]; apply bool_decide_eq_true_2; lia.
Qed.

Lemma more_accessed_trans r1 r2 r3 :
  more_accessed_leb r1 r2 = true → more_accessed_leb r2 r3 = true →
  more_accessed_leb r1 r3 = true.
Proof.
  unfold more_accessed_leb. intros H12%bool_decide_eq_true_1 H23%bool_decide_eq_true_1.
  apply bool_decide_eq_true_2. lia.
Qed.

Lemma StronglySorted_prefix {A} (R : relation A) (n : nat) (l : list A) :
  StronglySorted R l → StronglySorted R (take n l).
Proof.
  intros Hl. rewrite <- (take_drop n l) in Hl. by apply StronglySorted_app_1_l in Hl.
Qed.

Lemma sql_sum_sizes (rows : list Row) :
  default 0 (sql_sum (map size_bytes rows)) = sum_size_bytes rows.
Proof.
  destruct rows as [|r rows]; [reflexivity|]. cbn. f_equal.
  induction rows as [|r' rows IH]; [reflexivity|]. cbn. by rewrite IH.
Qed.

Lemma py_min_le (a b : Q) : (py_min a b <= a)%Q.
Proof.
  unfold py_min. destruct (Qle_bool a b) eqn:Hle; [apply Qle_refl|].
  apply Qlt_le_weak, Qnot_le_lt. intros Hab. apply Qle_bool_iff in Hab. congruence.
Qed.

Lemma py_min_nonneg (a b : Q) : (0 <= a)%Q → (0 <= b)%Q → (0 <= py_min a b)%Q.
Proof. intros Ha Hb. unfold py_min. by destruct (Qle_bool a b). Qed.

Lemma sum_nonneg (xs : list Z) : Forall (λ x, 0 ≤ x) xs → 0 ≤ foldr Z.add 0 xs.
Proof. induction 1; cbn; lia. Qed.

Lemma sql_avg_nonneg (xs : list Z) :
  Forall (λ x, 0 ≤ x) xs → (0 <= default 0 (sql_avg xs))%Q.
Proof.
  intros Hxs. destruct xs as [|x xs]; [discriminate|]. unfold sql_avg, default.
  apply Qdiv_nonneg.
  - rewrite <- (Zle_Qle 0). by apply sum_nonneg.
  - rewrite <- (Zlt_Qlt 0). cbn [length]. lia.
Qed.

(** X23.  [get_stats] on a cache whose budget is zero bytes reports
    nothing but [{'error': 'division by zero'}].  For any other budget it
    returns the statistics: the number of entries; a total of accesses
    that is [None] exactly when the table is empty; at most five top
    entries, their access counts never increasing down the list; a hit
    ratio of at most 0.95, not negative when no access count is; and,
    for a positive budget that the stored sizes respect, a utilization
    between 0 and 100 percent. *)
Theorem get_stats_report (w : World) :
  let c := cache w in
  (max_size_bytes c = 0 → get_stats w = (Ok (inr "division by zero"), w))
  ∧ (max_size_bytes c ≠ 0 →
     ∃ stats,
       get_stats w = (Ok (inl stats), w)
       ∧ Stats.total_entries stats = Z.of_nat (length (entries c))
       ∧ (Stats.total_accesses stats = None ↔ entries c = [])
       ∧ (length (Stats.top_entries stats) ≤ 5)%nat
       ∧ StronglySorted (λ a b, b.2 ≤ a.2) (Stats.top_entries stats)
       ∧ (Stats.hit_ratio stats <= 95 # 100)%Q
       ∧ (Forall (λ r, 0 ≤ access_count r) (entries c) → (0 <= Stats.hit_ratio stats)%Q)
       ∧ (0 < max_size_bytes c → within_budget c →
          (0 <= Stats.utilization_percent stats)%Q
          ∧ (Stats.utilization_percent stats <= 100)%Q)).
Proof.
  intros c. split.
  - intros Hzero. unfold get_stats, _calculate_hit_ratio, truediv. run. fold c.
    rewrite Qeq_bool_inject_Z, bool_decide_eq_true_2 by exact Hzero. reflexivity.
  - intros Hmax. unfold get_stats, _calculate_hit_ratio, truediv. run. fold c.
    rewrite Qeq_bool_inject_Z, bool_decide_eq_false_2 by exact Hmax. run.
    eexists. split; [by destruct w|]. cbn.
    split; [reflexivity|]. split; [by destruct (entries c)|].
    split; [rewrite length_map, length_take; lia|].
    split.
    { apply StronglySorted_fmap with (R1 := λ r1 r2, more_accessed_leb r1 r2 = true).
      - intros r1 r2 Hr. by apply bool_decide_eq_true_1 in Hr.
      - apply StronglySorted_prefix, order_by_sorted;
          [apply more_accessed_total | apply more_accessed_trans]. }
    split; [apply py_min_le|]. split.
    { intros Hnn. apply py_min_nonneg; [discriminate|].
      apply Qmult_le_0_compat; [|discriminate].
      apply sql_avg_nonneg. by apply Forall_fmap. }
    intros Hpos [Hnn Hsum]. rewrite sql_sum_sizes.
    assert (0 ≤ sum_size_bytes (entries c)) as Hsize.
    { clear -Hnn. induction Hnn; cbn; lia. }
    destruct (percent_bounds (sum_size_bytes (entries c)) (max_size_bytes c) Hpos
                (conj Hsize Hsum)) as [Hlo Hhi].
    split; [by apply (round_lower _ 2 0) | by apply (round_upper _ 2 100)].
Qed.

Lemma stats_get_count_tag (tag tag' : string) (tag_stats : list (string * Z)) :
  stats_get (count_tag tag tag_stats) tag'
  = stats_get tag_stats tag' + (if bool_decide (tag = tag') then 1 else 0).
Proof.
  induction tag_stats as [|[t n] rest IH]; cbn.
  - by case_bool_decide.
  - destruct (decide (t = tag)) as [->|Ht].
    + rewrite (bool_decide_eq_true_2 (tag = tag)) by reflexivity. cbn.
      case_bool_decide; lia.
    + rewrite (bool_decide_eq_false_2 (t = tag)) by exact Ht. cbn.
      destruct (decide (t = tag')) as [->|Ht'].
      * rewrite (bool_decide_eq_true_2 (tag' = tag')) by reflexivity.
        rewrite (bool_decide_eq_false_2 (tag = tag')) by congruence. lia.
      * rewrite (bool_decide_eq_false_2 (t = tag')) by exact Ht'. exact IH.
Qed.

Lemma keys_count_tag (tag : string) (tag_stats : list (string * Z)) :
  NoDup (map fst tag_stats) → NoDup (map fst (count_tag tag tag_stats))
  ∧ ∀ t, t ∈ map fst (count_tag tag tag_stats) → t = tag ∨ t ∈ map fst tag_stats.
Proof.
  induction tag_stats as [|[t n] rest IH]; cbn.
  - intros _. split; [apply NoDup_singleton|]. intros t Ht. left.
    by apply list_elem_of_singleton in Ht.
  - intros [Hnew Hrest]%NoDup_cons. destruct (decide (t = tag)) as [->|Ht].
    + rewrite bool_decide_eq_true_2 by reflexivity. cbn.
      split; [by apply NoDup_cons|]. intros t' Ht'. by right.
    + rewrite bool_decide_eq_false_2 by exact Ht. cbn.
      destruct (IH Hrest) as [Hnd Hsub]. split.
      * apply NoDup_cons. split; [|exact Hnd].
        intros [->|Hin]%Hsub; [done | by apply Hnew].
      * intros t' [->|Hin]%elem_of_cons; [right; by left|].
        destruct (Hsub t' Hin) as [->|Hold]; [by left | right; by right].
Qed.

Lemma tags_counted (tag : string) (row_tags : list string) (tag_stats : list (string * Z)) :
  NoDup row_tags →
  stats_get (foldl (λ tag_stats t, count_tag t tag_stats) tag_stats row_tags) tag
  = stats_get tag_stats tag + (if bool_decide (tag ∈ row_tags) then 1 else 0).
Proof.
  revert tag_stats. induction row_tags as [|t rest IH]; intros tag_stats Hnd; cbn.
  - rewrite bool_decide_eq_false_2 by apply not_elem_of_nil. lia.
  - apply NoDup_cons in Hnd as [Hnew Hrest]. rewrite (IH _ Hrest), stats_get_count_tag.
    destruct (decide (t = tag)) as [->|Hne].
    + rewrite (bool_decide_eq_true_2 (tag = tag)) by reflexivity.
      rewrite (bool_decide_eq_false_2 (tag ∈ rest)) by exact Hnew.
      rewrite (bool_decide_eq_true_2 (tag ∈ tag :: rest)) by by left. lia.
    + rewrite (bool_decide_eq_false_2 (t = tag)) by exact Hne.
      destruct (decide (tag ∈ rest)) as [Hin|Hout].
      * rewrite (bool_decide_eq_true_2 (tag ∈ rest)) by exact Hin.
        rewrite (bool_decide_eq_true_2 (tag ∈ t :: rest)) by by right. lia.
      * rewrite (bool_decide_eq_false_2 (tag ∈ rest)) by exact Hout.
        rewrite (bool_decide_eq_false_2 (tag ∈ t :: rest)); [lia|].
        intros [->|Hin]%elem_of_cons; done.
Qed.

Lemma keys_tags_counted (row_tags : list string) (tag_stats : list (string * Z)) :
  NoDup (map fst tag_stats) →
  NoDup (map fst (foldl (λ tag_stats t, count_tag t tag_stats) tag_stats row_tags)).
Proof.
  revert tag_stats. induction row_tags as [|t rest IH]; intros tag_stats Hnd; [exact Hnd|].
  cbn. apply IH. by apply keys_count_tag.
Qed.

Lemma rows_counted (tag : string) (rows : list Row) (tag_stats : list (string * Z)) :
  Forall (λ r, NoDup (tags r)) rows →
  stats_get (foldl (λ tag_stats row,
                      foldl (λ tag_stats t, count_tag t tag_stats) tag_stats (tags row))
               tag_stats rows) tag
  = stats_get tag_stats tag
    + Z.of_nat (length (filter (λ r, shares_tag [tag] r = true) rows)).
Proof.
  intros Hrows. revert tag_stats.
  induction Hrows as [|row rest Hrow _ IH]; intros tag_stats; [cbn; lia|].
  cbn [foldl]. rewrite IH, (tags_counted _ _ _ Hrow).
  assert (shares_tag [tag] row = bool_decide (tag ∈ tags row)) as Hshares
    by (unfold shares_tag; cbn [existsb]; apply orb_false_r).
  destruct (decide (tag ∈ tags row)) as [Hin|Hout].
  - rewrite filter_cons_True by (rewrite Hshares; by apply bool_decide_eq_true_2).
    rewrite bool_decide_eq_true_2 by exact Hin. cbn [length]. lia.
  - rewrite filter_cons_False
      by (rewrite Hshares, bool_decide_eq_false_2 by exact Hout; discriminate).
    rewrite bool_decide_eq_false_2 by exact Hout. lia.
Qed.

Lemma keys_rows_counted (rows : list Row) (tag_stats : list (string * Z)) :
  NoDup (map fst tag_stats) →
  NoDup (map fst (foldl (λ tag_stats row,
                           foldl (λ tag_stats t, count_tag t tag_stats) tag_stats (tags row))
                    tag_stats rows)).
Proof.
  revert tag_stats. induction rows as [|row rest IH]; intros tag_stats Hnd; [exact Hnd|].
  cbn. apply IH. by apply keys_tags_counted.
Qed.

(** X24.  The tag distribution of [get_stats] and the tag search agree:
    when no entry lists a tag twice, the count the report gives for a
    tag is the number of keys [find_by_tags] returns for that tag alone,
    which is also what [invalidate_by_tags] would delete; a tag no entry
    carries counts zero.  The distribution holds each tag once. *)
Theorem tag_distribution_matches_search (w : World) (tag : string) :
  Forall (λ r, NoDup (tags r)) (entries (cache w)) →
  max_size_bytes (cache w) ≠ 0 →
  ∃ stats keys,
    get_stats w = (Ok (inl stats), w)
    ∧ find_by_tags [tag] w = (Ok keys, w)
    ∧ stats_get (Stats.tag_distribution stats) tag = Z.of_nat (length keys)
    ∧ NoDup (map fst (Stats.tag_distribution stats)).
Proof.
  intros Htags Hmax. unfold get_stats, _calculate_hit_ratio, truediv, find_by_tags. run.
  rewrite Qeq_bool_inject_Z, bool_decide_eq_false_2 by exact Hmax. run.
  eexists _, _. split; [by destruct w|]. split; [reflexivity|]. cbn [Stats.tag_distribution].
  split.
  - unfold tag_distribution. rewrite (rows_counted tag _ [] Htags), length_map. cbn. lia.
  - apply keys_rows_counted. constructor.
Qed.

(** The tag [news] in the three tagged entries. *)
Lemma tag_distribution_matches_search_witness :
  ∃ stats,
    get_stats world_tagged = (Ok (inl stats), world_tagged)
    ∧ stats_get (Stats.tag_distribution stats) "news" = 2.
Proof.
  destruct (tag_distribution_matches_search world_tagged "news")
    as (stats & keys & Hstats & Hfind & Hcount & _).
  - repeat constructor; rewrite ?elem_of_cons, ?elem_of_nil; intuition discriminate.
  - discriminate.
  - exists stats. split; [exact Hstats|]. rewrite Hcount.
    assert (keys = match (find_by_tags ["news"] world_tagged).1 with
                   | Ok found => found
                   | Raise _ => []
                   end) as -> by (by rewrite Hfind).
    reflexivity.
Defined.

(** ** What a hit depends on *)

Lemma hit_run_exact co item enable_analysis w d :
  live_at (clock w (S (tick w))) (cache w) (item_key item) d →
  d ≠ [] →
  let w2 := (get (BatchItem.prompt item) (BatchItem.target_llm item)
               (BatchItem.optimization_type item) (datetime_now w).2).2 in
  _process_single_item co item enable_analysis true w
  = (Ok (hit_result item (clock w (tick w)) (clock w2 (tick w2)) d), (datetime_now w2).2).
Proof.
  intros Hlive Hd. rewrite process_single_item_unfold. run.
  destruct (get_live_run (datetime_now w).2 _ _ _ d Hlive) as [w3 Hget].
  cbn in Hget. rewrite Hget. destruct d as [|kv d']; [done|]. run. reflexivity.
Qed.

(** X25.  On a cache hit neither the collaborators nor the analysis
    switch matter: with a live, non-empty payload under the item's key,
    any two processors, with analysis on or off, return the same result
    and leave the same state.  In particular the analysis reported is the
    stored one, [None] when the entry was written with analysis off. *)
Theorem hit_ignores_analysis_switch (co co' : Collaborators) (item : BatchItem.t)
    (enable_analysis enable_analysis' : bool) (w : World) (d : pydict) :
  live_at (clock w (S (tick w))) (cache w) (item_key item) d →
  d ≠ [] →
  _process_single_item co item enable_analysis true w
  = _process_single_item co' item enable_analysis' true w
  ∧ ∃ r w', _process_single_item co item enable_analysis true w = (Ok r, w')
            ∧ BatchResult.success r = true
            ∧ BatchResult.analysis r = dict_get d "analysis" PyNone.
Proof.
  intros Hlive Hd.
  rewrite (hit_run_exact co item enable_analysis w d Hlive Hd).
  rewrite (hit_run_exact co' item enable_analysis' w d Hlive Hd).
  split; [reflexivity|]. eexists _, _. by split.
Qed.

(** The warm sample cache, read by a working processor with analysis on
    and by one whose router is down, with analysis off. *)
Lemma hit_ignores_analysis_switch_witness :
  _process_single_item working (sample_item "item1" "p1") true true world_one_large
  = _process_single_item router_down (sample_item "item1" "p1") false true world_one_large.
Proof.
  apply (hit_ignores_analysis_switch working router_down (sample_item "item1" "p1")
           true false world_one_large old_payload); [|discriminate].
  exists (sample_row "p1" (hours 24) 0 None 800).
  split; [vm_compute; reflexivity|]. split; [|vm_compute; reflexivity].
  intros e [= <-]. by vm_compute.
Defined.

(** ** Keys that collide *)

(** C8.  The key is not the identity of a request.  The three
    components are joined with ['|'] and nothing keeps a ['|'] inside a
    component apart from the separator, so two different requests whose
    joined strings coincide get one key, and the entry stored for the one
    is served to the other.  [('a|b', 'c', 'd')] and [('a', 'b|c', 'd')]
    are such a pair. *)
Theorem generate_key_collides :
  (∀ prompt target_llm optimization_type prompt' target_llm' optimization_type',
     prompt +:+ "|" +:+ target_llm +:+ "|" +:+ optimization_type
     = prompt' +:+ "|" +:+ target_llm' +:+ "|" +:+ optimization_type' →
     _generate_key prompt target_llm optimization_type
     = _generate_key prompt' target_llm' optimization_type'
     ∧ ∀ (w : World) (data : pydict) (ttl_hours : option Z) (tags : list string),
         hd NoFault (pending_faults w) = NoFault →
         expiry_representable (cache w) (clock w (tick w)) ttl_hours →
         clock w (S (tick w)) ≤ expiry (cache w) (clock w (tick w)) ttl_hours →
         sum_size_bytes (entries (cache w)) + pickled_size w data ≤ max_size_bytes (cache w) →
         ∃ w1 w2,
           set prompt target_llm data optimization_type ttl_hours tags w = (Ok true, w1)
           ∧ get prompt' target_llm' optimization_type' w1 = (Ok (Some data), w2))
  ∧ ("a|b", "c", "d") ≠ ("a", "b|c", "d")
  ∧ "a|b" +:+ "|" +:+ "c" +:+ "|" +:+ "d" = "a" +:+ "|" +:+ "b|c" +:+ "|" +:+ "d"
  ∧ _generate_key "a|b" "c" "d" = _generate_key "a" "b|c" "d".
Proof.
  split; [|split; [discriminate | split; reflexivity]].
  intros prompt target_llm optimization_type prompt' target_llm' optimization_type' Hjoin.
  assert (_generate_key prompt target_llm optimization_type
          = _generate_key prompt' target_llm' optimization_type') as Hkey
    by (unfold _generate_key; by rewrite Hjoin).
  split; [exact Hkey|]. intros w data ttl_hours tags Hf _ Httl Hroom.
  destruct (set_then_get_roundtrip w prompt target_llm data optimization_type ttl_hours tags
              Hf Httl (or_introl Hroom)) as (w1 & w2 & Hset & Hget).
  exists w1, w2. split; [exact Hset|].
  unfold get in Hget |- *. by rewrite <- Hkey.
Qed.

(** ** A stored payload that is empty *)




